(** * Fleet log analytics: a shallow embedding of the analytics and
      incident-inference engine, and the properties its specification pins.

    The development follows the TypeScript sources:
    - [dateUtils]               (parseTimestamp, getSafeTimestamp),
    - [AnalyticsService]        (health score, performance metrics,
                                 anomalies, predictive alerts),
    - [NetworkIncidentService]  (event extraction, incident grouping,
                                 recovery metrics),
    - [NotificationService]     (bounded notification list).

    Modelling choices.
    - JavaScript numbers are IEEE 754 binary64 values; they are modelled
      by Rocq's primitive floats, whose operations are the same correctly
      rounded binary64 operations, so that a concrete score or mean is
      the very number the program computes.  Array lengths and
      millisecond time values are integers (exact in binary64 far beyond
      any realistic size) and are kept as [nat] and [Z].
    - Strings are byte strings; [toLowerCase] folds the ASCII letters.
    - The date library, the rendering of numbers, the random source and
      the clock are taken from an environment [Env]; no property below
      depends on what they return, unless it says so.  One analysis pass
      reads one instant from the clock.
    - Arrays are lists; objects mutated through a reference found in an
      array are updated at their position in the list. *)

From Stdlib Require Import ZArith List String Ascii Bool Lia.
From Stdlib Require Import Floats Sorted Permutation.
From stdpp Require Import gmap strings.

Import ListNotations.
Local Open Scope Z_scope.
Set Warnings "-inexact-float".

(* ===================================================================== *)
(** * The JavaScript primitives the services rely on *)
(* ===================================================================== *)

Module Js.

(** A JavaScript [number]. *)
Definition number : Type := float.

(** The number denoted by an integer literal or an array length.  The
    conversion is exact for magnitudes below 2^53. *)
Definition of_Z (z : Z) : number :=
  match z with
  | Z0 => PrimFloat.zero
  | Zpos p => PrimFloat.of_uint63 (Uint63.of_Z (Zpos p))
  | Zneg p => PrimFloat.opp (PrimFloat.of_uint63 (Uint63.of_Z (Zpos p)))
  end.

Definition of_nat (n : nat) : number := of_Z (Z.of_nat n).

(** Truthiness of a number: [0], [-0] and [NaN] are falsy. *)
Definition truthy (x : number) : bool :=
  negb (PrimFloat.is_zero x || PrimFloat.is_nan x).

(** Truthiness of an optional number: [undefined] is falsy. *)
Definition truthy_opt (x : option number) : bool :=
  match x with
  | Some v => truthy v
  | None => false
  end.

(** [x!] on an optional number; [undefined] acts as NaN in arithmetic. *)
Definition non_null (x : option number) : number :=
  match x with
  | Some v => v
  | None => PrimFloat.nan
  end.

(** [Math.min(a, b)] and [Math.max(a, b)]: NaN is contagious and
    [-0] is smaller than [+0]. *)
Definition Math_min (a b : number) : number :=
  if PrimFloat.is_nan a || PrimFloat.is_nan b then PrimFloat.nan
  else if PrimFloat.ltb a b then a
  else if PrimFloat.ltb b a then b
  else if PrimFloat.get_sign a then a else b.

Definition Math_max (a b : number) : number :=
  if PrimFloat.is_nan a || PrimFloat.is_nan b then PrimFloat.nan
  else if PrimFloat.ltb a b then b
  else if PrimFloat.ltb b a then a
  else if PrimFloat.get_sign a then b else a.

Definition Math_abs (a : number) : number := PrimFloat.abs a.

(** [Math.round(x)]: the integer nearest to [x], ties towards +infinity.
    NaN, the infinities and numbers that are already integers are
    returned unchanged; a result of zero keeps the sign of [x].  The
    value [floor (x + 1/2)] is computed exactly from the binary
    expansion [m * 2^e] of [x]. *)
Definition Math_round (x : number) : number :=
  match Prim2SF x with
  | S754_finite s m e =>
      if (0 <=? e)%Z then x
      else
        let sm := if s then Z.neg m else Z.pos m in
        let n := (2 * sm + 2 ^ (- e)) / 2 ^ (1 - e) in
        if (n =? 0)%Z
        then (if s then PrimFloat.neg_zero else PrimFloat.zero)
        else of_Z n
  | _ => x
  end.

(** [arr.reduce((a, b) => a + b, 0)]. *)
Definition sum (l : list number) : number :=
  fold_left PrimFloat.add l PrimFloat.zero.

(** [arr.slice(-n)]: the last [n] elements. *)
Definition slice_last {A : Type} (n : nat) (l : list A) : list A :=
  skipn (length l - n) l.

(** [arr.slice(0, n)]: the first [n] elements. *)
Definition slice_first {A : Type} (n : nat) (l : list A) : list A :=
  firstn n l.

(** [String.prototype.toLowerCase], on the ASCII letters. *)
Definition lower_ascii (c : ascii) : ascii :=
  let n := nat_of_ascii c in
  if ((65 <=? n) && (n <=? 90))%nat then ascii_of_nat (n + 32) else c.

Fixpoint toLowerCase (s : string) : string :=
  match s with
  | EmptyString => EmptyString
  | String c r => String (lower_ascii c) (toLowerCase r)
  end.

(** [s.includes(pat)]: [pat] occurs in [s] as a contiguous substring. *)
Fixpoint includes (s pat : string) : bool :=
  String.prefix pat s ||
  match s with
  | EmptyString => false
  | String _ r => includes r pat
  end.

(** [arr.sort(cmp)]: a stable sort.  [cmp x y] is the number the
    comparator returns ([None] for NaN, which counts as zero); [x] is put
    before [y] exactly when it is negative. *)
Fixpoint sort_insert {A : Type} (cmp : A -> A -> option Z) (x : A)
    (l : list A) : list A :=
  match l with
  | [] => [x]
  | y :: r =>
      match cmp x y with
      | Some c => if (c <? 0)%Z then x :: y :: r else y :: sort_insert cmp x r
      | None => y :: sort_insert cmp x r
      end
  end.

Definition sort {A : Type} (cmp : A -> A -> option Z) (l : list A) : list A :=
  fold_left (fun acc x => sort_insert cmp x acc) l [].

(** [arr.reduce((acc, x, i) => f(acc, x, i), init)], the callback
    receiving the index. *)
Fixpoint reduce_from {A : Type} (f : number -> A -> nat -> number)
    (i : nat) (acc : number) (l : list A) : number :=
  match l with
  | [] => acc
  | x :: r => reduce_from f (S i) (f acc x i) r
  end.

Definition reduce_indexed {A : Type} (f : number -> A -> nat -> number)
    (l : list A) (init : number) : number :=
  reduce_from f 0%nat init l.

(** [text || fallback] on an optional string: [undefined] and the empty
    string are falsy. *)
Definition string_or (text : option string) (fallback : string) : string :=
  match text with
  | Some t => if String.eqb t "" then fallback else t
  | None => fallback
  end.

(** [arr.includes(x)] on an array of strings. *)
Definition array_includes (l : list string) (x : string) : bool :=
  existsb (String.eqb x) l.

(** [arr.find(p)], as the position of the object found: the caller
    mutates the object in place, through that position in the array. *)
Fixpoint find_index {A : Type} (p : A -> bool) (l : list A) : option nat :=
  match l with
  | [] => None
  | x :: r => if p x then Some 0%nat else option_map S (find_index p r)
  end.

(** [new Set(arr).size]: the number of distinct strings. *)
Definition distinct_count (l : list string) : nat :=
  size (list_to_set l : gset string).

End Js.

(* ===================================================================== *)
(** * The host environment *)
(* ===================================================================== *)

(** A [Date] object holds a time value in milliseconds since the epoch;
    [None] is the time value NaN of an Invalid Date. *)
Definition Date : Type := option Z.

(** A call into a library either returns or throws. *)
Inductive Completion (A : Type) : Type :=
  | Normal (a : A)
  | Throw.
Arguments Normal {A} a.
Arguments Throw {A}.

(** What the services take from their surroundings: the date-fns parsers
    and formatter, the native [Date] string constructor, the rendering of
    numbers into text, and the wall clock.  [now] is the time value read
    by [new Date()] and [Date.now()] during one analysis pass. *)
Record Env : Type := mkEnv {
  parseISO    : string -> Completion Date;
  parse       : string -> string -> Date -> Completion Date;
  Date_string : string -> Date;
  format      : Date -> string -> string;
  toFixed     : Js.number -> nat -> string;
  toString    : Js.number -> string;
  random_id   : nat -> string;
  now         : Z
}.

Module DateFns.

(** [isValid(date)]: the time value is not NaN. *)
Definition isValid (d : Date) : bool :=
  match d with Some _ => true | None => false end.

(** [subHours(date, n)]: [n] times 3 600 000 ms earlier. *)
Definition subHours (d : Date) (n : Z) : Date :=
  match d with Some t => Some (t - n * 3600000) | None => None end.

(** [subDays(date, n)]: the same wall-clock time [n] calendar days
    earlier, which is [n] times 86 400 000 ms earlier in a time zone
    with a fixed offset. *)
Definition subDays (d : Date) (n : Z) : Date :=
  match d with Some t => Some (t - n * 86400000) | None => None end.

(** [a > b] on dates: the comparison of the time values; any comparison
    with NaN is false. *)
Definition gt (a b : Date) : bool :=
  match a, b with
  | Some x, Some y => (y <? x)%Z
  | _, _ => false
  end.

(** [a.getTime() - b.getTime()], [None] being NaN. *)
Definition diff (a b : Date) : option Z :=
  match a, b with
  | Some x, Some y => Some (x - y)
  | _, _ => None
  end.



Definition lt (a b : Date) : bool :=
  match a, b with
  | Some x, Some y => (x <? y)%Z
  | _, _ => false
  end.

End DateFns.

(* ===================================================================== *)
(** * dateUtils *)
(* ===================================================================== *)

(** The values [parseTimestamp] accepts:
    [string | Date | undefined | null]. *)
Inductive Timestamp : Type :=
  | TsUndefined
  | TsNull
  | TsString (s : string)
  | TsDate (d : Date).

(** A warning written to the console. *)
Inductive Diagnostic : Type :=
  | FailedToParse (ts : Timestamp).

(** What a call of [parseTimestamp] produces: the date returned and the
    warnings written. *)
Definition Outcome : Type := (Date * list Diagnostic)%type.

Module DateUtils.
Import DateFns.

Section WithEnv.
Variable env : Env.

(** [new Date()]. *)
Definition new_Date : Date := Some (now env).

(** One parsing strategy:
    [try { const d = attempt; if (isValid(d)) return d } catch (error) {}]
    followed by the rest of the function. *)
Definition strategy (attempt : Completion Date) (rest : Outcome) : Outcome :=
  match attempt with
  | Normal d => if isValid d then (d, []) else rest
  | Throw => rest
  end.

(** [!timestamp]: [undefined], [null] and the empty string are falsy;
    every object, a [Date] included, is truthy. *)
Definition missing (ts : Timestamp) : bool :=
  match ts with
  | TsUndefined | TsNull => true
  | TsString s => if String.eqb s "" then true else false
  | TsDate _ => false
  end.

(** The fall-back at the end of the function:
    [console.warn(...); return new Date()]. *)
Definition fallback (ts : Timestamp) : Outcome :=
  (new_Date, [FailedToParse ts]).

(** [parseTimestamp], with what it writes to the console. *)
Definition parseTimestamp_console (ts : Timestamp) : Outcome :=
  if missing ts then (new_Date, [])
  else
    match ts with
    | TsDate d => (if isValid d then d else new_Date, [])
    | TsString s =>
        strategy (parseISO env s)
          (strategy (parse env s "dd/MM/yyyy HH:mm:ss.SSS" new_Date)
             (strategy (parse env s "dd/MM/yyyy HH:mm:ss" new_Date)
                (strategy (Normal (Date_string env s))
                   (fallback ts))))
    | _ => fallback ts
    end.

(** The date [parseTimestamp] returns. *)
Definition parseTimestamp (ts : Timestamp) : Date :=
  fst (parseTimestamp_console ts).

(** [getSafeTimestamp]: the time value of the parsed date. *)
Definition getSafeTimestamp (ts : Timestamp) : option Z :=
  parseTimestamp ts.

(** [isValidTimestamp]: [false] on a missing input; otherwise the
    validity of the parsed date.  Nothing inside its [try] throws. *)
Definition isValidTimestamp (ts : Timestamp) : bool :=
  if missing ts then false else isValid (parseTimestamp ts).

End WithEnv.

(** A strategy failed: the call threw, or returned an Invalid Date. *)
Definition failed (attempt : Completion Date) : Prop :=
  match attempt with
  | Normal d => isValid d = false
  | Throw => True
  end.

End DateUtils.


(* ===================================================================== *)
(** * Log records *)
(* ===================================================================== *)

(** The fields of an ignition log that the services read. *)
Module IgnitionLog.
Record t : Type := mk {
  id         : string;
  deviceImei : string;
  timestamp  : Timestamp;
  voltage    : option Js.number   (* [voltage?: number] *)
}.
End IgnitionLog.

(** The fields of an exception log that the services read; [main] is the
    free-text category. *)
Module ExceptionLog.
Record t : Type := mk {
  id         : string;
  deviceImei : string;
  timestamp  : Timestamp;
  main       : option string;
  details    : option string
}.
End ExceptionLog.

(** An element of a mixed array [[...ignitions, ...exceptions]]. *)
Definition AnyLog : Type := (IgnitionLog.t + ExceptionLog.t)%type.

Definition log_timestamp (log : AnyLog) : Timestamp :=
  match log with
  | inl i => IgnitionLog.timestamp i
  | inr e => ExceptionLog.timestamp e
  end.

(** [log.voltage] used as a condition. *)
Definition has_voltage (log : IgnitionLog.t) : bool :=
  Js.truthy_opt (IgnitionLog.voltage log).

(** [log.voltage!]. *)
Definition voltage_of (log : IgnitionLog.t) : Js.number :=
  Js.non_null (IgnitionLog.voltage log).

(** [log.main?.toLowerCase().includes(word)]; [undefined] is falsy. *)
Definition main_includes (log : ExceptionLog.t) (word : string) : bool :=
  match ExceptionLog.main log with
  | Some m => Js.includes (Js.toLowerCase m) word
  | None => false
  end.

(* ===================================================================== *)
(** * Insertion-ordered maps ([Map] iterated with [forEach]) *)
(* ===================================================================== *)

Module OrderedMap.
Section Ops.
Context {V : Type}.

Definition t : Type := list (string * V).

Fixpoint has (k : string) (m : t) : bool :=
  match m with
  | [] => false
  | (k', _) :: r => if String.eqb k' k then true else has k r
  end.

Fixpoint get (k : string) (m : t) : option V :=
  match m with
  | [] => None
  | (k', v) :: r => if String.eqb k' k then Some v else get k r
  end.

(** [m.set(k, v)]: a new key goes last, an old key keeps its place. *)
Fixpoint set (k : string) (v : V) (m : t) : t :=
  match m with
  | [] => [(k, v)]
  | (k', v') :: r =>
      if String.eqb k' k then (k', v) :: r else (k', v') :: set k v r
  end.

(** A mutation [f] of the object stored under [k], through the reference
    that [m.get(k)!] returns. *)
Fixpoint update (k : string) (f : V -> V) (m : t) : t :=
  match m with
  | [] => []
  | (k', v) :: r =>
      if String.eqb k' k then (k', f v) :: r else (k', v) :: update k f r
  end.

(** The same keys in the same order, each value seen through [h]. *)
Definition map_values (h : V -> V) (m : t) : t :=
  List.map (fun entry => (fst entry, h (snd entry))) m.

End Ops.
Arguments t V : clear implicits.
End OrderedMap.


(* ===================================================================== *)
(** * AnalyticsService *)
(* ===================================================================== *)

Module DeviceHealthScore.
Record Factors : Type := mkFactors {
  connectivity  : Js.number;
  batteryHealth : Js.number;
  errorRate     : Js.number;
  uptime        : Js.number
}.
Record t : Type := mk {
  imei           : string;
  score          : Js.number;
  factors        : Factors;
  lastCalculated : Date
}.
End DeviceHealthScore.

Module DevicePerformanceMetrics.
Record t : Type := mk {
  imei               : string;
  uptime             : Js.number;
  mtbf               : Js.number;
  totalExceptions    : nat;
  criticalExceptions : nat;
  lastSeen           : Date;
  averageVoltage     : Js.number;
  locationAccuracy   : Js.number
}.
End DevicePerformanceMetrics.

Inductive AnomalyType : Type :=
  | voltage_drop | frequent_restarts | connection_loss | battery_degradation.

Inductive Severity : Type :=
  | low | medium | high | critical.

Module Anomaly.
Record t : Type := mk {
  id             : string;
  imei           : string;
  type           : AnomalyType;
  severity       : Severity;
  description    : string;
  detectedAt     : Date;
  value          : Js.number;
  threshold      : Js.number;
  recommendation : string
}.
End Anomaly.

Inductive AlertType : Type :=
  | battery_failure | device_failure | connection_degradation.

Module PredictiveAlert.
Record t : Type := mk {
  id                     : string;
  imei                   : string;
  type                   : AlertType;
  probability            : Js.number;
  estimatedTimeToFailure : Js.number;
  description            : string;
  recommendation         : string;
  createdAt              : Date
}.
End PredictiveAlert.

(** The value stored per device by [detectAnomalies] and
    [generatePredictiveAlerts]. *)
Record DeviceGroup : Type := mkGroup {
  ignitions  : list IgnitionLog.t;
  exceptions : list ExceptionLog.t
}.

(** A voltage reading paired with its parsed time. *)
Record Reading : Type := mkReading {
  reading_voltage   : Js.number;
  reading_timestamp : Date
}.

Module ServerHealth.
Inductive Status : Type := online | degraded | offline.
Record t : Type := mk {
  status           : Status;
  uptime           : Js.number;
  responseTime     : Z;
  connectedDevices : Z;
  totalDevices     : nat;
  lastDowntime     : option Date;   (* [Date | null] *)
  downtimeToday    : nat
}.
End ServerHealth.

Module TrendData.
Record t : Type := mk {
  date           : string;
  exceptions     : nat;
  ignitions      : nat;
  criticalIssues : nat;
  serverDowntime : nat
}.
End TrendData.

(** An ignition log together with its fields [location] and [address],
    which only [generateGeographicData] reads. *)
Module LocatedLog.
Record t : Type := mk {
  log      : IgnitionLog.t;
  location : option (Js.number * Js.number);   (* latitude, longitude *)
  address  : option string
}.
End LocatedLog.

Module GeographicData.
Inductive Status : Type := online | warning | critical | offline.
Record t : Type := mk {
  imei        : string;
  latitude    : Js.number;
  longitude   : Js.number;
  location    : string;
  status      : Status;
  lastSeen    : Date;
  healthScore : Js.number
}.
End GeographicData.

Module AnalyticsService.
Import DateFns DateUtils.
Local Open Scope float_scope.

Section WithEnv.
Variable env : Env.

(** [logDate > subHours(new Date(), n)] for the parsed date of a log. *)
Definition within_hours (n : Z) (ts : Timestamp) : bool :=
  gt (parseTimestamp env ts) (subHours (new_Date env) n).

(** [logDate > subDays(new Date(), n)]. *)
Definition within_days (n : Z) (ts : Timestamp) : bool :=
  gt (parseTimestamp env ts) (subDays (new_Date env) n).

Definition ignitions_of (imei : string) (logs : list IgnitionLog.t)
    : list IgnitionLog.t :=
  List.filter (fun log => String.eqb (IgnitionLog.deviceImei log) imei) logs.

Definition exceptions_of (imei : string) (logs : list ExceptionLog.t)
    : list ExceptionLog.t :=
  List.filter (fun log => String.eqb (ExceptionLog.deviceImei log) imei) logs.

(** [[...deviceIgnitions, ...deviceExceptions]]. *)
Definition spread (igs : list IgnitionLog.t) (excs : list ExceptionLog.t)
    : list AnyLog :=
  List.map inl igs ++ List.map inr excs.

Definition calculateDeviceHealthScore (imei : string)
    (ignitionLogs : list IgnitionLog.t) (exceptionLogs : list ExceptionLog.t)
    : DeviceHealthScore.t :=
  let deviceIgnitions := ignitions_of imei ignitionLogs in
  let deviceExceptions := exceptions_of imei exceptionLogs in
  (* connectivity score (based on recent activity) *)
  let recentLogs :=
    List.filter (fun log => within_hours 1%Z (log_timestamp log))
      (spread deviceIgnitions deviceExceptions) in
  let connectivity :=
    Js.Math_min 100 (Js.of_nat (length recentLogs) * 10)%float in
  (* battery health (based on voltage trends) *)
  let voltageReadings :=
    Js.slice_last 10
      (List.map voltage_of (List.filter has_voltage deviceIgnitions)) in
  let avgVoltage :=
    if (0 <? length voltageReadings)%nat
    then (Js.sum voltageReadings / Js.of_nat (length voltageReadings))%float
    else 12.0%float in
  let batteryHealth :=
    Js.Math_max 0 (Js.Math_min 100 ((avgVoltage / 12.6) * 100)%float) in
  (* error rate (lower is better) *)
  let totalLogs := (length deviceIgnitions + length deviceExceptions)%nat in
  let errorRate :=
    if (0 <? totalLogs)%nat
    then Js.Math_max 0
           (100 - (Js.of_nat (length deviceExceptions) / Js.of_nat totalLogs)
                  * 100)%float
    else 100%float in
  (* uptime (based on recent activity) *)
  let recentActivity :=
    List.filter (fun log => within_days 1%Z (log_timestamp log)) recentLogs in
  let uptime :=
    Js.Math_min 100 (Js.of_nat (length recentActivity) * 5)%float in
  (* overall score (weighted average) *)
  let score :=
    Js.Math_round
      ((connectivity * 0.3) + (batteryHealth * 0.25)
       + (errorRate * 0.25) + (uptime * 0.2))%float in
  {| DeviceHealthScore.imei := imei;
     DeviceHealthScore.score := score;
     DeviceHealthScore.factors :=
       {| DeviceHealthScore.connectivity := Js.Math_round connectivity;
          DeviceHealthScore.batteryHealth := Js.Math_round batteryHealth;
          DeviceHealthScore.errorRate := Js.Math_round errorRate;
          DeviceHealthScore.uptime := Js.Math_round uptime |};
     DeviceHealthScore.lastCalculated := new_Date env |}.

(** The failure test of the MTBF computation. *)
Definition is_failure (log : ExceptionLog.t) : bool :=
  main_includes log "server down"
  || main_includes log "connection timeout"
  || main_includes log "error".

(** [Math.round(x * 100) / 100]. *)
Definition round2 (x : Js.number) : Js.number :=
  (Js.Math_round (x * 100) / 100)%float.

Definition calculateDevicePerformanceMetrics (imei : string)
    (ignitionLogs : list IgnitionLog.t) (exceptionLogs : list ExceptionLog.t)
    : DevicePerformanceMetrics.t :=
  let deviceIgnitions := ignitions_of imei ignitionLogs in
  let deviceExceptions := exceptions_of imei exceptionLogs in
  (* uptime (percentage of time device was responsive) *)
  let totalHours := (24 * 7)%float in
  let activeHours :=
    Js.distinct_count
      (List.map
         (fun log =>
            format env (parseTimestamp env (log_timestamp log))
              "yyyy-MM-dd-HH")
         (List.filter (fun log => within_days 7%Z (log_timestamp log))
            (spread deviceIgnitions deviceExceptions))) in
  let uptime := ((Js.of_nat activeHours / totalHours) * 100)%float in
  (* MTBF (mean time between failures) *)
  let failures := List.filter is_failure deviceExceptions in
  let mtbf :=
    if (1 <? length failures)%nat
    then (totalHours / Js.of_nat (length failures))%float
    else totalHours in
  (* last seen *)
  let allLogs :=
    Js.sort
      (fun a b =>
         diff (getSafeTimestamp env (log_timestamp b))
              (getSafeTimestamp env (log_timestamp a)))
      (spread deviceIgnitions deviceExceptions) in
  let lastSeen :=
    match allLogs with
    | first :: _ => parseTimestamp env (log_timestamp first)
    | [] => new_Date env
    end in
  (* average voltage *)
  let voltageReadings :=
    List.map voltage_of (List.filter has_voltage deviceIgnitions) in
  let averageVoltage :=
    if (0 <? length voltageReadings)%nat
    then (Js.sum voltageReadings / Js.of_nat (length voltageReadings))%float
    else 0%float in
  {| DevicePerformanceMetrics.imei := imei;
     DevicePerformanceMetrics.uptime := round2 uptime;
     DevicePerformanceMetrics.mtbf := round2 mtbf;
     DevicePerformanceMetrics.totalExceptions := length deviceExceptions;
     DevicePerformanceMetrics.criticalExceptions := length failures;
     DevicePerformanceMetrics.lastSeen := lastSeen;
     DevicePerformanceMetrics.averageVoltage := round2 averageVoltage;
     DevicePerformanceMetrics.locationAccuracy := 95%float |}.

(** The grouping loop shared by [detectAnomalies] and
    [generatePredictiveAlerts]:
    [if (!groups.has(imei)) groups.set(imei, { ignitions: [], exceptions: [] })]
    and then a push into the stored object. *)
Definition ensure_group (imei : string) (groups : OrderedMap.t DeviceGroup)
    : OrderedMap.t DeviceGroup :=
  if OrderedMap.has imei groups then groups
  else OrderedMap.set imei {| ignitions := []; exceptions := [] |} groups.

Definition push_ignition (groups : OrderedMap.t DeviceGroup)
    (log : IgnitionLog.t) : OrderedMap.t DeviceGroup :=
  OrderedMap.update (IgnitionLog.deviceImei log)
    (fun g => {| ignitions := ignitions g ++ [log];
                 exceptions := exceptions g |})
    (ensure_group (IgnitionLog.deviceImei log) groups).

Definition push_exception (groups : OrderedMap.t DeviceGroup)
    (log : ExceptionLog.t) : OrderedMap.t DeviceGroup :=
  OrderedMap.update (ExceptionLog.deviceImei log)
    (fun g => {| ignitions := ignitions g;
                 exceptions := exceptions g ++ [log] |})
    (ensure_group (ExceptionLog.deviceImei log) groups).

Definition group_by_device (ignitionLogs : list IgnitionLog.t)
    (exceptionLogs : list ExceptionLog.t) : OrderedMap.t DeviceGroup :=
  fold_left push_exception exceptionLogs
    (fold_left push_ignition ignitionLogs []).

(** [Date.now()] spliced into a template string. *)
Definition now_text : string := toString env (Js.of_Z (now env)).

(** The voltage-drop check on one device. *)
Definition voltage_anomaly (imei : string) (ignitions : list IgnitionLog.t)
    : list Anomaly.t :=
  let recentVoltages :=
    List.map voltage_of (Js.slice_last 5 (List.filter has_voltage ignitions)) in
  if (3 <=? length recentVoltages)%nat then
    let avgVoltage :=
      (Js.sum recentVoltages / Js.of_nat (length recentVoltages))%float in
    if (avgVoltage <? 11.5)%float then
      [ {| Anomaly.id := "voltage_" +:+ imei +:+ "_" +:+ now_text;
           Anomaly.imei := imei;
           Anomaly.type := voltage_drop;
           Anomaly.severity :=
             if (avgVoltage <? 11.0)%float then critical else high;
           Anomaly.description :=
             "Low voltage detected: " +:+ toFixed env avgVoltage 2 +:+ "V";
           Anomaly.detectedAt := new_Date env;
           Anomaly.value := avgVoltage;
           Anomaly.threshold := 11.5%float;
           Anomaly.recommendation := "Check battery and charging system" |} ]
    else []
  else [].

(** The frequent-restarts check on one device. *)
Definition restart_anomaly (imei : string) (exceptions : list ExceptionLog.t)
    : list Anomaly.t :=
  let recentExceptions :=
    List.filter (fun log => within_hours 1%Z (ExceptionLog.timestamp log))
      exceptions in
  if (5 <? length recentExceptions)%nat then
    [ {| Anomaly.id := "restarts_" +:+ imei +:+ "_" +:+ now_text;
         Anomaly.imei := imei;
         Anomaly.type := frequent_restarts;
         Anomaly.severity := high;
         Anomaly.description :=
           toString env (Js.of_nat (length recentExceptions))
           +:+ " exceptions in the last hour";
         Anomaly.detectedAt := new_Date env;
         Anomaly.value := Js.of_nat (length recentExceptions);
         Anomaly.threshold := 5%float;
         Anomaly.recommendation :=
           "Investigate device stability and network connectivity" |} ]
  else [].

Definition detectAnomalies (ignitionLogs : list IgnitionLog.t)
    (exceptionLogs : list ExceptionLog.t) : list Anomaly.t :=
  flat_map
    (fun '(imei, g) =>
       voltage_anomaly imei (ignitions g)
       ++ restart_anomaly imei (exceptions g))
    (group_by_device ignitionLogs exceptionLogs).

(** Least-squares slope of the voltage over the reading index. *)
Definition calculateVoltageTrend (readings : list Reading) : Js.number :=
  if (length readings <? 2)%nat then 0
  else
    let n := Js.of_nat (length readings) in
    let sumX :=
      Js.reduce_indexed (fun sum _ i => sum + Js.of_nat i) readings 0 in
    let sumY :=
      Js.reduce_indexed (fun sum r _ => sum + reading_voltage r) readings 0 in
    let sumXY :=
      Js.reduce_indexed
        (fun sum r i => sum + (Js.of_nat i * reading_voltage r)) readings 0 in
    let sumXX :=
      Js.reduce_indexed
        (fun sum _ i => sum + (Js.of_nat i * Js.of_nat i)) readings 0 in
    let slope := (n * sumXY - sumX * sumY) / (n * sumXX - sumX * sumX) in
    slope.

(** The battery-failure prediction on one device. *)
Definition battery_alert (imei : string) (ignitions : list IgnitionLog.t)
    : list PredictiveAlert.t :=
  let voltageReadings :=
    Js.sort
      (fun a b => diff (reading_timestamp a) (reading_timestamp b))
      (List.map
         (fun log =>
            {| reading_voltage := voltage_of log;
               reading_timestamp :=
                 parseTimestamp env (IgnitionLog.timestamp log) |})
         (Js.slice_last 10 (List.filter has_voltage ignitions))) in
  if (5 <=? length voltageReadings)%nat then
    let trend := calculateVoltageTrend voltageReadings in
    if trend <? -0.1 then   (* declining voltage *)
      let currentVoltage :=
        List.last (List.map reading_voltage voltageReadings) PrimFloat.nan in
      (* hours until 10.5V *)
      let estimatedFailureTime :=
        (currentVoltage - 10.5) / Js.Math_abs trend in
      if estimatedFailureTime <? 72 then   (* less than 3 days *)
        [ {| PredictiveAlert.id := "battery_" +:+ imei +:+ "_" +:+ now_text;
             PredictiveAlert.imei := imei;
             PredictiveAlert.type := battery_failure;
             PredictiveAlert.probability :=
               Js.Math_min 95
                 (Js.Math_max 20 (100 - (estimatedFailureTime / 72) * 100));
             PredictiveAlert.estimatedTimeToFailure :=
               Js.Math_max 1 estimatedFailureTime;
             PredictiveAlert.description :=
               "Battery voltage declining at "
               +:+ toFixed env (Js.Math_abs trend) 3 +:+ "V/hour";
             PredictiveAlert.recommendation :=
               "Schedule battery replacement within 48 hours";
             PredictiveAlert.createdAt := new_Date env |} ]
      else []
    else []
  else [].

(** The connection-degradation prediction on one device. *)
Definition connection_alert (imei : string)
    (exceptions : list ExceptionLog.t) : list PredictiveAlert.t :=
  let recentExceptions :=
    List.filter
      (fun log =>
         main_includes log "connection"
         || main_includes log "timeout"
         || main_includes log "server")
      (List.filter (fun log => within_days 3%Z (ExceptionLog.timestamp log))
         exceptions) in
  if (10 <? length recentExceptions)%nat then
    let probability :=
      Js.Math_min 90 ((Js.of_nat (length recentExceptions) / 20) * 100) in
    [ {| PredictiveAlert.id := "connection_" +:+ imei +:+ "_" +:+ now_text;
         PredictiveAlert.imei := imei;
         PredictiveAlert.type := connection_degradation;
         PredictiveAlert.probability := probability;
         PredictiveAlert.estimatedTimeToFailure := 24;
         PredictiveAlert.description :=
           toString env (Js.of_nat (length recentExceptions))
           +:+ " connection issues in last 3 days";
         PredictiveAlert.recommendation :=
           "Check network connectivity and signal strength";
         PredictiveAlert.createdAt := new_Date env |} ]
  else [].

Definition generatePredictiveAlerts (ignitionLogs : list IgnitionLog.t)
    (exceptionLogs : list ExceptionLog.t) : list PredictiveAlert.t :=
  flat_map
    (fun '(imei, g) =>
       battery_alert imei (ignitions g)
       ++ connection_alert imei (exceptions g))
    (group_by_device ignitionLogs exceptionLogs).

(** The exceptions that [calculateServerHealth] attributes to the
    server. *)
Definition is_server_issue (log : ExceptionLog.t) : bool :=
  main_includes log "server down"
  || main_includes log "server unavailable"
  || main_includes log "connection timeout".

Definition calculateServerHealth (exceptionLogs : list ExceptionLog.t)
    : ServerHealth.t :=
  (* server-related exceptions from the last 24 hours *)
  let serverExceptions :=
    List.filter
      (fun log =>
         within_days 1%Z (ExceptionLog.timestamp log) && is_server_issue log)
      exceptionLogs in
  (* server status *)
  let recentServerDown :=
    List.filter
      (fun log =>
         within_hours 1%Z (ExceptionLog.timestamp log)
         && main_includes log "server down")
      serverExceptions in
  let status :=
    if (0 <? length recentServerDown)%nat then ServerHealth.offline
    else if (5 <? length serverExceptions)%nat then ServerHealth.degraded
    else ServerHealth.online in
  (* uptime percentage *)
  let totalMinutes := (24 * 60)%float in
  let downtimeMinutes := (length serverExceptions * 2)%nat in
  let uptime :=
    Js.Math_max 0
      (((totalMinutes - Js.of_nat downtimeMinutes) / totalMinutes) * 100) in
  (* unique devices that reported issues *)
  let affectedDevices :=
    Js.distinct_count (List.map ExceptionLog.deviceImei serverExceptions) in
  let totalDevices :=
    Js.distinct_count (List.map ExceptionLog.deviceImei exceptionLogs) in
  (* last downtime *)
  let lastDowntime :=
    match serverExceptions with
    | first :: _ => Some (parseTimestamp env (ExceptionLog.timestamp first))
    | [] => None
    end in
  {| ServerHealth.status := status;
     ServerHealth.uptime := round2 uptime;
     ServerHealth.responseTime :=
       match status with
       | ServerHealth.online => 150%Z
       | ServerHealth.degraded => 500%Z
       | ServerHealth.offline => 0%Z
       end;
     ServerHealth.connectedDevices :=
       (Z.of_nat totalDevices - Z.of_nat affectedDevices)%Z;
     ServerHealth.totalDevices := totalDevices;
     ServerHealth.lastDowntime := lastDowntime;
     ServerHealth.downtimeToday := downtimeMinutes |}.

(** [log.location?.latitude && log.location?.longitude]. *)
Definition located (l : LocatedLog.t) : bool :=
  match LocatedLog.location l with
  | Some (latitude, longitude) => Js.truthy latitude && Js.truthy longitude
  | None => false
  end.

(** The entry that [generateGeographicData] stores for the device of a
    log with the coordinates [latitude] and [longitude]. *)
Definition geographic_entry (ignitionLogs : list LocatedLog.t)
    (exceptionLogs : list ExceptionLog.t) (l : LocatedLog.t)
    (latitude longitude : Js.number) : GeographicData.t :=
  let imei := IgnitionLog.deviceImei (LocatedLog.log l) in
  let logDate := parseTimestamp env (IgnitionLog.timestamp (LocatedLog.log l)) in
  let deviceExceptions := exceptions_of imei exceptionLogs in
  let recentExceptions :=
    List.filter (fun e => within_hours 1%Z (ExceptionLog.timestamp e))
      deviceExceptions in
  let criticalExceptions :=
    List.filter
      (fun e => main_includes e "server down" || main_includes e "critical")
      recentExceptions in
  let status :=
    if (0 <? length criticalExceptions)%nat then GeographicData.critical
    else if (2 <? length recentExceptions)%nat then GeographicData.warning
    else if lt logDate (subHours (new_Date env) 2) then GeographicData.offline
    else GeographicData.online in
  (* health score *)
  let healthScore :=
    DeviceHealthScore.score
      (calculateDeviceHealthScore imei
         (List.map LocatedLog.log
            (List.filter
               (fun l' =>
                  String.eqb (IgnitionLog.deviceImei (LocatedLog.log l')) imei)
               ignitionLogs))
         deviceExceptions) in
  {| GeographicData.imei := imei;
     GeographicData.latitude := latitude;
     GeographicData.longitude := longitude;
     GeographicData.location :=
       Js.string_or (LocatedLog.address l) "Unknown Location";
     GeographicData.status := status;
     GeographicData.lastSeen := logDate;
     GeographicData.healthScore := healthScore |}.

(** The body of the loop over the ignition logs. *)
Definition geographic_step (ignitionLogs : list LocatedLog.t)
    (exceptionLogs : list ExceptionLog.t)
    (deviceMap : OrderedMap.t GeographicData.t) (l : LocatedLog.t)
    : OrderedMap.t GeographicData.t :=
  match LocatedLog.location l with
  | Some (latitude, longitude) =>
      if Js.truthy latitude && Js.truthy longitude then
        let imei := IgnitionLog.deviceImei (LocatedLog.log l) in
        let existing := OrderedMap.get imei deviceMap in
        let logDate :=
          parseTimestamp env (IgnitionLog.timestamp (LocatedLog.log l)) in
        if match existing with
           | None => true
           | Some e => gt logDate (GeographicData.lastSeen e)
           end
        then
          OrderedMap.set imei
            (geographic_entry ignitionLogs exceptionLogs l latitude longitude)
            deviceMap
        else deviceMap
      else deviceMap
  | None => deviceMap
  end.

(** [generateGeographicData]; the result is
    [Array.from(deviceMap.values())]. *)
Definition generateGeographicData (ignitionLogs : list LocatedLog.t)
    (exceptionLogs : list ExceptionLog.t) : list GeographicData.t :=
  List.map snd
    (fold_left (geographic_step ignitionLogs exceptionLogs) ignitionLogs []).

End WithEnv.

Section Calendar.
Variable env : Env.

(** [startOfDay] and [endOfDay] of date-fns: the first and the last
    millisecond of the calendar day of a date, in the time zone of the
    browser. *)
Variables startOfDay endOfDay : Date -> Date.




End Calendar.
End AnalyticsService.

(** An environment for evaluating the services on concrete logs: its
    parsers reject every string, so that only [Date] values and the
    fall-back to the current time yield instants; the clock reads
    2025-07-23T20:00:00Z. *)
Definition quiet_env : Env :=
  {| parseISO := fun _ => Normal None;
     parse := fun _ _ _ => Throw;
     Date_string := fun _ => None;
     format := fun _ _ => "";
     toFixed := fun _ _ => "";
     toString := fun _ => "";
     random_id := fun _ => "";
     now := 1753300800000 |}.

(* ===================================================================== *)
(** * NetworkIncidentService *)
(* ===================================================================== *)

Inductive EventType : Type := outage | recovery | timeout.

Inductive IncidentStatus : Type := ongoing | resolved.

Inductive RecoveryPattern : Type := simultaneous | gradual | partial.

Module NetworkEvent.
Record t : Type := mk {
  id         : string;
  deviceImei : string;
  timestamp  : Date;
  eventType  : EventType;
  details    : string;
  incidentId : option string
}.
End NetworkEvent.

Module NetworkIncident.
Record t : Type := mk {
  id               : string;
  startTime        : Date;
  endTime          : option Date;
  duration         : option Js.number;   (* in minutes *)
  status           : IncidentStatus;
  affectedDevices  : list string;
  recoveredDevices : list string;
  severity         : Severity;
  impactLevel      : Js.number;          (* percentage of devices affected *)
  recoveryPattern  : RecoveryPattern
}.
End NetworkIncident.

Module RecoveryMetrics.
Record Patterns : Type := mkPatterns {
  n_simultaneous : nat;
  n_gradual      : nat;
  n_partial      : nat
}.
Record t : Type := mk {
  totalOutages              : nat;
  averageOutageDuration     : Js.number;
  longestOutage             : Js.number;
  shortestOutage            : Js.number;
  recoveryRate              : Js.number;
  frequentlyAffectedDevices : list string;
  recoveryPatterns          : Patterns
}.
End RecoveryMetrics.

(** The value [getCurrentNetworkStatus] returns. *)
Module NetworkStatus.
Inductive Level : Type := healthy | degraded | outage.
Record t : Type := mk {
  status          : Level;
  affectedDevices : list string;
  lastIncident    : option NetworkIncident.t   (* [lastIncident?] *)
}.
End NetworkStatus.

(** The value [getDeviceRecoveryStatus] returns. *)
Module DeviceRecoveryStatus.
Inductive Status : Type := online | offline | recovering.
Record t : Type := mk {
  deviceImei          : string;
  lastSeen            : Date;
  status              : Status;
  lastOutage          : option Date;
  outageCount         : nat;
  averageRecoveryTime : Js.number;
  reliability         : Js.number
}.
End DeviceRecoveryStatus.

Module NetworkIncidentService.
Import DateFns DateUtils.

(** [text || fallback] on strings: the empty string and [undefined] are
    falsy. *)
Definition or_else (text : option string) (fallback : string) : string :=
  match text with
  | Some t => if String.eqb t "" then fallback else t
  | None => fallback
  end.

(** The keyword classification of one exception log. *)
Definition classify (log : ExceptionLog.t) : option EventType :=
  let details :=
    or_else (option_map Js.toLowerCase (ExceptionLog.details log)) "" in
  let main :=
    or_else (option_map Js.toLowerCase (ExceptionLog.main log)) "" in
  if Js.includes main "server down"
     || Js.includes details "server unavailable"
     || Js.includes details "connection failed"
     || Js.includes details "network error"
  then Some outage
  else if Js.includes main "server up"
     || Js.includes main "connection restored"
     || Js.includes main "network restored"
     || Js.includes details "server available"
     || Js.includes details "connection established"
     || Js.includes details "back online"
     || Js.includes details "connectivity restored"
  then Some recovery
  else if Js.includes main "timeout"
     || Js.includes details "timeout"
     || Js.includes main "retry"
     || Js.includes details "attempting reconnection"
  then Some timeout
  else None.

(** [getTotalDeviceCount()]: the configured estimate. *)
Definition getTotalDeviceCount : Js.number := 10%float.

(** Incidents within 5 minutes are considered related. *)
Definition INCIDENT_WINDOW : Z := 5 * 60 * 1000.

Definition determineRecoveryPattern (incident : NetworkIncident.t)
    : RecoveryPattern :=
  if (length (NetworkIncident.recoveredDevices incident) =? 0)%nat
  then simultaneous
  else
    let recoveryRate :=
      (Js.of_nat (length (NetworkIncident.recoveredDevices incident))
       / Js.of_nat (length (NetworkIncident.affectedDevices incident)))%float
    in
    if (recoveryRate =? 1)%float then simultaneous
    else if (0.8 <? recoveryRate)%float then gradual
    else partial.

(** The working state of the grouping pass.  [incidents] is the array of
    incident objects; [currentIncident] refers to one of them by its
    position, so that a mutation through either name is one mutation. *)
Record GroupState : Type := mkState {
  incidents       : list NetworkIncident.t;
  deviceOutages   : gmap string Date;   (* when each device went down *)
  currentIncident : option nat
}.

Definition init_state : GroupState :=
  {| incidents := []; deviceOutages := ∅; currentIncident := None |}.

(** [number] of a time difference; NaN when a date is invalid. *)
Definition number_of_diff (d : option Z) : Js.number :=
  match d with
  | Some z => Js.of_Z z
  | None => PrimFloat.nan
  end.

Section WithEnv.
Variable env : Env.

Definition extractNetworkEvents (exceptionLogs : list ExceptionLog.t)
    : list NetworkEvent.t :=
  let events :=
    flat_map
      (fun log =>
         let timestamp := parseTimestamp env (ExceptionLog.timestamp log) in
         match classify log with
         | Some eventType =>
             [ {| NetworkEvent.id := ExceptionLog.id log;
                  NetworkEvent.deviceImei := ExceptionLog.deviceImei log;
                  NetworkEvent.timestamp := timestamp;
                  NetworkEvent.eventType := eventType;
                  NetworkEvent.details :=
                    or_else (ExceptionLog.details log)
                      (or_else (ExceptionLog.main log)
                         "Network event detected");
                  NetworkEvent.incidentId := None |} ]
         | None => []
         end)
      exceptionLogs in
  Js.sort
    (fun a b => diff (NetworkEvent.timestamp a) (NetworkEvent.timestamp b))
    events.

(** The identifier given to the [k]-th incident opened in a pass. *)
Definition fresh_incident_id (k : nat) : string :=
  "incident_" +:+ toString env (Js.of_Z (now env)) +:+ "_"
  +:+ random_id env k.

(** [event.timestamp.getTime() - current.startTime.getTime()
     > INCIDENT_WINDOW]. *)
Definition outside_window (event : NetworkEvent.t)
    (current : NetworkIncident.t) : bool :=
  match diff (NetworkEvent.timestamp event)
             (NetworkIncident.startTime current) with
  | Some d => (INCIDENT_WINDOW <? d)%Z
  | None => false
  end.

Definition set_incidentId (event : NetworkEvent.t) (id : string)
    : NetworkEvent.t :=
  {| NetworkEvent.id := NetworkEvent.id event;
     NetworkEvent.deviceImei := NetworkEvent.deviceImei event;
     NetworkEvent.timestamp := NetworkEvent.timestamp event;
     NetworkEvent.eventType := NetworkEvent.eventType event;
     NetworkEvent.details := NetworkEvent.details event;
     NetworkEvent.incidentId := Some id |}.

(** The outage branch, when the event opens a new incident. *)
Definition new_incident (k : nat) (event : NetworkEvent.t)
    : NetworkIncident.t :=
  {| NetworkIncident.id := fresh_incident_id k;
     NetworkIncident.startTime := NetworkEvent.timestamp event;
     NetworkIncident.endTime := None;
     NetworkIncident.duration := None;
     NetworkIncident.status := ongoing;
     NetworkIncident.affectedDevices := [NetworkEvent.deviceImei event];
     NetworkIncident.recoveredDevices := [];
     NetworkIncident.severity := critical;
     NetworkIncident.impactLevel := 0%float;
     NetworkIncident.recoveryPattern := simultaneous |}.

(** The outage branch, when the event joins the current incident. *)
Definition add_affected (device : string) (inc : NetworkIncident.t)
    : NetworkIncident.t :=
  if Js.array_includes (NetworkIncident.affectedDevices inc) device then inc
  else
    {| NetworkIncident.id := NetworkIncident.id inc;
       NetworkIncident.startTime := NetworkIncident.startTime inc;
       NetworkIncident.endTime := NetworkIncident.endTime inc;
       NetworkIncident.duration := NetworkIncident.duration inc;
       NetworkIncident.status := NetworkIncident.status inc;
       NetworkIncident.affectedDevices :=
         NetworkIncident.affectedDevices inc ++ [device];
       NetworkIncident.recoveredDevices :=
         NetworkIncident.recoveredDevices inc;
       NetworkIncident.severity := NetworkIncident.severity inc;
       NetworkIncident.impactLevel := NetworkIncident.impactLevel inc;
       NetworkIncident.recoveryPattern :=
         NetworkIncident.recoveryPattern inc |}.

(** The recovery branch on the incident found: mark the device as
    recovered, resolve the incident when every affected device has
    recovered, and update the recovery pattern. *)
Definition mark_recovered (event : NetworkEvent.t) (inc : NetworkIncident.t)
    : NetworkIncident.t :=
  let device := NetworkEvent.deviceImei event in
  let recovered :=
    if Js.array_includes (NetworkIncident.recoveredDevices inc) device
    then NetworkIncident.recoveredDevices inc
    else NetworkIncident.recoveredDevices inc ++ [device] in
  let all_back :=
    (length recovered =? length (NetworkIncident.affectedDevices inc))%nat in
  let inc' :=
    {| NetworkIncident.id := NetworkIncident.id inc;
       NetworkIncident.startTime := NetworkIncident.startTime inc;
       NetworkIncident.endTime :=
         if all_back then Some (NetworkEvent.timestamp event)
         else NetworkIncident.endTime inc;
       NetworkIncident.duration :=
         if all_back
         then Some (Js.Math_round
                      (number_of_diff
                         (diff (NetworkEvent.timestamp event)
                               (NetworkIncident.startTime inc))
                       / (1000 * 60))%float)
         else NetworkIncident.duration inc;
       NetworkIncident.status :=
         if all_back then resolved else NetworkIncident.status inc;
       NetworkIncident.affectedDevices := NetworkIncident.affectedDevices inc;
       NetworkIncident.recoveredDevices := recovered;
       NetworkIncident.severity := NetworkIncident.severity inc;
       NetworkIncident.impactLevel := NetworkIncident.impactLevel inc;
       NetworkIncident.recoveryPattern :=
         NetworkIncident.recoveryPattern inc |} in
  {| NetworkIncident.id := NetworkIncident.id inc';
     NetworkIncident.startTime := NetworkIncident.startTime inc';
     NetworkIncident.endTime := NetworkIncident.endTime inc';
     NetworkIncident.duration := NetworkIncident.duration inc';
     NetworkIncident.status := NetworkIncident.status inc';
     NetworkIncident.affectedDevices := NetworkIncident.affectedDevices inc';
     NetworkIncident.recoveredDevices := NetworkIncident.recoveredDevices inc';
     NetworkIncident.severity := NetworkIncident.severity inc';
     NetworkIncident.impactLevel := NetworkIncident.impactLevel inc';
     NetworkIncident.recoveryPattern := determineRecoveryPattern inc' |}.

Definition is_ongoing (inc : NetworkIncident.t) : bool :=
  match NetworkIncident.status inc with
  | ongoing => true
  | resolved => false
  end.

(** The body of [events.forEach(event => ...)]: the new working state and
    the event as the body leaves it. *)
Definition step (st : GroupState) (event : NetworkEvent.t)
    : GroupState * NetworkEvent.t :=
  let device := NetworkEvent.deviceImei event in
  match NetworkEvent.eventType event with
  | outage =>
      let outages := <[device := NetworkEvent.timestamp event]>
                       (deviceOutages st) in
      let current :=
        match currentIncident st with
        | Some i =>
            match incidents st !! i with
            | Some inc => Some (i, inc)
            | None => None
            end
        | None => None
        end in
      let joins :=
        match current with
        | Some (i, inc) =>
            if outside_window event inc then None else Some (i, inc)
        | None => None
        end in
      match joins with
      | None =>
          (* start new incident *)
          let inc := new_incident (length (incidents st)) event in
          ({| incidents := incidents st ++ [inc];
              deviceOutages := outages;
              currentIncident := Some (length (incidents st)) |},
           set_incidentId event (NetworkIncident.id inc))
      | Some (i, inc) =>
          (* add to existing incident *)
          ({| incidents := alter (add_affected device) i (incidents st);
              deviceOutages := outages;
              currentIncident := Some i |},
           set_incidentId event (NetworkIncident.id inc))
      end
  | recovery =>
      match deviceOutages st !! device with
      | Some outageTime =>
          (* find the incident this recovery belongs to *)
          match Js.find_index
                  (fun inc =>
                     Js.array_includes (NetworkIncident.affectedDevices inc)
                       device
                     && is_ongoing inc)
                  (incidents st) with
          | Some i =>
              ({| incidents := alter (mark_recovered event) i (incidents st);
                  deviceOutages := delete device (deviceOutages st);
                  currentIncident := currentIncident st |},
               match incidents st !! i with
               | Some inc => set_incidentId event (NetworkIncident.id inc)
               | None => event
               end)
          | None =>
              ({| incidents := incidents st;
                  deviceOutages := delete device (deviceOutages st);
                  currentIncident := currentIncident st |},
               event)
          end
      | None => (st, event)
      end
  | timeout => (st, event)
  end.

(** The pass over the events, from a given working state: the final state
    and the events in their order, each as the loop body left it. *)
Fixpoint run (st : GroupState) (events : list NetworkEvent.t)
    : GroupState * list NetworkEvent.t :=
  match events with
  | [] => (st, [])
  | event :: rest =>
      let '(st1, event1) := step st event in
      let '(st2, rest2) := run st1 rest in
      (st2, event1 :: rest2)
  end.

(** [incident.duration && incident.duration > limit]. *)
Definition duration_over (inc : NetworkIncident.t) (limit : Js.number)
    : bool :=
  match NetworkIncident.duration inc with
  | Some d => Js.truthy d && (limit <? d)%float
  | None => false
  end.

(** Impact level and severity of a grouped incident. *)
Definition finalize (inc : NetworkIncident.t) : NetworkIncident.t :=
  let impactLevel :=
    Js.Math_round
      ((Js.of_nat (length (NetworkIncident.affectedDevices inc))
        / getTotalDeviceCount) * 100)%float in
  {| NetworkIncident.id := NetworkIncident.id inc;
     NetworkIncident.startTime := NetworkIncident.startTime inc;
     NetworkIncident.endTime := NetworkIncident.endTime inc;
     NetworkIncident.duration := NetworkIncident.duration inc;
     NetworkIncident.status := NetworkIncident.status inc;
     NetworkIncident.affectedDevices := NetworkIncident.affectedDevices inc;
     NetworkIncident.recoveredDevices := NetworkIncident.recoveredDevices inc;
     NetworkIncident.severity :=
       if (50 <? impactLevel)%float || duration_over inc 30%float
       then critical
       else if (20 <? impactLevel)%float || duration_over inc 10%float
       then high
       else medium;
     NetworkIncident.impactLevel := impactLevel;
     NetworkIncident.recoveryPattern := NetworkIncident.recoveryPattern inc |}.

(** [groupEventsIntoIncidents]: the incidents returned, and the events as
    the pass leaves them (their [incidentId] is assigned in place). *)
Definition groupEventsIntoIncidents (events : list NetworkEvent.t)
    : list NetworkIncident.t * list NetworkEvent.t :=
  let '(st, events') := run init_state events in
  (List.map finalize (incidents st), events').

(** [inc.duration || 0]. *)
Definition duration_or_zero (inc : NetworkIncident.t) : Js.number :=
  match NetworkIncident.duration inc with
  | Some d => if Js.truthy d then d else 0%float
  | None => 0%float
  end.

(** [counts.set(device, (counts.get(device) || 0) + 1)]. *)
Definition count_device (counts : OrderedMap.t nat) (device : string)
    : OrderedMap.t nat :=
  OrderedMap.set device
    (match OrderedMap.get device counts with
     | Some c => c + 1
     | None => 1
     end)%nat
    counts.

Definition count_pattern (acc : RecoveryMetrics.Patterns)
    (inc : NetworkIncident.t) : RecoveryMetrics.Patterns :=
  match NetworkIncident.recoveryPattern inc with
  | simultaneous =>
      {| RecoveryMetrics.n_simultaneous := S (RecoveryMetrics.n_simultaneous acc);
         RecoveryMetrics.n_gradual := RecoveryMetrics.n_gradual acc;
         RecoveryMetrics.n_partial := RecoveryMetrics.n_partial acc |}
  | gradual =>
      {| RecoveryMetrics.n_simultaneous := RecoveryMetrics.n_simultaneous acc;
         RecoveryMetrics.n_gradual := S (RecoveryMetrics.n_gradual acc);
         RecoveryMetrics.n_partial := RecoveryMetrics.n_partial acc |}
  | partial =>
      {| RecoveryMetrics.n_simultaneous := RecoveryMetrics.n_simultaneous acc;
         RecoveryMetrics.n_gradual := RecoveryMetrics.n_gradual acc;
         RecoveryMetrics.n_partial := S (RecoveryMetrics.n_partial acc) |}
  end.

Definition calculateRecoveryMetrics (incidents : list NetworkIncident.t)
    : RecoveryMetrics.t :=
  let resolvedIncidents :=
    List.filter (fun inc => negb (is_ongoing inc)) incidents in
  let durations := List.map duration_or_zero resolvedIncidents in
  let deviceRecoveryCount :=
    fold_left
      (fun counts inc =>
         fold_left count_device (NetworkIncident.affectedDevices inc) counts)
      incidents [] in
  let frequentlyAffectedDevices :=
    List.map fst
      (Js.slice_first 5
         (Js.sort
            (fun a b => Some (Z.of_nat (snd b) - Z.of_nat (snd a)))
            (List.filter (fun entry => (2 <? snd entry)%nat)
               deviceRecoveryCount))) in
  let recoveryPatterns :=
    fold_left count_pattern incidents
      {| RecoveryMetrics.n_simultaneous := 0;
         RecoveryMetrics.n_gradual := 0;
         RecoveryMetrics.n_partial := 0 |} in
  let some := (0 <? length durations)%nat in
  {| RecoveryMetrics.totalOutages := length incidents;
     RecoveryMetrics.averageOutageDuration :=
       if some
       then Js.Math_round
              (Js.sum durations / Js.of_nat (length durations))%float
       else 0%float;
     RecoveryMetrics.longestOutage :=
       if some
       then fold_left Js.Math_max durations PrimFloat.neg_infinity
       else 0%float;
     RecoveryMetrics.shortestOutage :=
       if some
       then fold_left Js.Math_min durations PrimFloat.infinity
       else 0%float;
     RecoveryMetrics.recoveryRate :=
       if (0 <? length resolvedIncidents)%nat
       then Js.Math_round
              ((Js.of_nat (length resolvedIncidents)
                / Js.of_nat (length incidents)) * 100)%float
       else 0%float;
     RecoveryMetrics.frequentlyAffectedDevices := frequentlyAffectedDevices;
     RecoveryMetrics.recoveryPatterns := recoveryPatterns |}.

(** The value [analyzeNetworkEvents] returns. *)
Record Analysis : Type := mkAnalysis {
  analysis_incidents : list NetworkIncident.t;
  analysis_events    : list NetworkEvent.t;
  analysis_metrics   : RecoveryMetrics.t
}.

Definition analyzeNetworkEvents (ignitionLogs : list IgnitionLog.t)
    (exceptionLogs : list ExceptionLog.t) : Analysis :=
  (* extract network-related events from exception logs *)
  let networkEvents := extractNetworkEvents exceptionLogs in
  (* group events into incidents *)
  let '(incidents, networkEvents') :=
    groupEventsIntoIncidents networkEvents in
  (* calculate recovery metrics *)
  let metrics := calculateRecoveryMetrics incidents in
  {| analysis_incidents := incidents;
     analysis_events := networkEvents';
     analysis_metrics := metrics |}.




(** [e.eventType === kind]. *)
Definition is_type (kind : EventType) (e : NetworkEvent.t) : bool :=
  match NetworkEvent.eventType e, kind with
  | outage, outage | recovery, recovery | timeout, timeout => true
  | _, _ => false
  end.




(** The recovery time pushed for one outage of the device, if a later
    recovery is found. *)
Definition recovery_time (recoveries : list NetworkEvent.t)
    (o : NetworkEvent.t) : list Js.number :=
  match List.find
          (fun r => gt (NetworkEvent.timestamp r) (NetworkEvent.timestamp o))
          recoveries with
  | Some r =>
      [ (number_of_diff
           (diff (NetworkEvent.timestamp r) (NetworkEvent.timestamp o))
         / (1000 * 60))%float ]
  | None => []
  end.

Definition getDeviceRecoveryStatus (deviceImei : string)
    (events : list NetworkEvent.t) : DeviceRecoveryStatus.t :=
  let deviceEvents :=
    List.filter
      (fun e => String.eqb (NetworkEvent.deviceImei e) deviceImei) events in
  let outages := List.filter (is_type outage) deviceEvents in
  let recoveries := List.filter (is_type recovery) deviceEvents in
  let lastEvent := List.last (List.map Some deviceEvents) None in
  let lastOutage := List.last (List.map Some outages) None in
  let status :=
    match option_map NetworkEvent.eventType lastEvent with
    | Some outage => DeviceRecoveryStatus.offline
    | Some timeout => DeviceRecoveryStatus.recovering
    | _ => DeviceRecoveryStatus.online
    end in
  (* average recovery time *)
  let recoveryTimes := flat_map (recovery_time recoveries) outages in
  let averageRecoveryTime :=
    if (0 <? length recoveryTimes)%nat
    then Js.Math_round
           (Js.sum recoveryTimes / Js.of_nat (length recoveryTimes))%float
    else 0%float in
  (* reliability (uptime percentage) *)
  let totalTime :=
    match deviceEvents with
    | first :: _ =>
        number_of_diff (diff (new_Date env) (NetworkEvent.timestamp first))
    | [] => 0%float
    end in
  let totalOutageTime := (Js.sum recoveryTimes * 60 * 1000)%float in
  let reliability :=
    if (0 <? totalTime)%float
    then Js.Math_round
           (((totalTime - totalOutageTime) / totalTime) * 100)%float
    else 100%float in
  {| DeviceRecoveryStatus.deviceImei := deviceImei;
     DeviceRecoveryStatus.lastSeen :=
       match lastEvent with
       | Some e => NetworkEvent.timestamp e
       | None => new_Date env
       end;
     DeviceRecoveryStatus.status := status;
     DeviceRecoveryStatus.lastOutage :=
       option_map NetworkEvent.timestamp lastOutage;
     DeviceRecoveryStatus.outageCount := length outages;
     DeviceRecoveryStatus.averageRecoveryTime := averageRecoveryTime;
     DeviceRecoveryStatus.reliability := reliability |}.

End WithEnv.
End NetworkIncidentService.

(* ===================================================================== *)
(** * NotificationService *)
(* ===================================================================== *)

Inductive NotificationType : Type := alert_critical | alert_warning | alert_info.

Module AlertNotification.
Record t : Type := mk {
  id             : string;
  type           : NotificationType;
  title          : string;
  message        : string;
  imei           : option string;
  timestamp      : Date;
  acknowledged   : bool;
  acknowledgedBy : option string;
  acknowledgedAt : option Date
}.
End AlertNotification.

(** [Omit<AlertNotification, 'id' | 'timestamp' | 'acknowledged'>]. *)
Module Draft.
Record t : Type := mk {
  type    : NotificationType;
  title   : string;
  message : string;
  imei    : option string
}.
End Draft.

Module NotificationService.

(** What a call makes happen outside the service: a browser notification,
    an alert sound, and the delivery of a copy of the list to each
    subscribed listener. *)
Inductive Effect : Type :=
  | ShowBrowserNotification (n : AlertNotification.t)
  | PlayAlertSound (type : NotificationType)
  | NotifyListener (listener : nat) (snapshot : list AlertNotification.t).

Record State : Type := mkState {
  notifications : list AlertNotification.t;
  listeners     : list nat;
  isEnabled     : bool;
  soundEnabled  : bool
}.

(** The service as constructed. *)
Definition initial : State :=
  {| notifications := []; listeners := []; isEnabled := true;
     soundEnabled := true |}.

Definition notifyListeners (st : State) : list Effect :=
  List.map (fun l => NotifyListener l (notifications st)) (listeners st).

Definition with_notifications (st : State) (l : list AlertNotification.t)
    : State :=
  {| notifications := l; listeners := listeners st;
     isEnabled := isEnabled st; soundEnabled := soundEnabled st |}.

(** The notification built from a draft; [id] and [time] are the
    identifier and the time stamp that [addNotification] draws from the
    clock and the random generator. *)
Definition create (id : string) (time : Z) (notification : Draft.t)
    : AlertNotification.t :=
  {| AlertNotification.id := id;
     AlertNotification.type := Draft.type notification;
     AlertNotification.title := Draft.title notification;
     AlertNotification.message := Draft.message notification;
     AlertNotification.imei := Draft.imei notification;
     AlertNotification.timestamp := Some time;
     AlertNotification.acknowledged := false;
     AlertNotification.acknowledgedBy := None;
     AlertNotification.acknowledgedAt := None |}.

Definition addNotification (id : string) (time : Z) (notification : Draft.t)
    (st : State) : State * list Effect :=
  if negb (isEnabled st) then (st, [])
  else
    let newNotification := create id time notification in
    let unshifted := newNotification :: notifications st in
    (* keep only last 100 notifications *)
    let kept :=
      if (100 <? length unshifted)%nat then Js.slice_first 100 unshifted
      else unshifted in
    let st' := with_notifications st kept in
    (st',
     ShowBrowserNotification newNotification
     :: PlayAlertSound (AlertNotification.type newNotification)
     :: notifyListeners st').

Definition acknowledge (acknowledgedBy : string) (time : Z)
    (n : AlertNotification.t) : AlertNotification.t :=
  {| AlertNotification.id := AlertNotification.id n;
     AlertNotification.type := AlertNotification.type n;
     AlertNotification.title := AlertNotification.title n;
     AlertNotification.message := AlertNotification.message n;
     AlertNotification.imei := AlertNotification.imei n;
     AlertNotification.timestamp := AlertNotification.timestamp n;
     AlertNotification.acknowledged := true;
     AlertNotification.acknowledgedBy := Some acknowledgedBy;
     AlertNotification.acknowledgedAt := Some (Some time) |}.

(** [acknowledgeNotification]: the first notification with the given id
    is found and, unless already acknowledged, mutated in place. *)
Definition acknowledgeNotification (id acknowledgedBy : string) (time : Z)
    (st : State) : State * list Effect :=
  match Js.find_index
          (fun n => String.eqb (AlertNotification.id n) id)
          (notifications st) with
  | Some i =>
      match notifications st !! i with
      | Some notification =>
          if negb (AlertNotification.acknowledged notification) then
            let st' :=
              with_notifications st
                (alter (acknowledge acknowledgedBy time) i
                   (notifications st)) in
            (st', notifyListeners st')
          else (st, [])
      | None => (st, [])
      end
  | None => (st, [])
  end.

Definition getNotifications (st : State) : list AlertNotification.t :=
  notifications st.

Definition getUnacknowledgedCount (st : State) : nat :=
  length
    (List.filter (fun n => negb (AlertNotification.acknowledged n))
       (notifications st)).

Definition setEnabled (enabled : bool) (st : State) : State :=
  {| notifications := notifications st; listeners := listeners st;
     isEnabled := enabled; soundEnabled := soundEnabled st |}.

(** A call of [addNotification]: the identifier and time stamp drawn,
    and the draft passed. *)
Definition Call : Type := (string * Z * Draft.t)%type.

Definition created (call : Call) : AlertNotification.t :=
  create (fst (fst call)) (snd (fst call)) (snd call).

(** A sequence of [addNotification] calls, oldest first. *)
Definition add_all (calls : list Call) (st : State) : State :=
  fold_left
    (fun st call =>
       fst (addNotification (fst (fst call)) (snd (fst call)) (snd call) st))
    calls st.

Definition getCriticalCount (st : State) : nat :=
  length
    (List.filter
       (fun n =>
          match AlertNotification.type n with
          | alert_critical => negb (AlertNotification.acknowledged n)
          | _ => false
          end)
       (notifications st)).

Definition setSoundEnabled (enabled : bool) (st : State) : State :=
  {| notifications := notifications st; listeners := listeners st;
     isEnabled := isEnabled st; soundEnabled := enabled |}.

(** [subscribe(listener)]: the listener goes last. *)
Definition subscribe (listener : nat) (st : State) : State :=
  {| notifications := notifications st;
     listeners := listeners st ++ [listener];
     isEnabled := isEnabled st; soundEnabled := soundEnabled st |}.

(** [listeners.splice(listeners.indexOf(listener), 1)], when the index is
    found: the first occurrence goes. *)
Fixpoint remove_first (listener : nat) (l : list nat) : list nat :=
  match l with
  | [] => []
  | x :: r => if Nat.eqb x listener then r else x :: remove_first listener r
  end.

(** The function that [subscribe(listener)] returns. *)
Definition unsubscribe (listener : nat) (st : State) : State :=
  {| notifications := notifications st;
     listeners := remove_first listener (listeners st);
     isEnabled := isEnabled st; soundEnabled := soundEnabled st |}.

Definition clearAll (st : State) : State * list Effect :=
  let st' := with_notifications st [] in
  (st', notifyListeners st').

Definition clearAcknowledged (st : State) : State * list Effect :=
  let st' :=
    with_notifications st
      (List.filter (fun n => negb (AlertNotification.acknowledged n))
         (notifications st)) in
  (st', notifyListeners st').

(** A call on the service. *)
Inductive Op : Type :=
  | OpAdd (id : string) (time : Z) (notification : Draft.t)
  | OpAcknowledge (id acknowledgedBy : string) (time : Z)
  | OpClearAll
  | OpClearAcknowledged
  | OpSetEnabled (enabled : bool)
  | OpSetSoundEnabled (enabled : bool)
  | OpSubscribe (listener : nat)
  | OpUnsubscribe (listener : nat).

Definition apply_op (op : Op) (st : State) : State * list Effect :=
  match op with
  | OpAdd id time notification => addNotification id time notification st
  | OpAcknowledge id acknowledgedBy time =>
      acknowledgeNotification id acknowledgedBy time st
  | OpClearAll => clearAll st
  | OpClearAcknowledged => clearAcknowledged st
  | OpSetEnabled enabled => (setEnabled enabled st, [])
  | OpSetSoundEnabled enabled => (setSoundEnabled enabled st, [])
  | OpSubscribe listener => (subscribe listener st, [])
  | OpUnsubscribe listener => (unsubscribe listener st, [])
  end.

(** A sequence of calls: the final state and everything that happened
    outside the service, in order. *)
Fixpoint run_ops (ops : list Op) (st : State) : State * list Effect :=
  match ops with
  | [] => (st, [])
  | op :: rest =>
      let '(st1, effects1) := apply_op op st in
      let '(st2, effects2) := run_ops rest st1 in
      (st2, effects1 ++ effects2)
  end.


(** The predefined alert generators. *)
Section Generators.
Variable env : Env.

Definition createServerDownAlert (deviceCount : nat) : Draft.t :=
  {| Draft.type := alert_critical;
     Draft.title := "Server Down Alert";
     Draft.message :=
       "Server is down affecting " +:+ toString env (Js.of_nat deviceCount)
       +:+ " device" +:+ (if (deviceCount =? 1)%nat then "" else "s")
       +:+ ". End users cannot access the service.";
     Draft.imei := None |}.

Definition createDeviceOfflineAlert (imei : string) : Draft.t :=
  {| Draft.type := alert_warning;
     Draft.title := "Device Offline";
     Draft.message :=
       "Device " +:+ imei +:+ " has been offline for more than 2 hours.";
     Draft.imei := Some imei |}.

Definition createBatteryLowAlert (imei : string) (voltage : Js.number)
    : Draft.t :=
  {| Draft.type := alert_warning;
     Draft.title := "Low Battery Alert";
     Draft.message :=
       "Device " +:+ imei +:+ " battery voltage is low ("
       +:+ toFixed env voltage 2 +:+ "V). Consider replacement.";
     Draft.imei := Some imei |}.

Definition createAnomalyAlert (imei anomalyType description : string)
    : Draft.t :=
  {| Draft.type := alert_warning;
     Draft.title := "Anomaly Detected";
     Draft.message :=
       anomalyType +:+ " detected on device " +:+ imei +:+ ": "
       +:+ description;
     Draft.imei := Some imei |}.

Definition createPredictiveAlert (imei alertType : string)
    (timeToFailure : Js.number) : Draft.t :=
  {| Draft.type := alert_info;
     Draft.title := "Predictive Alert";
     Draft.message :=
       alertType +:+ " predicted for device " +:+ imei
       +:+ " in approximately " +:+ toString env (Js.Math_round timeToFailure)
       +:+ " hours.";
     Draft.imei := Some imei |}.

End Generators.

End NotificationService.

(* ===================================================================== *)
(** * The alerts of the analytics dashboard *)
(* ===================================================================== *)

Module AdvancedAnalyticsDashboard.
Import DateFns DateUtils.
Local Open Scope float_scope.

(** The part of the analytics that the alert effect reads. *)
Record Analytics : Type := mkAnalytics {
  deviceMetrics : list DevicePerformanceMetrics.t;
  anomalies     : list Anomaly.t;
  serverHealth  : ServerHealth.t
}.

(** [anomaly.type], the string it is. *)
Definition anomaly_type_text (type : AnomalyType) : string :=
  match type with
  | voltage_drop => "voltage_drop"
  | frequent_restarts => "frequent_restarts"
  | connection_loss => "connection_loss"
  | battery_degradation => "battery_degradation"
  end.

Section WithEnv.
Variable env : Env.

(** The analytics memo, for the list [devices] of the dashboard. *)
Definition analytics (devices : list string)
    (ignitionLogs : list IgnitionLog.t) (exceptionLogs : list ExceptionLog.t)
    : Analytics :=
  {| deviceMetrics :=
       List.map
         (fun device =>
            AnalyticsService.calculateDevicePerformanceMetrics env device
              ignitionLogs exceptionLogs)
         devices;
     anomalies :=
       AnalyticsService.detectAnomalies env ignitionLogs exceptionLogs;
     serverHealth :=
       AnalyticsService.calculateServerHealth env exceptionLogs |}.

Definition server_down_alerts (a : Analytics) : list Draft.t :=
  match ServerHealth.status (serverHealth a) with
  | ServerHealth.offline =>
      [ NotificationService.createServerDownAlert env
          (ServerHealth.totalDevices (serverHealth a)) ]
  | _ => []
  end.

Definition device_offline_alerts (a : Analytics) : list Draft.t :=
  flat_map
    (fun metric =>
       let hoursSinceLastSeen :=
         NetworkIncidentService.number_of_diff
           (diff (new_Date env) (DevicePerformanceMetrics.lastSeen metric))
         / (1000 * 60 * 60) in
       if 2 <? hoursSinceLastSeen
       then [ NotificationService.createDeviceOfflineAlert
                (DevicePerformanceMetrics.imei metric) ]
       else [])
    (deviceMetrics a).

Definition battery_alerts (a : Analytics) : list Draft.t :=
  flat_map
    (fun metric =>
       if (0 <? DevicePerformanceMetrics.averageVoltage metric)
          && (DevicePerformanceMetrics.averageVoltage metric <? 11.5)
       then [ NotificationService.createBatteryLowAlert env
                (DevicePerformanceMetrics.imei metric)
                (DevicePerformanceMetrics.averageVoltage metric) ]
       else [])
    (deviceMetrics a).

Definition anomaly_alert (anomaly : Anomaly.t) : Draft.t :=
  NotificationService.createAnomalyAlert (Anomaly.imei anomaly)
    (anomaly_type_text (Anomaly.type anomaly)) (Anomaly.description anomaly).

Definition anomaly_alerts (a : Analytics) : list Draft.t :=
  flat_map
    (fun anomaly =>
       match Anomaly.severity anomaly with
       | critical | high => [anomaly_alert anomaly]
       | _ => []
       end)
    (anomalies a).

(** The drafts that one run of the alert effect hands to
    [addNotification], in order. *)
Definition alerts (notificationsEnabled : bool) (a : Analytics)
    : list Draft.t :=
  if negb notificationsEnabled then []
  else
    server_down_alerts a ++ device_offline_alerts a ++ battery_alerts a
    ++ anomaly_alerts a.

End WithEnv.
End AdvancedAnalyticsDashboard.

(* ===================================================================== *)
(** * What the specification says, where it is compared with the code *)
(* ===================================================================== *)

Module Spec.
Import DateFns DateUtils AnalyticsService.
Local Open Scope float_scope.

(** "uptime = min(100, 5 x count(events in last 24 hours))", over the
    events of the device. *)
Definition uptime (env : Env) (imei : string)
    (ignitionLogs : list IgnitionLog.t) (exceptionLogs : list ExceptionLog.t)
    : Js.number :=
  let events :=
    spread (ignitions_of imei ignitionLogs) (exceptions_of imei exceptionLogs)
  in
  Js.Math_min 100
    (5 * Js.of_nat
           (length
              (List.filter
                 (fun log => within_days env 1%Z (log_timestamp log))
                 events))).

(** The parsed instant of a log lies between one hour and 24 hours before
    now. *)
Definition older_than_an_hour (env : Env) (log : AnyLog) : Prop :=
  exists t, parseTimestamp env (log_timestamp log) = Some t
            /\ (now env - 86400000 < t <= now env - 3600000)%Z.

(** "failure = exception whose category text matches
    {server down, timeout, error} (case-insensitive substring match)". *)
Definition is_failure (log : ExceptionLog.t) : bool :=
  main_includes log "server down"
  || main_includes log "timeout"
  || main_includes log "error".

(** "mtbf = (24 x 7) / max(1, failureCount)". *)
Definition mtbf (failureCount : nat) : Js.number :=
  (24 * 7) / Js.Math_max 1 (Js.of_nat failureCount).

(** "recoveredDevices is a subset of affectedDevices". *)
Definition recovered_within_affected (inc : NetworkIncident.t) : Prop :=
  forall device,
    In device (NetworkIncident.recoveredDevices inc) ->
    In device (NetworkIncident.affectedDevices inc).

(** A reading that is absent, or exactly zero. *)
Definition zero_or_absent (x : option Js.number) : Prop :=
  match x with
  | Some v => PrimFloat.is_zero v = true
  | None => True
  end.

(** Two ignition logs that are the same, except that the reading may be
    absent in one and zero in the other. *)
Definition same_but_zero (a b : IgnitionLog.t) : Prop :=
  IgnitionLog.id a = IgnitionLog.id b
  /\ IgnitionLog.deviceImei a = IgnitionLog.deviceImei b
  /\ IgnitionLog.timestamp a = IgnitionLog.timestamp b
  /\ (IgnitionLog.voltage a = IgnitionLog.voltage b
      \/ (zero_or_absent (IgnitionLog.voltage a)
          /\ zero_or_absent (IgnitionLog.voltage b))).

(** The log with a reading of zero taken as no reading. *)
Definition zero_as_absent (log : IgnitionLog.t) : IgnitionLog.t :=
  {| IgnitionLog.id := IgnitionLog.id log;
     IgnitionLog.deviceImei := IgnitionLog.deviceImei log;
     IgnitionLog.timestamp := IgnitionLog.timestamp log;
     IgnitionLog.voltage :=
       match IgnitionLog.voltage log with
       | Some v => if PrimFloat.is_zero v then None else Some v
       | None => None
       end |}.

(** The same on an element of a mixed array, and on a device group. *)
Definition zero_as_absent_any (log : AnyLog) : AnyLog :=
  match log with
  | inl i => inl (zero_as_absent i)
  | inr e => inr e
  end.

Definition zero_as_absent_group (g : DeviceGroup) : DeviceGroup :=
  {| ignitions := List.map zero_as_absent (ignitions g);
     exceptions := exceptions g |}.

End Spec.

(* ===================================================================== *)
(** * Concrete inputs *)
(* ===================================================================== *)

Module Inputs.

(** An ignition log of device [imei] carrying a voltage reading. *)
Definition reading (imei : string) (v : Js.number) : IgnitionLog.t :=
  {| IgnitionLog.id := "";
     IgnitionLog.deviceImei := imei;
     IgnitionLog.timestamp := TsString "";
     IgnitionLog.voltage := Some v |}.

(** An exception log of device [imei] with category [main], received
    without a time stamp. *)
Definition exception (imei main : string) : ExceptionLog.t :=
  {| ExceptionLog.id := "";
     ExceptionLog.deviceImei := imei;
     ExceptionLog.timestamp := TsString "";
     ExceptionLog.main := Some main;
     ExceptionLog.details := None |}.

(** An ignition log of device [imei] without a reading. *)
Definition no_reading (imei : string) : IgnitionLog.t :=
  {| IgnitionLog.id := "";
     IgnitionLog.deviceImei := imei;
     IgnitionLog.timestamp := TsString "";
     IgnitionLog.voltage := None |}.

(** Six logs of one device, low readings and a reading of zero among
    them, and the same logs with the zero reading absent. *)
Definition logs_with_zero : list IgnitionLog.t :=
  [reading "A" 11.2; reading "A" 0; reading "A" 11.0; reading "A" 10.8;
   reading "A" 10.6; reading "A" 10.4]%float.

Definition logs_with_absent : list IgnitionLog.t :=
  [reading "A" 11.2; no_reading "A"; reading "A" 11.0; reading "A" 10.8;
   reading "A" 10.6; reading "A" 10.4]%float.

(** The declining series of the voltage-drop scenario. *)
Definition declining : list Js.number :=
  [12.4; 12.2; 12.0; 11.8; 11.6]%float.

Definition declining_logs : list IgnitionLog.t :=
  List.map (reading "356938035643809") declining.

(** Eleven devices reporting the server down. *)
Definition eleven_devices : list string :=
  ["d01"; "d02"; "d03"; "d04"; "d05"; "d06"; "d07"; "d08"; "d09"; "d10";
   "d11"].

Definition eleven_outages : list ExceptionLog.t :=
  List.map (fun d => exception d "Server Down") eleven_devices.

(** A network event of the given kind at [time] ms. *)
Definition event (device : string) (kind : EventType) (time : Z)
    : NetworkEvent.t :=
  {| NetworkEvent.id := "";
     NetworkEvent.deviceImei := device;
     NetworkEvent.timestamp := Some time;
     NetworkEvent.eventType := kind;
     NetworkEvent.details := "";
     NetworkEvent.incidentId := None |}.

(** Device A goes down and recovers within a minute; device B goes down
    a minute later, inside the five-minute window of A's incident. *)
Definition outage_after_resolution : list NetworkEvent.t :=
  [event "A" outage 0; event "A" recovery 60000; event "B" outage 120000].

(** The same scenario as exception logs received without time stamps,
    which all fall back to the current time. *)
Definition outage_after_resolution_logs : list ExceptionLog.t :=
  [exception "A" "Server Down"; exception "A" "Server Up";
   exception "B" "Server Down"].

(** What the claims say about an incident: its status and its two sets
    of devices. *)
Definition summary (inc : NetworkIncident.t)
    : IncidentStatus * list string * list string :=
  (NetworkIncident.status inc, NetworkIncident.affectedDevices inc,
   NetworkIncident.recoveredDevices inc).

(** Two exceptions of category "Timeout" on one device. *)
Definition two_timeouts : list ExceptionLog.t :=
  [exception "A" "Timeout"; exception "A" "Timeout"].

(** Nine exceptions of category "Error" on one device. *)
Definition nine_errors : list ExceptionLog.t :=
  List.repeat (exception "A" "Error") 9.

(** An environment in which every ISO string denotes the instant [t]. *)
Definition env_at (t clock : Z) : Env :=
  {| parseISO := fun _ => Normal (Some t);
     parse := fun _ _ _ => Throw;
     Date_string := fun _ => None;
     format := fun _ _ => "";
     toFixed := fun _ _ => "";
     toString := fun _ => "";
     random_id := fun _ => "";
     now := clock |}.

(** An ignition log stamped with an ISO string. *)
Definition stamped (imei : string) : IgnitionLog.t :=
  {| IgnitionLog.id := "";
     IgnitionLog.deviceImei := imei;
     IgnitionLog.timestamp := TsString "2025-07-23T18:00:00.000";
     IgnitionLog.voltage := None |}.

(** The [k]-th of a series of alerts. *)
Definition call (k : nat) : NotificationService.Call :=
  (String (ascii_of_nat k) "", Z.of_nat k,
   {| Draft.type := alert_info; Draft.title := "t"; Draft.message := "m";
      Draft.imei := None |}).

Definition calls_101 : list NotificationService.Call :=
  List.map call (seq 0 101).

(** A service holding two notifications, "b" in front of "a", of which
    "a" has been acknowledged; one listener is subscribed. *)
Definition one_acknowledged : NotificationService.State :=
  let draft :=
    {| Draft.type := alert_warning; Draft.title := "Device Offline";
       Draft.message := "offline"; Draft.imei := Some "A" |} in
  {| NotificationService.notifications :=
       [ NotificationService.create "b" 2 draft;
         NotificationService.acknowledge "operator" 3
           (NotificationService.create "a" 1 draft) ];
     NotificationService.listeners := [0%nat];
     NotificationService.isEnabled := true;
     NotificationService.soundEnabled := true |}.

End Inputs.

(* ===================================================================== *)
(** * Predicates used to state further properties *)
(* ===================================================================== *)

Module Shape.

(** The time value of a valid date; 0 stands in for NaN, which the
    statements that use [time_value] exclude. *)
Definition time_value (d : Date) : Z :=
  match d with
  | Some t => t
  | None => 0
  end.

(** [a] is not later than [b]. *)
Definition not_later (a b : Date) : Prop := time_value a <= time_value b.

(** The event drawn from an exception log classified as [kind]. *)
Definition event_of (env : Env) (log : ExceptionLog.t) (kind : EventType)
    : NetworkEvent.t :=
  {| NetworkEvent.id := ExceptionLog.id log;
     NetworkEvent.deviceImei := ExceptionLog.deviceImei log;
     NetworkEvent.timestamp :=
       DateUtils.parseTimestamp env (ExceptionLog.timestamp log);
     NetworkEvent.eventType := kind;
     NetworkEvent.details :=
       NetworkIncidentService.or_else (ExceptionLog.details log)
         (NetworkIncidentService.or_else (ExceptionLog.main log)
            "Network event detected");
     NetworkEvent.incidentId := None |}.

(** An incident has at least one affected device, and lists no device
    twice. *)
Definition well_formed (inc : NetworkIncident.t) : Prop :=
  NetworkIncident.affectedDevices inc <> []
  /\ List.NoDup (NetworkIncident.affectedDevices inc)
  /\ List.NoDup (NetworkIncident.recoveredDevices inc).

(** An ongoing incident has neither end time nor duration; a resolved
    one has both. *)
Definition coherent (inc : NetworkIncident.t) : Prop :=
  match NetworkIncident.status inc with
  | ongoing =>
      NetworkIncident.endTime inc = None
      /\ NetworkIncident.duration inc = None
  | resolved =>
      NetworkIncident.endTime inc <> None
      /\ NetworkIncident.duration inc <> None
  end.

(** Each incident starts more than five minutes after the one before. *)
Definition windows_apart (incidents : list NetworkIncident.t) : Prop :=
  forall k a b,
    incidents !! k = Some a ->
    incidents !! S k = Some b ->
    exists ta tb,
      NetworkIncident.startTime a = Some ta
      /\ NetworkIncident.startTime b = Some tb
      /\ NetworkIncidentService.INCIDENT_WINDOW < tb - ta.

(** The current incident of the pass is the incident opened last. *)
Definition current_is_last (st : NetworkIncidentService.GroupState) : Prop :=
  NetworkIncidentService.currentIncident st
  = match NetworkIncidentService.incidents st with
    | [] => None
    | _ :: rest => Some (length rest)
    end.

(** The number of outage events. *)
Definition outage_count (events : list NetworkEvent.t) : nat :=
  length
    (List.filter
       (fun e =>
          match NetworkEvent.eventType e with
          | outage => true
          | _ => false
          end) events).

(** What the pass may do to an event: nothing, or, unless it is a
    timeout, give it an incident id. *)
Definition assigned (e e' : NetworkEvent.t) : Prop :=
  e' = e
  \/ (NetworkEvent.eventType e <> timeout
      /\ exists id, e' = NetworkIncidentService.set_incidentId e id).

(** An outage event carries the id of one of the incidents. *)
Definition outage_linked (ids : list string) (e : NetworkEvent.t) : Prop :=
  NetworkEvent.eventType e = outage ->
  exists id, NetworkEvent.incidentId e = Some id /\ In id ids.

(** How many times a device is listed as affected, over all incidents. *)
Definition occurrences (incidents : list NetworkIncident.t)
    (device : string) : nat :=
  count_occ String.string_dec
    (concat (List.map NetworkIncident.affectedDevices incidents)) device.

(** A timestamp from which no instant can be read: it is missing, it is
    an Invalid Date, or it is a string on which the four parsing
    strategies fail. *)
Definition unreadable (env : Env) (ts : Timestamp) : Prop :=
  match ts with
  | TsUndefined | TsNull => True
  | TsString s =>
      s = ""%string
      \/ (DateUtils.failed (parseISO env s)
          /\ DateUtils.failed
               (parse env s "dd/MM/yyyy HH:mm:ss.SSS" (DateUtils.new_Date env))
          /\ DateUtils.failed
               (parse env s "dd/MM/yyyy HH:mm:ss" (DateUtils.new_Date env))
          /\ DateFns.isValid (Date_string env s) = false)
  | TsDate d => DateFns.isValid d = false
  end.

(** The parsed time of a located log. *)
Definition located_time (env : Env) (l : LocatedLog.t) : Date :=
  DateUtils.parseTimestamp env (IgnitionLog.timestamp (LocatedLog.log l)).

(** [e] is the entry built from a log of device [k] among [logs] that
    carries coordinates, and no such log of the device is later than
    it. *)
Definition latest_located (env : Env) (ignitionLogs : list LocatedLog.t)
    (exceptionLogs : list ExceptionLog.t) (logs : list LocatedLog.t)
    (k : string) (e : GeographicData.t) : Prop :=
  exists l latitude longitude,
    In l logs
    /\ LocatedLog.location l = Some (latitude, longitude)
    /\ Js.truthy latitude && Js.truthy longitude = true
    /\ IgnitionLog.deviceImei (LocatedLog.log l) = k
    /\ e = AnalyticsService.geographic_entry env ignitionLogs exceptionLogs
             l latitude longitude
    /\ List.Forall
         (fun l' =>
            AnalyticsService.located l'
            && String.eqb (IgnitionLog.deviceImei (LocatedLog.log l')) k
            && DateFns.gt (located_time env l') (GeographicData.lastSeen e)
            = false)
         logs.

End Shape.

(* ===================================================================== *)
(** * The primitives on concrete values *)
(* ===================================================================== *)

Section Primitives.
Local Open Scope float_scope.

Example Math_round_values :
  List.map Js.Math_round
    [2.4; 2.5; 2.6; -2.5; -2.6; -0.2; 0.49999999999999994; 48.80952380952381;
     110.00000000000001]
  = [2; 3; 3; -2; -3; -0; 0; 49; 110].
Proof. reflexivity. Qed.

Example Math_min_max_values :
  [Js.Math_min 100 30; Js.Math_min 100 250; Js.Math_max 0 95.5;
   Js.Math_max 20 (-3)]
  = [30; 100; 95.5; 20].
Proof. reflexivity. Qed.

Example truthy_values :
  List.map Js.truthy [0; -0; PrimFloat.nan; 12.4; -1]
  = [false; false; false; true; true].
Proof. reflexivity. Qed.

Example includes_values :
  [Js.includes (Js.toLowerCase "Connection Timeout") "timeout";
   Js.includes (Js.toLowerCase "SERVER DOWN") "server down";
   Js.includes (Js.toLowerCase "Timeout") "connection timeout";
   Js.includes "" ""]
  = [true; true; false; true].
Proof. reflexivity. Qed.

(** The sort is stable: entries with equal keys keep their order. *)
Example sort_stable :
  Js.sort (fun a b => Some (fst a - fst b)%Z)
    [(3, "a"); (1, "b"); (3, "c"); (2, "d"); (1, "e")]%Z
  = [(1, "b"); (1, "e"); (2, "d"); (3, "a"); (3, "c")]%Z.
Proof. reflexivity. Qed.

Example slice_values :
  [Js.slice_last 2 [1; 2; 3]; Js.slice_last 5 [1; 2; 3];
   Js.slice_first 2 [1; 2; 3]]
  = [[2; 3]; [1; 2; 3]; [1; 2]].
Proof. reflexivity. Qed.

(** The mean of the declining series, as the program computes it. *)
Example declining_mean :
  (Js.sum Inputs.declining / Js.of_nat 5 <? 11.5) = false
  /\ Js.sum Inputs.declining / Js.of_nat 5 = 12.000000000000002.
Proof. split; reflexivity. Qed.

End Primitives.

(* ===================================================================== *)
(** * Properties of [parseTimestamp] *)
(* ===================================================================== *)

Section ParseTimestamp.
Import DateFns DateUtils.
Variable env : Env.

Lemma new_Date_valid : isValid (new_Date env) = true.
Proof. reflexivity. Qed.

Lemma strategy_valid (attempt : Completion Date) (rest : Outcome) :
  isValid (fst rest) = true -> isValid (fst (strategy attempt rest)) = true.
Proof.
  intros Hrest. destruct attempt as [d|]; simpl; [|exact Hrest].
  destruct (isValid d) eqn:Hd; [exact Hd|exact Hrest].
Qed.

Lemma strategy_failed (attempt : Completion Date) (rest : Outcome) :
  failed attempt -> strategy attempt rest = rest.
Proof.
  destruct attempt as [d|]; simpl; [|reflexivity].
  intros ->. reflexivity.
Qed.

Lemma parseTimestamp_valid (ts : Timestamp) :
  isValid (parseTimestamp env ts) = true.
Proof.
  unfold parseTimestamp, parseTimestamp_console.
  destruct (missing ts); [reflexivity|].
  destruct ts as [| |s|d]; try reflexivity.
  - repeat apply strategy_valid. reflexivity.
  - simpl. destruct (isValid d) eqn:Hd; [exact Hd|reflexivity].
Qed.

End ParseTimestamp.

(** C9. [parseTimestamp] returns a valid [Date] on every input, whatever
    the parsers of the environment do (return a date, return an Invalid
    Date, or throw).  A missing input (undefined, null, the empty string)
    gives the current time, a [Date] is returned as it is when valid and
    replaced by the current time when not, and a string on which all four
    strategies fail gives the current time, with one warning on the
    console. *)
Theorem parseTimestamp_total (env : Env) (ts : Timestamp) :
  DateFns.isValid (DateUtils.parseTimestamp env ts) = true
  /\ (DateUtils.missing ts = true ->
      DateUtils.parseTimestamp_console env ts = (DateUtils.new_Date env, []))
  /\ (forall d, ts = TsDate d ->
      DateUtils.parseTimestamp_console env ts
      = (if DateFns.isValid d then d else DateUtils.new_Date env, []))
  /\ (forall s, ts = TsString s ->
      DateUtils.missing ts = false ->
      DateUtils.failed (parseISO env s) ->
      DateUtils.failed
        (parse env s "dd/MM/yyyy HH:mm:ss.SSS" (DateUtils.new_Date env)) ->
      DateUtils.failed
        (parse env s "dd/MM/yyyy HH:mm:ss" (DateUtils.new_Date env)) ->
      DateUtils.failed (Normal (Date_string env s)) ->
      DateUtils.parseTimestamp_console env ts
      = (DateUtils.new_Date env, [FailedToParse ts])).
Proof.
  split; [apply parseTimestamp_valid|].
  split; [|split].
  - unfold DateUtils.parseTimestamp_console. intros ->. reflexivity.
  - intros d ->. reflexivity.
  - intros s -> Hpresent H1 H2 H3 H4.
    unfold DateUtils.parseTimestamp_console. rewrite Hpresent.
    rewrite (strategy_failed _ _ H1), (strategy_failed _ _ H2),
      (strategy_failed _ _ H3), (strategy_failed _ _ H4).
    reflexivity.
Qed.

Lemma parseTimestamp_total_witness :
  DateFns.isValid
    (DateUtils.parseTimestamp quiet_env (TsString "not a date")) = true
  /\ DateUtils.parseTimestamp_console quiet_env (TsString "not a date")
     = (Some (now quiet_env), [FailedToParse (TsString "not a date")])
  /\ DateUtils.parseTimestamp_console quiet_env TsNull
     = (Some (now quiet_env), []).
Proof.
  destruct (parseTimestamp_total quiet_env (TsString "not a date"))
    as (Hvalid & _ & _ & Hfall).
  destruct (parseTimestamp_total quiet_env TsNull) as (_ & Hmiss & _).
  split; [exact Hvalid|]. split.
  - apply (Hfall _ eq_refl); simpl; auto.
  - apply Hmiss. reflexivity.
Defined.

(* ===================================================================== *)
(** * Properties of the device health score *)
(* ===================================================================== *)

(** Two numbers that the comparison [==] tells apart are different. *)
Ltac numbers_differ :=
  let H := fresh "H" in
  intro H;
  match type of H with
  | ?x = ?y => apply (f_equal (fun z => PrimFloat.eqb z y)) in H
  end;
  vm_compute in H; discriminate H.

Section HealthScore.
Import DateFns DateUtils AnalyticsService.
Variable env : Env.

(** An event of the last hour is an event of the last day. *)
Lemma within_hours_within_days (ts : Timestamp) :
  within_hours env 1 ts = true -> within_days env 1 ts = true.
Proof.
  unfold within_hours, within_days, gt, subHours, subDays, new_Date.
  destruct (parseTimestamp env ts) as [t|]; [|discriminate].
  rewrite !Z.ltb_lt. lia.
Qed.

Lemma filter_idempotent_under {A : Type} (p q : A -> bool) (l : list A) :
  (forall x, p x = true -> q x = true) ->
  List.filter q (List.filter p l) = List.filter p l.
Proof.
  intros Hpq. induction l as [|x l IH]; simpl; [reflexivity|].
  destruct (p x) eqn:Hp; simpl; [|exact IH].
  rewrite (Hpq x Hp), IH. reflexivity.
Qed.

(** The events of the device within the last hour. *)
Lemma uptime_counts_last_hour (imei : string)
    (ignitionLogs : list IgnitionLog.t) (exceptionLogs : list ExceptionLog.t) :
  DeviceHealthScore.uptime
    (DeviceHealthScore.factors
       (calculateDeviceHealthScore env imei ignitionLogs exceptionLogs))
  = Js.Math_round
      (Js.Math_min 100%float
         (Js.of_nat
            (length
               (List.filter (fun log => within_hours env 1 (log_timestamp log))
                  (spread (ignitions_of imei ignitionLogs)
                     (exceptions_of imei exceptionLogs))))
          * 5)%float).
Proof.
  unfold calculateDeviceHealthScore. cbn [DeviceHealthScore.factors
    DeviceHealthScore.uptime].
  rewrite filter_idempotent_under; [reflexivity|].
  intros x. apply within_hours_within_days.
Qed.

End HealthScore.

(** C1, as stated, fails: a device without any event, here "B" in a data
    set that holds only the logs of another device, is scored 49. *)
Lemma health_score_no_events_not_45 :
  AnalyticsService.ignitions_of "B" Inputs.declining_logs = []
  /\ AnalyticsService.exceptions_of "B" Inputs.two_timeouts = []
  /\ DeviceHealthScore.score
       (AnalyticsService.calculateDeviceHealthScore quiet_env "B"
          Inputs.declining_logs Inputs.two_timeouts)
     <> 45%float.
Proof.
  split; [reflexivity|]. split; [reflexivity|].
  numbers_differ.
Qed.

(** C1, amended.  For every device with zero ignition events and zero
    exception events, [calculateDeviceHealthScore] returns the score 49:
    connectivity 0, battery health 12.0 / 12.6 * 100 (reported as 95),
    error rate 100 and uptime 0, weighted 0.30 / 0.25 / 0.25 / 0.20 and
    rounded to the nearest integer. *)
Theorem health_score_no_events (env : Env) (imei : string)
    (ignitionLogs : list IgnitionLog.t) (exceptionLogs : list ExceptionLog.t) :
  AnalyticsService.ignitions_of imei ignitionLogs = [] ->
  AnalyticsService.exceptions_of imei exceptionLogs = [] ->
  let result :=
    AnalyticsService.calculateDeviceHealthScore env imei ignitionLogs
      exceptionLogs in
  DeviceHealthScore.score result = 49%float
  /\ DeviceHealthScore.factors result
     = {| DeviceHealthScore.connectivity := 0%float;
          DeviceHealthScore.batteryHealth := 95%float;
          DeviceHealthScore.errorRate := 100%float;
          DeviceHealthScore.uptime := 0%float |}
  /\ DeviceHealthScore.score result
     = Js.Math_round
         (0 * 0.3 + (12.0 / 12.6 * 100) * 0.25 + 100 * 0.25 + 0 * 0.2)%float.
Proof.
  intros Hi He result. subst result.
  unfold AnalyticsService.calculateDeviceHealthScore.
  rewrite Hi, He. repeat split; reflexivity.
Qed.

Lemma health_score_no_events_witness :
  DeviceHealthScore.score
    (AnalyticsService.calculateDeviceHealthScore quiet_env "B"
       Inputs.declining_logs Inputs.two_timeouts)
  = 49%float.
Proof.
  apply (health_score_no_events quiet_env "B" Inputs.declining_logs
           Inputs.two_timeouts); reflexivity.
Defined.

Section UptimeWindow.
Import DateFns DateUtils AnalyticsService.
Variable env : Env.

Lemma older_not_within_hour (log : AnyLog) :
  Spec.older_than_an_hour env log -> within_hours env 1 (log_timestamp log) = false.
Proof.
  intros (t & Ht & Hrange). unfold within_hours, gt, subHours, new_Date.
  rewrite Ht. apply Z.ltb_ge. lia.
Qed.

Lemma older_within_day (log : AnyLog) :
  Spec.older_than_an_hour env log -> within_days env 1 (log_timestamp log) = true.
Proof.
  intros (t & Ht & Hrange). unfold within_days, gt, subDays, new_Date.
  rewrite Ht. apply Z.ltb_lt. lia.
Qed.

Lemma filter_none {A : Type} (p : A -> bool) (l : list A) :
  Forall (fun x => p x = false) l -> List.filter p l = [].
Proof.
  induction 1 as [|x l Hx _ IH]; simpl; [reflexivity|].
  rewrite Hx. exact IH.
Qed.

Lemma filter_all {A : Type} (p : A -> bool) (l : list A) :
  Forall (fun x => p x = true) l -> List.filter p l = l.
Proof.
  induction 1 as [|x l Hx _ IH]; simpl; [reflexivity|].
  rewrite Hx, IH. reflexivity.
Qed.

End UptimeWindow.

(** C5, at its failing inputs.  When all the events of a device fall
    between one hour and 24 hours before now, the uptime factor that
    [calculateDeviceHealthScore] reports is 0, whatever their number,
    while min(100, 5 x the number of events in the last 24 hours) counts
    every one of them: the 24-hour filter is applied to the list already
    cut down to the last hour. *)
Theorem uptime_ignores_events_older_than_an_hour (env : Env) (imei : string)
    (ignitionLogs : list IgnitionLog.t) (exceptionLogs : list ExceptionLog.t) :
  Forall (Spec.older_than_an_hour env)
    (AnalyticsService.spread
       (AnalyticsService.ignitions_of imei ignitionLogs)
       (AnalyticsService.exceptions_of imei exceptionLogs)) ->
  DeviceHealthScore.uptime
    (DeviceHealthScore.factors
       (AnalyticsService.calculateDeviceHealthScore env imei ignitionLogs
          exceptionLogs))
  = 0%float
  /\ Spec.uptime env imei ignitionLogs exceptionLogs
     = (Js.Math_min 100
          (5 * Js.of_nat
                 (length (AnalyticsService.ignitions_of imei ignitionLogs)
                  + length
                      (AnalyticsService.exceptions_of imei exceptionLogs))))
       %float.
Proof.
  intros Hold. split.
  - rewrite uptime_counts_last_hour, filter_none; [reflexivity|].
    eapply Forall_impl; [exact Hold|].
    intros log. apply older_not_within_hour.
  - unfold Spec.uptime. rewrite filter_all.
    + unfold AnalyticsService.spread.
      rewrite length_app, !length_map. reflexivity.
    + eapply Forall_impl; [exact Hold|].
      intros log. apply older_within_day.
Qed.

Lemma uptime_ignores_events_older_than_an_hour_witness :
  let env := Inputs.env_at (1753300800000 - 7200000) 1753300800000 in
  DeviceHealthScore.uptime
    (DeviceHealthScore.factors
       (AnalyticsService.calculateDeviceHealthScore env "A"
          [Inputs.stamped "A"] []))
  = 0%float
  /\ Spec.uptime env "A" [Inputs.stamped "A"] [] = 5%float.
Proof.
  intros env.
  apply (uptime_ignores_events_older_than_an_hour env "A"
           [Inputs.stamped "A"] []).
  repeat constructor. exists (1753300800000 - 7200000).
  split; [reflexivity|]. simpl. lia.
Defined.

(* ===================================================================== *)
(** * Properties of the performance metrics *)
(* ===================================================================== *)

Section Mtbf.
Import AnalyticsService.
Local Open Scope float_scope.

(** The failure categories of the code. *)
Lemma is_failure_iff (log : ExceptionLog.t) :
  is_failure log = true <->
  exists category, ExceptionLog.main log = Some category
    /\ (Js.includes (Js.toLowerCase category) "server down" = true
        \/ Js.includes (Js.toLowerCase category) "connection timeout" = true
        \/ Js.includes (Js.toLowerCase category) "error" = true).
Proof.
  unfold is_failure, main_includes.
  destruct (ExceptionLog.main log) as [category|]; simpl.
  - rewrite !orb_true_iff. split.
    + intros [[H|H]|H]; exists category; auto.
    + intros (c & Hc & H). injection Hc as ->. tauto.
  - split; [discriminate|]. intros (c & Hc & _). discriminate.
Qed.

(** The window divided by the failure count, before the rounding. *)
Lemma mtbf_by_count (n : nat) :
  (if (1 <? n)%nat then (24 * 7) / Js.of_nat n else 24 * 7)
  = (24 * 7) / Js.of_nat (Nat.max 1 n).
Proof.
  destruct n as [|[|n]]; reflexivity.
Qed.

End Mtbf.

(** C7, as stated, fails.  Two exceptions of category "Timeout" are
    failures in the sense of the claim, but the code counts none of them
    and returns the full window, not 168 / 2; and for nine failures the
    code returns 18.67, not 168 / 9. *)
Lemma mtbf_claim_fails :
  length (List.filter Spec.is_failure
            (AnalyticsService.exceptions_of "A" Inputs.two_timeouts)) = 2%nat
  /\ DevicePerformanceMetrics.criticalExceptions
       (AnalyticsService.calculateDevicePerformanceMetrics quiet_env "A" []
          Inputs.two_timeouts) = 0%nat
  /\ DevicePerformanceMetrics.mtbf
       (AnalyticsService.calculateDevicePerformanceMetrics quiet_env "A" []
          Inputs.two_timeouts) <> Spec.mtbf 2
  /\ length (List.filter Spec.is_failure
               (AnalyticsService.exceptions_of "A" Inputs.nine_errors)) = 9%nat
  /\ DevicePerformanceMetrics.mtbf
       (AnalyticsService.calculateDevicePerformanceMetrics quiet_env "A" []
          Inputs.nine_errors) = 18.67%float
  /\ DevicePerformanceMetrics.mtbf
       (AnalyticsService.calculateDevicePerformanceMetrics quiet_env "A" []
          Inputs.nine_errors) <> Spec.mtbf 9.
Proof.
  split; [reflexivity|]. split; [reflexivity|].
  split; [numbers_differ|]. split; [reflexivity|].
  split; [reflexivity|numbers_differ].
Qed.

(** C7, amended.  [calculateDevicePerformanceMetrics] counts as a failure
    exactly those exceptions of the device whose category text contains,
    case-insensitively, "server down", "connection timeout" or "error",
    and returns mtbf = (24 x 7) / max(1, failureCount) rounded to two
    decimals; with fewer than 2 failures the MTBF is the full 168-hour
    window. *)
Theorem mtbf_formula (env : Env) (imei : string)
    (ignitionLogs : list IgnitionLog.t) (exceptionLogs : list ExceptionLog.t) :
  let failures :=
    List.filter AnalyticsService.is_failure
      (AnalyticsService.exceptions_of imei exceptionLogs) in
  let result :=
    AnalyticsService.calculateDevicePerformanceMetrics env imei ignitionLogs
      exceptionLogs in
  (forall log, In log failures <->
     In log exceptionLogs
     /\ ExceptionLog.deviceImei log = imei
     /\ exists category, ExceptionLog.main log = Some category
        /\ (Js.includes (Js.toLowerCase category) "server down" = true
            \/ Js.includes (Js.toLowerCase category) "connection timeout"
               = true
            \/ Js.includes (Js.toLowerCase category) "error" = true))
  /\ DevicePerformanceMetrics.criticalExceptions result = length failures
  /\ DevicePerformanceMetrics.mtbf result
     = AnalyticsService.round2
         ((24 * 7) / Js.of_nat (Nat.max 1 (length failures)))%float
  /\ ((length failures < 2)%nat ->
      DevicePerformanceMetrics.mtbf result = 168%float).
Proof.
  intros failures result. split; [|split; [|split]].
  - intros log. subst failures.
    unfold AnalyticsService.exceptions_of.
    rewrite !filter_In, is_failure_iff, String.eqb_eq. tauto.
  - reflexivity.
  - subst result. unfold AnalyticsService.calculateDevicePerformanceMetrics.
    cbn [DevicePerformanceMetrics.mtbf]. fold failures.
    rewrite mtbf_by_count. reflexivity.
  - intros Hfew. subst result.
    unfold AnalyticsService.calculateDevicePerformanceMetrics.
    cbn [DevicePerformanceMetrics.mtbf]. fold failures.
    destruct (length failures) as [|[|n]]; [reflexivity|reflexivity|lia].
Qed.

Lemma mtbf_formula_witness :
  DevicePerformanceMetrics.mtbf
    (AnalyticsService.calculateDevicePerformanceMetrics quiet_env "A" []
       Inputs.two_timeouts) = 168%float
  /\ In (Inputs.exception "A" "Error")
       (List.filter AnalyticsService.is_failure
          (AnalyticsService.exceptions_of "A" Inputs.nine_errors)).
Proof.
  destruct (mtbf_formula quiet_env "A" [] Inputs.two_timeouts)
    as (_ & _ & _ & Hfew).
  destruct (mtbf_formula quiet_env "A" [] Inputs.nine_errors)
    as (Hin & _).
  split.
  - apply Hfew. vm_compute. lia.
  - apply Hin. split; [left; reflexivity|]. split; [reflexivity|].
    exists "Error". split; [reflexivity|]. right. right. reflexivity.
Defined.

(* ===================================================================== *)
(** * Facts about arrays and insertion-ordered maps *)
(* ===================================================================== *)

Section ArrayFacts.
Context {A B : Type}.

Lemma filter_map_comm (f : A -> B) (p : B -> bool) (l : list A) :
  List.filter p (List.map f l) = List.map f (List.filter (fun x => p (f x)) l).
Proof.
  induction l as [|x l IH]; simpl; [reflexivity|].
  destruct (p (f x)); simpl; rewrite IH; reflexivity.
Qed.

Lemma slice_last_map (f : A -> B) (n : nat) (l : list A) :
  Js.slice_last n (List.map f l) = List.map f (Js.slice_last n l).
Proof.
  unfold Js.slice_last. rewrite length_map. apply skipn_map.
Qed.

Lemma sort_insert_map (f : A -> B) (cmp : B -> B -> option Z) (x : A)
    (l : list A) :
  Js.sort_insert cmp (f x) (List.map f l)
  = List.map f (Js.sort_insert (fun a b => cmp (f a) (f b)) x l).
Proof.
  induction l as [|y l IH]; simpl; [reflexivity|].
  destruct (cmp (f x) (f y)) as [c|]; [destruct (c <? 0)%Z|]; simpl;
    rewrite ?IH; reflexivity.
Qed.

Lemma sort_map (f : A -> B) (cmp : B -> B -> option Z) (l : list A) :
  Js.sort cmp (List.map f l)
  = List.map f (Js.sort (fun a b => cmp (f a) (f b)) l).
Proof.
  unfold Js.sort.
  change (@nil B) with (List.map f []).
  generalize (@nil A) as acc.
  induction l as [|x l IH]; intros acc; simpl; [reflexivity|].
  rewrite sort_insert_map. apply IH.
Qed.

End ArrayFacts.

Section OrderedMapFacts.
Context {V : Type}.
Implicit Types (m : OrderedMap.t V) (k : string) (v : V).

Lemma has_get k m :
  OrderedMap.has k m = match OrderedMap.get k m with
                       | Some _ => true
                       | None => false
                       end.
Proof.
  induction m as [|[k' v'] m IH]; simpl; [reflexivity|].
  destruct (String.eqb k' k); [reflexivity|exact IH].
Qed.

Lemma get_set k k' v m :
  OrderedMap.get k' (OrderedMap.set k v m)
  = if String.eqb k k' then Some v else OrderedMap.get k' m.
Proof.
  induction m as [|[k0 v0] m IH]; simpl.
  - reflexivity.
  - destruct (String.eqb k0 k) eqn:E0; simpl.
    + apply String.eqb_eq in E0. subst k0.
      destruct (String.eqb k k'); reflexivity.
    + destruct (String.eqb k0 k') eqn:E1; [|exact IH].
      apply String.eqb_eq in E1. subst k0.
      rewrite String.eqb_sym, E0. reflexivity.
Qed.

Lemma get_update k k' (f : V -> V) m :
  OrderedMap.get k' (OrderedMap.update k f m)
  = if String.eqb k k' then option_map f (OrderedMap.get k m)
    else OrderedMap.get k' m.
Proof.
  induction m as [|[k0 v0] m IH]; simpl.
  - destruct (String.eqb k k'); reflexivity.
  - destruct (String.eqb k0 k) eqn:E0; simpl.
    + apply String.eqb_eq in E0. subst k0.
      destruct (String.eqb k k'); reflexivity.
    + destruct (String.eqb k0 k') eqn:E1.
      * apply String.eqb_eq in E1. subst k0.
        rewrite String.eqb_sym, E0. reflexivity.
      * exact IH.
Qed.

Lemma keys_update k (f : V -> V) m :
  List.map fst (OrderedMap.update k f m) = List.map fst m.
Proof.
  induction m as [|[k0 v0] m IH]; simpl; [reflexivity|].
  destruct (String.eqb k0 k); simpl; [reflexivity|].
  rewrite IH. reflexivity.
Qed.

Lemma keys_set_new k v m :
  OrderedMap.has k m = false ->
  List.map fst (OrderedMap.set k v m) = List.map fst m ++ [k].
Proof.
  induction m as [|[k0 v0] m IH]; simpl; [reflexivity|].
  destruct (String.eqb k0 k); [discriminate|].
  intros H. simpl. rewrite (IH H). reflexivity.
Qed.

Lemma has_false_not_key k m :
  OrderedMap.has k m = false -> ~ In k (List.map fst m).
Proof.
  induction m as [|[k0 v0] m IH]; simpl; [tauto|].
  destruct (String.eqb k0 k) eqn:E0; [discriminate|].
  apply String.eqb_neq in E0. intros H [Hk|Hk]; [congruence|].
  exact (IH H Hk).
Qed.

Lemma In_get k v m :
  List.NoDup (List.map fst m) -> In (k, v) m -> OrderedMap.get k m = Some v.
Proof.
  induction m as [|[k0 v0] m IH]; simpl; [tauto|].
  intros Hnd [Heq|Hin].
  - injection Heq as -> ->. rewrite String.eqb_refl. reflexivity.
  - inversion Hnd as [|? ? Hnotin Hnd']; subst.
    destruct (String.eqb k0 k) eqn:E0.
    + apply String.eqb_eq in E0. subst k0. exfalso. apply Hnotin.
      apply (in_map fst) in Hin. exact Hin.
    + exact (IH Hnd' Hin).
Qed.

End OrderedMapFacts.

(* ===================================================================== *)
(** * The grouping by device *)
(* ===================================================================== *)

Section Grouping.
Import AnalyticsService.
Implicit Types (groups : OrderedMap.t DeviceGroup) (k : string).

Lemma get_ensure_group k k' groups :
  OrderedMap.get k' (ensure_group k groups)
  = if String.eqb k k'
    then Some (match OrderedMap.get k groups with
               | Some g => g
               | None => {| ignitions := []; exceptions := [] |}
               end)
    else OrderedMap.get k' groups.
Proof.
  unfold ensure_group. rewrite has_get.
  destruct (String.eqb k k') eqn:E.
  - apply String.eqb_eq in E. subst k'.
    destruct (OrderedMap.get k groups) as [g|] eqn:Hg.
    + exact Hg.
    + rewrite get_set, String.eqb_refl. reflexivity.
  - destruct (OrderedMap.get k groups); [reflexivity|].
    rewrite get_set, E. reflexivity.
Qed.

Lemma keys_ensure_group k groups :
  List.NoDup (List.map fst groups) ->
  List.NoDup (List.map fst (ensure_group k groups)).
Proof.
  intros Hnd. unfold ensure_group.
  destruct (OrderedMap.has k groups) eqn:Hhas; [exact Hnd|].
  rewrite (keys_set_new _ _ _ Hhas).
  apply List.NoDup_rev in Hnd.
  rewrite <- (rev_involutive (List.map fst groups ++ [k])).
  apply List.NoDup_rev. rewrite rev_app_distr. simpl.
  constructor; [|exact Hnd].
  rewrite <- in_rev. apply has_false_not_key. exact Hhas.
Qed.

Lemma get_push_ignition groups log k :
  OrderedMap.get k (push_ignition groups log)
  = if String.eqb (IgnitionLog.deviceImei log) k
    then Some (match OrderedMap.get k groups with
               | Some g => {| ignitions := ignitions g ++ [log];
                              exceptions := exceptions g |}
               | None => {| ignitions := [log]; exceptions := [] |}
               end)
    else OrderedMap.get k groups.
Proof.
  unfold push_ignition. rewrite get_update, !get_ensure_group.
  rewrite String.eqb_refl.
  destruct (String.eqb (IgnitionLog.deviceImei log) k) eqn:E.
  - apply String.eqb_eq in E. subst k.
    destruct (OrderedMap.get _ groups); reflexivity.
  - reflexivity.
Qed.

Lemma get_push_exception groups log k :
  OrderedMap.get k (push_exception groups log)
  = if String.eqb (ExceptionLog.deviceImei log) k
    then Some (match OrderedMap.get k groups with
               | Some g => {| ignitions := ignitions g;
                              exceptions := exceptions g ++ [log] |}
               | None => {| ignitions := []; exceptions := [log] |}
               end)
    else OrderedMap.get k groups.
Proof.
  unfold push_exception. rewrite get_update, !get_ensure_group.
  rewrite String.eqb_refl.
  destruct (String.eqb (ExceptionLog.deviceImei log) k) eqn:E.
  - apply String.eqb_eq in E. subst k.
    destruct (OrderedMap.get _ groups); reflexivity.
  - reflexivity.
Qed.

Lemma get_fold_push_ignition logs groups k :
  OrderedMap.get k (fold_left push_ignition logs groups)
  = match OrderedMap.get k groups with
    | Some g => Some {| ignitions := ignitions g ++ ignitions_of k logs;
                        exceptions := exceptions g |}
    | None =>
        match ignitions_of k logs with
        | [] => None
        | l => Some {| ignitions := l; exceptions := [] |}
        end
    end.
Proof.
  revert groups. induction logs as [|log logs IH]; intros groups; simpl.
  - destruct (OrderedMap.get k groups) as [[i e]|]; simpl;
      rewrite ?app_nil_r; reflexivity.
  - rewrite IH, get_push_ignition.
    destruct (String.eqb (IgnitionLog.deviceImei log) k).
    + destruct (OrderedMap.get k groups) as [g|]; simpl;
        rewrite <- ?app_assoc; reflexivity.
    + reflexivity.
Qed.

Lemma get_fold_push_exception logs groups k :
  OrderedMap.get k (fold_left push_exception logs groups)
  = match OrderedMap.get k groups with
    | Some g => Some {| ignitions := ignitions g;
                        exceptions := exceptions g ++ exceptions_of k logs |}
    | None =>
        match exceptions_of k logs with
        | [] => None
        | l => Some {| ignitions := []; exceptions := l |}
        end
    end.
Proof.
  revert groups. induction logs as [|log logs IH]; intros groups; simpl.
  - destruct (OrderedMap.get k groups) as [[i e]|]; simpl;
      rewrite ?app_nil_r; reflexivity.
  - rewrite IH, get_push_exception.
    destruct (String.eqb (ExceptionLog.deviceImei log) k).
    + destruct (OrderedMap.get k groups) as [g|]; simpl;
        rewrite <- ?app_assoc; reflexivity.
    + reflexivity.
Qed.

Lemma keys_fold_push_ignition logs groups :
  List.NoDup (List.map fst groups) ->
  List.NoDup (List.map fst (fold_left push_ignition logs groups)).
Proof.
  revert groups. induction logs as [|log logs IH]; intros groups Hnd; simpl;
    [exact Hnd|].
  apply IH. unfold push_ignition. rewrite keys_update.
  apply keys_ensure_group. exact Hnd.
Qed.

Lemma keys_fold_push_exception logs groups :
  List.NoDup (List.map fst groups) ->
  List.NoDup (List.map fst (fold_left push_exception logs groups)).
Proof.
  revert groups. induction logs as [|log logs IH]; intros groups Hnd; simpl;
    [exact Hnd|].
  apply IH. unfold push_exception. rewrite keys_update.
  apply keys_ensure_group. exact Hnd.
Qed.

(** Each group holds the logs of its device, in their order. *)
Lemma group_by_device_spec (ignitionLogs : list IgnitionLog.t)
    (exceptionLogs : list ExceptionLog.t) k (g : DeviceGroup) :
  In (k, g) (group_by_device ignitionLogs exceptionLogs) ->
  g = {| ignitions := ignitions_of k ignitionLogs;
         exceptions := exceptions_of k exceptionLogs |}.
Proof.
  intros Hin. apply In_get in Hin.
  - unfold group_by_device in Hin.
    rewrite get_fold_push_exception, get_fold_push_ignition in Hin.
    simpl in Hin.
    destruct (ignitions_of k ignitionLogs) as [|i il]; simpl in Hin.
    + destruct (exceptions_of k exceptionLogs); [discriminate|].
      injection Hin as <-. reflexivity.
    + injection Hin as <-. reflexivity.
  - apply keys_fold_push_exception, keys_fold_push_ignition. constructor.
Qed.

End Grouping.

(* ===================================================================== *)
(** * Properties of the anomaly detection *)
(* ===================================================================== *)

Section VoltageDrop.
Import AnalyticsService.
Local Open Scope float_scope.

(** The voltage computations read the logs through their [voltage] field
    only. *)
Lemma voltage_view (n : nat) (l : list IgnitionLog.t) :
  List.map voltage_of (Js.slice_last n (List.filter has_voltage l))
  = List.map Js.non_null
      (Js.slice_last n
         (List.filter Js.truthy_opt (List.map IgnitionLog.voltage l))).
Proof.
  rewrite filter_map_comm, slice_last_map, map_map. reflexivity.
Qed.

Lemma voltage_anomaly_declining (env : Env) (imei : string)
    (l : list IgnitionLog.t) :
  List.map IgnitionLog.voltage l = List.map Some Inputs.declining ->
  voltage_anomaly env imei l = [].
Proof.
  intros Hl. unfold voltage_anomaly. rewrite voltage_view, Hl. reflexivity.
Qed.

(** The slope depends on the voltages only; on the declining series it
    is negative. *)
Lemma slope_declining (readings : list Reading) :
  List.map reading_voltage readings = Inputs.declining ->
  (calculateVoltageTrend readings <? 0) = true.
Proof.
  intros Hv.
  destruct readings as [|[v1 t1] [|[v2 t2] [|[v3 t3] [|[v4 t4]
    [|[v5 t5] [|r6 readings]]]]]]; try discriminate Hv.
  injection Hv as -> -> -> -> ->. reflexivity.
Qed.

Lemma restart_anomaly_type (env : Env) (imei : string)
    (l : list ExceptionLog.t) (a : Anomaly.t) :
  In a (restart_anomaly env imei l) -> Anomaly.type a = frequent_restarts.
Proof.
  unfold restart_anomaly.
  destruct (5 <? length _)%nat; simpl; [|tauto].
  intros [<-|[]]. reflexivity.
Qed.

Lemma voltage_anomaly_imei (env : Env) (imei : string)
    (l : list IgnitionLog.t) (a : Anomaly.t) :
  In a (voltage_anomaly env imei l) -> Anomaly.imei a = imei.
Proof.
  unfold voltage_anomaly.
  destruct (3 <=? length _)%nat; simpl; [|tauto].
  destruct (_ <? 11.5); simpl; [|tauto].
  intros [<-|[]]. reflexivity.
Qed.

End VoltageDrop.

(** C6, as stated, fails: on the five declining readings
    [detectAnomalies] emits nothing, hence no voltage-drop anomaly. *)
Lemma declining_readings_raise_no_anomaly :
  ~ exists a,
      In a (AnalyticsService.detectAnomalies quiet_env Inputs.declining_logs [])
      /\ Anomaly.type a = voltage_drop
      /\ Anomaly.severity a = high.
Proof.
  intros (a & Hin & _). vm_compute in Hin. exact Hin.
Qed.

(** C6, amended.  For a device whose ignition logs carry exactly the
    voltage readings 12.4, 12.2, 12.0, 11.8, 11.6 at 5 successive indices,
    the least-squares slope fitted over the reading index is negative, and
    [detectAnomalies] emits no anomaly of kind voltage_drop for that
    device: the mean of the readings, 12.0, is not below the 11.5 V
    threshold. *)
Theorem declining_readings_slope_and_anomaly (env : Env) (imei : string)
    (ignitionLogs : list IgnitionLog.t) (exceptionLogs : list ExceptionLog.t) :
  List.map IgnitionLog.voltage
    (AnalyticsService.ignitions_of imei ignitionLogs)
  = List.map Some Inputs.declining ->
  (forall readings,
      List.map reading_voltage readings = Inputs.declining ->
      PrimFloat.ltb (AnalyticsService.calculateVoltageTrend readings) 0 = true)
  /\ (forall a,
        In a (AnalyticsService.detectAnomalies env ignitionLogs exceptionLogs) ->
        Anomaly.imei a = imei -> Anomaly.type a <> voltage_drop).
Proof.
  intros Hv. split; [exact slope_declining|].
  intros a Hin Himei. unfold AnalyticsService.detectAnomalies in Hin.
  apply in_flat_map in Hin as ([k g] & Hkg & Ha).
  apply group_by_device_spec in Hkg. subst g. simpl in Ha.
  apply in_app_or in Ha as [Ha|Ha].
  - pose proof (voltage_anomaly_imei _ _ _ _ Ha) as Hk.
    rewrite Himei in Hk. subst k.
    rewrite (voltage_anomaly_declining _ _ _ Hv) in Ha. destruct Ha.
  - rewrite (restart_anomaly_type _ _ _ _ Ha). discriminate.
Qed.

Lemma declining_readings_slope_and_anomaly_witness :
  PrimFloat.ltb
    (AnalyticsService.calculateVoltageTrend
       (List.map (fun v => {| reading_voltage := v;
                              reading_timestamp := Some 0 |})
          Inputs.declining)) 0 = true
  /\ AnalyticsService.detectAnomalies quiet_env Inputs.declining_logs
       Inputs.two_timeouts = [].
Proof.
  destruct (declining_readings_slope_and_anomaly quiet_env "356938035643809"
              Inputs.declining_logs Inputs.two_timeouts eq_refl)
    as (Hslope & _).
  split; [apply Hslope|]; reflexivity.
Defined.

(* ===================================================================== *)
(** * A reading of zero is no reading *)
(* ===================================================================== *)

Section ZeroReadings.
Import DateFns DateUtils AnalyticsService Spec.
Variable env : Env.

Lemma has_voltage_zero_as_absent (log : IgnitionLog.t) :
  has_voltage (zero_as_absent log) = has_voltage log.
Proof.
  destruct log as [i d t [v|]]; unfold has_voltage; simpl; [|reflexivity].
  unfold Js.truthy. destruct (PrimFloat.is_zero v) eqn:Hz; simpl.
  - reflexivity.
  - unfold Js.truthy. rewrite Hz. reflexivity.
Qed.

Lemma zero_as_absent_with_voltage (log : IgnitionLog.t) :
  has_voltage log = true -> zero_as_absent log = log.
Proof.
  destruct log as [i d t [v|]]; unfold has_voltage, zero_as_absent; simpl;
    [|discriminate].
  unfold Js.truthy. destruct (PrimFloat.is_zero v); [discriminate|].
  reflexivity.
Qed.

(** The logs that carry a reading are the same before and after. *)
Lemma filter_has_voltage_zero_as_absent (l : list IgnitionLog.t) :
  List.filter has_voltage (List.map zero_as_absent l)
  = List.filter has_voltage l.
Proof.
  induction l as [|x l IH]; simpl; [reflexivity|].
  rewrite has_voltage_zero_as_absent.
  destruct (has_voltage x) eqn:Hx; [|exact IH].
  rewrite (zero_as_absent_with_voltage x Hx), IH. reflexivity.
Qed.

Lemma ignitions_of_zero_as_absent (imei : string) (l : list IgnitionLog.t) :
  ignitions_of imei (List.map zero_as_absent l)
  = List.map zero_as_absent (ignitions_of imei l).
Proof.
  unfold ignitions_of. apply filter_map_comm.
Qed.

Lemma spread_zero_as_absent (igs : list IgnitionLog.t)
    (excs : list ExceptionLog.t) :
  spread (List.map zero_as_absent igs) excs
  = List.map zero_as_absent_any (spread igs excs).
Proof.
  unfold spread. rewrite map_app, !map_map. reflexivity.
Qed.

Lemma log_timestamp_zero_as_absent (log : AnyLog) :
  log_timestamp (zero_as_absent_any log) = log_timestamp log.
Proof. destruct log; reflexivity. Qed.

(** A selection by time stamp commutes with the change of readings. *)
Lemma filter_by_timestamp (p : Timestamp -> bool) (l : list AnyLog) :
  List.filter (fun log => p (log_timestamp log))
    (List.map zero_as_absent_any l)
  = List.map zero_as_absent_any
      (List.filter (fun log => p (log_timestamp log)) l).
Proof.
  rewrite filter_map_comm. f_equal. apply List.filter_ext.
  intros log. rewrite log_timestamp_zero_as_absent. reflexivity.
Qed.

Lemma map_by_timestamp {B : Type} (f : Timestamp -> B) (l : list AnyLog) :
  List.map (fun log => f (log_timestamp log)) (List.map zero_as_absent_any l)
  = List.map (fun log => f (log_timestamp log)) l.
Proof.
  rewrite map_map. apply List.map_ext.
  intros log. rewrite log_timestamp_zero_as_absent. reflexivity.
Qed.

Lemma sort_by_timestamp (cmp : Timestamp -> Timestamp -> option Z)
    (l : list AnyLog) :
  Js.sort (fun a b => cmp (log_timestamp a) (log_timestamp b))
    (List.map zero_as_absent_any l)
  = List.map zero_as_absent_any
      (Js.sort (fun a b => cmp (log_timestamp a) (log_timestamp b)) l).
Proof.
  rewrite sort_map. f_equal. unfold Js.sort.
  generalize (@nil AnyLog) as acc.
  induction l as [|x l IH]; intros acc; simpl; [reflexivity|].
  rewrite <- IH. f_equal. clear IH.
  induction acc as [|y acc IHacc]; simpl; [reflexivity|].
  rewrite !log_timestamp_zero_as_absent, IHacc. reflexivity.
Qed.

Lemma health_score_zero_as_absent (imei : string)
    (ignitionLogs : list IgnitionLog.t) (exceptionLogs : list ExceptionLog.t) :
  calculateDeviceHealthScore env imei (List.map zero_as_absent ignitionLogs)
    exceptionLogs
  = calculateDeviceHealthScore env imei ignitionLogs exceptionLogs.
Proof.
  unfold calculateDeviceHealthScore.
  rewrite ignitions_of_zero_as_absent, spread_zero_as_absent.
  rewrite !filter_by_timestamp, !length_map.
  rewrite filter_has_voltage_zero_as_absent. reflexivity.
Qed.

Lemma performance_metrics_zero_as_absent (imei : string)
    (ignitionLogs : list IgnitionLog.t) (exceptionLogs : list ExceptionLog.t) :
  calculateDevicePerformanceMetrics env imei
    (List.map zero_as_absent ignitionLogs) exceptionLogs
  = calculateDevicePerformanceMetrics env imei ignitionLogs exceptionLogs.
Proof.
  unfold calculateDevicePerformanceMetrics.
  rewrite ignitions_of_zero_as_absent, spread_zero_as_absent.
  rewrite !filter_by_timestamp.
  rewrite (map_by_timestamp
             (fun ts => format env (parseTimestamp env ts) "yyyy-MM-dd-HH")).
  rewrite (sort_by_timestamp
             (fun a b => diff (getSafeTimestamp env b) (getSafeTimestamp env a))).
  rewrite filter_has_voltage_zero_as_absent.
  destruct (Js.sort _ _) as [|first rest]; simpl;
    rewrite ?log_timestamp_zero_as_absent; reflexivity.
Qed.

End ZeroReadings.

Section OrderedMapValues.
Context {V : Type}.
Variable h : V -> V.
Implicit Types (m : OrderedMap.t V) (k : string).

Lemma has_map_values k m :
  OrderedMap.has k (OrderedMap.map_values h m) = OrderedMap.has k m.
Proof.
  induction m as [|[k' v'] m IH]; simpl; [reflexivity|].
  destruct (String.eqb k' k); [reflexivity|exact IH].
Qed.

Lemma set_map_values k (v : V) m :
  OrderedMap.set k (h v) (OrderedMap.map_values h m)
  = OrderedMap.map_values h (OrderedMap.set k v m).
Proof.
  unfold OrderedMap.map_values.
  induction m as [|[k' v'] m IH]; simpl; [reflexivity|].
  destruct (String.eqb k' k); simpl; [reflexivity|].
  rewrite IH. reflexivity.
Qed.

Lemma update_map_values k (f f' : V -> V) m :
  (forall v, f (h v) = h (f' v)) ->
  OrderedMap.update k f (OrderedMap.map_values h m)
  = OrderedMap.map_values h (OrderedMap.update k f' m).
Proof.
  intros Hf. unfold OrderedMap.map_values.
  induction m as [|[k' v'] m IH]; simpl; [reflexivity|].
  destruct (String.eqb k' k); simpl.
  - rewrite Hf. reflexivity.
  - rewrite IH. reflexivity.
Qed.

End OrderedMapValues.

Section ZeroReadingsByDevice.
Import DateFns DateUtils AnalyticsService Spec.
Variable env : Env.
Implicit Types (groups : OrderedMap.t DeviceGroup).

Lemma ensure_group_zero_as_absent (k : string) groups :
  ensure_group k (OrderedMap.map_values zero_as_absent_group groups)
  = OrderedMap.map_values zero_as_absent_group (ensure_group k groups).
Proof.
  unfold ensure_group. rewrite has_map_values.
  destruct (OrderedMap.has k groups); [reflexivity|].
  apply (set_map_values zero_as_absent_group k
           {| ignitions := []; exceptions := [] |}).
Qed.

Lemma push_ignition_zero_as_absent groups (log : IgnitionLog.t) :
  push_ignition (OrderedMap.map_values zero_as_absent_group groups)
    (zero_as_absent log)
  = OrderedMap.map_values zero_as_absent_group (push_ignition groups log).
Proof.
  unfold push_ignition. simpl. rewrite ensure_group_zero_as_absent.
  apply update_map_values.
  intros g. unfold zero_as_absent_group. simpl.
  rewrite map_app. reflexivity.
Qed.

Lemma push_exception_zero_as_absent groups (log : ExceptionLog.t) :
  push_exception (OrderedMap.map_values zero_as_absent_group groups) log
  = OrderedMap.map_values zero_as_absent_group (push_exception groups log).
Proof.
  unfold push_exception. rewrite ensure_group_zero_as_absent.
  apply update_map_values.
  intros g. reflexivity.
Qed.

Lemma group_by_device_zero_as_absent (ignitionLogs : list IgnitionLog.t)
    (exceptionLogs : list ExceptionLog.t) :
  group_by_device (List.map zero_as_absent ignitionLogs) exceptionLogs
  = OrderedMap.map_values zero_as_absent_group
      (group_by_device ignitionLogs exceptionLogs).
Proof.
  unfold group_by_device.
  change (@nil (string * DeviceGroup))
    with (OrderedMap.map_values zero_as_absent_group []) at 1.
  generalize (@nil (string * DeviceGroup)) as groups.
  induction ignitionLogs as [|log logs IH]; intros groups; simpl.
  - revert groups.
    induction exceptionLogs as [|e es IHe]; intros groups; simpl;
      [reflexivity|].
    rewrite push_exception_zero_as_absent. apply IHe.
  - rewrite push_ignition_zero_as_absent. apply IH.
Qed.

Lemma voltage_anomaly_zero_as_absent (imei : string)
    (l : list IgnitionLog.t) :
  voltage_anomaly env imei (List.map zero_as_absent l)
  = voltage_anomaly env imei l.
Proof.
  unfold voltage_anomaly. rewrite filter_has_voltage_zero_as_absent.
  reflexivity.
Qed.

Lemma battery_alert_zero_as_absent (imei : string)
    (l : list IgnitionLog.t) :
  battery_alert env imei (List.map zero_as_absent l)
  = battery_alert env imei l.
Proof.
  unfold battery_alert. rewrite filter_has_voltage_zero_as_absent.
  reflexivity.
Qed.

Lemma flat_map_map_values {B : Type}
    (body body' : string * DeviceGroup -> list B) groups :
  (forall k g, body (k, zero_as_absent_group g) = body' (k, g)) ->
  flat_map body (OrderedMap.map_values zero_as_absent_group groups)
  = flat_map body' groups.
Proof.
  intros Hbody. unfold OrderedMap.map_values.
  induction groups as [|[k g] groups IH]; simpl; [reflexivity|].
  rewrite IH, Hbody. reflexivity.
Qed.

Lemma detectAnomalies_zero_as_absent (ignitionLogs : list IgnitionLog.t)
    (exceptionLogs : list ExceptionLog.t) :
  detectAnomalies env (List.map zero_as_absent ignitionLogs) exceptionLogs
  = detectAnomalies env ignitionLogs exceptionLogs.
Proof.
  unfold detectAnomalies. rewrite group_by_device_zero_as_absent.
  apply flat_map_map_values. intros k g. simpl.
  rewrite voltage_anomaly_zero_as_absent. reflexivity.
Qed.

Lemma predictive_alerts_zero_as_absent (ignitionLogs : list IgnitionLog.t)
    (exceptionLogs : list ExceptionLog.t) :
  generatePredictiveAlerts env (List.map zero_as_absent ignitionLogs)
    exceptionLogs
  = generatePredictiveAlerts env ignitionLogs exceptionLogs.
Proof.
  unfold generatePredictiveAlerts. rewrite group_by_device_zero_as_absent.
  apply flat_map_map_values. intros k g. simpl.
  rewrite battery_alert_zero_as_absent. reflexivity.
Qed.

Lemma same_but_zero_zero_as_absent (a b : IgnitionLog.t) :
  same_but_zero a b -> zero_as_absent a = zero_as_absent b.
Proof.
  destruct a as [ia da ta va], b as [ib db tb vb].
  unfold same_but_zero, zero_as_absent. simpl.
  intros (-> & -> & -> & [->|[Ha Hb]]); [reflexivity|].
  destruct va as [va|], vb as [vb|]; simpl in Ha, Hb;
    rewrite ?Ha, ?Hb; reflexivity.
Qed.

Lemma Forall2_same_but_zero (l l' : list IgnitionLog.t) :
  Forall2 same_but_zero l l' ->
  List.map zero_as_absent l = List.map zero_as_absent l'.
Proof.
  induction 1 as [|a b l l' Hab _ IH]; simpl; [reflexivity|].
  rewrite (same_but_zero_zero_as_absent a b Hab), IH. reflexivity.
Qed.

End ZeroReadingsByDevice.

(** C10.  A voltage reading of exactly 0 is treated as an absent reading:
    two lists of ignition logs that differ only in that some readings are
    absent in one and 0 in the other give the same health score (battery
    health included), the same performance metrics (average voltage
    included), the same anomalies and the same predictive alerts, for
    every device and every list of exception logs. *)
Theorem zero_reading_is_absent (env : Env) (imei : string)
    (ignitionLogs ignitionLogs' : list IgnitionLog.t)
    (exceptionLogs : list ExceptionLog.t) :
  Forall2 Spec.same_but_zero ignitionLogs ignitionLogs' ->
  AnalyticsService.calculateDeviceHealthScore env imei ignitionLogs
    exceptionLogs
  = AnalyticsService.calculateDeviceHealthScore env imei ignitionLogs'
      exceptionLogs
  /\ AnalyticsService.calculateDevicePerformanceMetrics env imei ignitionLogs
       exceptionLogs
     = AnalyticsService.calculateDevicePerformanceMetrics env imei
         ignitionLogs' exceptionLogs
  /\ AnalyticsService.detectAnomalies env ignitionLogs exceptionLogs
     = AnalyticsService.detectAnomalies env ignitionLogs' exceptionLogs
  /\ AnalyticsService.generatePredictiveAlerts env ignitionLogs exceptionLogs
     = AnalyticsService.generatePredictiveAlerts env ignitionLogs'
         exceptionLogs.
Proof.
  intros Hsame. apply Forall2_same_but_zero in Hsame.
  repeat split.
  - rewrite <- (health_score_zero_as_absent env imei ignitionLogs),
      <- (health_score_zero_as_absent env imei ignitionLogs'), Hsame.
    reflexivity.
  - rewrite <- (performance_metrics_zero_as_absent env imei ignitionLogs),
      <- (performance_metrics_zero_as_absent env imei ignitionLogs'), Hsame.
    reflexivity.
  - rewrite <- (detectAnomalies_zero_as_absent env ignitionLogs),
      <- (detectAnomalies_zero_as_absent env ignitionLogs'), Hsame.
    reflexivity.
  - rewrite <- (predictive_alerts_zero_as_absent env ignitionLogs),
      <- (predictive_alerts_zero_as_absent env ignitionLogs'), Hsame.
    reflexivity.
Qed.

Lemma zero_reading_is_absent_witness :
  AnalyticsService.calculateDeviceHealthScore quiet_env "A"
    Inputs.logs_with_zero Inputs.two_timeouts
  = AnalyticsService.calculateDeviceHealthScore quiet_env "A"
      Inputs.logs_with_absent Inputs.two_timeouts
  /\ AnalyticsService.calculateDevicePerformanceMetrics quiet_env "A"
       Inputs.logs_with_zero Inputs.two_timeouts
     = AnalyticsService.calculateDevicePerformanceMetrics quiet_env "A"
         Inputs.logs_with_absent Inputs.two_timeouts
  /\ AnalyticsService.detectAnomalies quiet_env Inputs.logs_with_zero
       Inputs.two_timeouts
     = AnalyticsService.detectAnomalies quiet_env Inputs.logs_with_absent
         Inputs.two_timeouts
  /\ AnalyticsService.generatePredictiveAlerts quiet_env
       Inputs.logs_with_zero Inputs.two_timeouts
     = AnalyticsService.generatePredictiveAlerts quiet_env
         Inputs.logs_with_absent Inputs.two_timeouts.
Proof.
  apply (zero_reading_is_absent quiet_env "A" Inputs.logs_with_zero
           Inputs.logs_with_absent Inputs.two_timeouts).
  unfold Inputs.logs_with_zero, Inputs.logs_with_absent.
  repeat
    (apply List.Forall2_cons;
     [ split; [reflexivity|split; [reflexivity|split; [reflexivity|]]];
       first [left; reflexivity | right; split; reflexivity]
     | ]).
  apply List.Forall2_nil.
Defined.

(* ===================================================================== *)
(** * Properties of the incident grouping *)
(* ===================================================================== *)

Section GroupingPass.
Import DateFns DateUtils NetworkIncidentService Spec.
Variable env : Env.

Lemma array_includes_In (l : list string) (x : string) :
  Js.array_includes l x = true <-> In x l.
Proof.
  unfold Js.array_includes. rewrite existsb_exists. split.
  - intros (y & Hy & Heq). apply String.eqb_eq in Heq. subst y. exact Hy.
  - intros Hx. exists x. split; [exact Hx|apply String.eqb_refl].
Qed.

Lemma find_index_Some {A : Type} (p : A -> bool) (l : list A) (i : nat) :
  Js.find_index p l = Some i -> exists x, l !! i = Some x /\ p x = true.
Proof.
  revert i. induction l as [|y l IH]; intros i; simpl; [discriminate|].
  destruct (p y) eqn:Hy.
  - intros [= <-]. exists y. split; [reflexivity|exact Hy].
  - destruct (Js.find_index p l) as [j|]; simpl; [|discriminate].
    intros [= <-]. apply (IH j). reflexivity.
Qed.

Lemma new_incident_subset (k : nat) (event : NetworkEvent.t) :
  recovered_within_affected (new_incident env k event).
Proof. intros device []. Qed.

Lemma add_affected_subset (device : string) (inc : NetworkIncident.t) :
  recovered_within_affected inc ->
  recovered_within_affected (add_affected device inc).
Proof.
  intros Hinc. unfold add_affected.
  destruct (Js.array_includes _ device); [exact Hinc|].
  intros d Hd. simpl in *. apply in_or_app. left. exact (Hinc d Hd).
Qed.

(** The sets of devices after a recovery. *)
Lemma mark_recovered_devices (event : NetworkEvent.t)
    (inc : NetworkIncident.t) :
  NetworkIncident.affectedDevices (mark_recovered event inc)
  = NetworkIncident.affectedDevices inc
  /\ NetworkIncident.recoveredDevices (mark_recovered event inc)
     = if Js.array_includes (NetworkIncident.recoveredDevices inc)
            (NetworkEvent.deviceImei event)
       then NetworkIncident.recoveredDevices inc
       else NetworkIncident.recoveredDevices inc
            ++ [NetworkEvent.deviceImei event].
Proof. split; reflexivity. Qed.

Lemma mark_recovered_subset (event : NetworkEvent.t)
    (inc : NetworkIncident.t) :
  In (NetworkEvent.deviceImei event) (NetworkIncident.affectedDevices inc) ->
  recovered_within_affected inc ->
  recovered_within_affected (mark_recovered event inc).
Proof.
  intros Haff Hinc d.
  destruct (mark_recovered_devices event inc) as [-> ->].
  destruct (Js.array_includes _ _); [apply Hinc|].
  intros Hd. apply in_app_or in Hd as [Hd|[<-|[]]]; [exact (Hinc d Hd)|].
  exact Haff.
Qed.

(** One event keeps the invariant. *)
Lemma step_subset (st : GroupState) (event : NetworkEvent.t) :
  Forall recovered_within_affected (incidents st) ->
  Forall recovered_within_affected (incidents (fst (step env st event))).
Proof.
  intros Hst. unfold step.
  destruct (NetworkEvent.eventType event); [| |exact Hst].
  - (* outage *)
    destruct (currentIncident st) as [i|];
      [destruct (incidents st !! i) as [inc|] eqn:Hi;
       [destruct (outside_window event inc)|]|]; simpl.
    + apply Forall_app. split; [exact Hst|].
      constructor; [apply new_incident_subset|constructor].
    + apply Forall_alter; [exact Hst|].
      intros x _. apply add_affected_subset.
    + apply Forall_app. split; [exact Hst|].
      constructor; [apply new_incident_subset|constructor].
    + apply Forall_app. split; [exact Hst|].
      constructor; [apply new_incident_subset|constructor].
  - (* recovery *)
    destruct (deviceOutages st !! NetworkEvent.deviceImei event);
      [|exact Hst].
    destruct (Js.find_index _ (incidents st)) as [i|] eqn:Hfind; simpl;
      [|exact Hst].
    apply find_index_Some in Hfind as (inc & Hi & Hp).
    apply andb_true_iff in Hp as [Hp _]. apply array_includes_In in Hp.
    apply Forall_alter; [exact Hst|].
    intros x Hx. rewrite Hi in Hx. injection Hx as <-.
    apply mark_recovered_subset. exact Hp.
Qed.

Lemma run_app (st : GroupState) (l1 l2 : list NetworkEvent.t) :
  fst (run env st (l1 ++ l2)) = fst (run env (fst (run env st l1)) l2).
Proof.
  revert st. induction l1 as [|e l1 IH]; intros st; simpl; [reflexivity|].
  destruct (step env st e) as [st1 e1] eqn:Hstep.
  specialize (IH st1).
  destruct (run env st1 (l1 ++ l2)) as [st2 r2].
  destruct (run env st1 l1) as [st3 r3]. simpl in *. exact IH.
Qed.

Lemma run_subset (st : GroupState) (events : list NetworkEvent.t) :
  Forall recovered_within_affected (incidents st) ->
  Forall recovered_within_affected (incidents (fst (run env st events))).
Proof.
  revert st. induction events as [|e events IH]; intros st Hst; simpl;
    [exact Hst|].
  pose proof (step_subset st e Hst) as Hstep.
  destruct (step env st e) as [st1 e1]. simpl in Hstep.
  specialize (IH st1 Hstep).
  destruct (run env st1 events) as [st2 r2]. exact IH.
Qed.

(** What the pass never does: a resolved incident keeps its status, its
    end time, its duration and its recovered devices through any event. *)
Lemma step_keeps_resolved (st : GroupState) (event : NetworkEvent.t)
    (i : nat) (inc : NetworkIncident.t) :
  incidents st !! i = Some inc ->
  NetworkIncident.status inc = resolved ->
  exists inc',
    incidents (fst (step env st event)) !! i = Some inc'
    /\ NetworkIncident.status inc' = resolved
    /\ NetworkIncident.endTime inc' = NetworkIncident.endTime inc
    /\ NetworkIncident.duration inc' = NetworkIncident.duration inc
    /\ NetworkIncident.recoveredDevices inc'
       = NetworkIncident.recoveredDevices inc.
Proof.
  intros Hi Hres.
  assert (Hnew : forall k,
             (incidents st ++ [new_incident env k event]) !! i = Some inc)
    by (intros k; apply lookup_app_l_Some; exact Hi).
  assert (Hadd : forall j,
             exists inc',
               alter (add_affected (NetworkEvent.deviceImei event)) j
                 (incidents st) !! i = Some inc'
               /\ NetworkIncident.status inc' = resolved
               /\ NetworkIncident.endTime inc' = NetworkIncident.endTime inc
               /\ NetworkIncident.duration inc'
                  = NetworkIncident.duration inc
               /\ NetworkIncident.recoveredDevices inc'
                  = NetworkIncident.recoveredDevices inc).
  { intros j. destruct (decide (j = i)) as [->|Hne].
    - rewrite list_lookup_alter_eq, Hi. simpl. eexists. split; [reflexivity|].
      unfold add_affected. destruct (Js.array_includes _ _); simpl; auto.
    - rewrite list_lookup_alter_ne by exact Hne. exists inc. auto. }
  unfold step.
  destruct (NetworkEvent.eventType event).
  - (* outage *)
    destruct (currentIncident st) as [j|];
      [destruct (incidents st !! j) as [cur|] eqn:Hj;
       [destruct (outside_window event cur)|]|]; simpl;
      try (exists inc; split; [apply Hnew|auto]).
    apply Hadd.
  - (* recovery *)
    destruct (deviceOutages st !! NetworkEvent.deviceImei event);
      [|exists inc; auto].
    destruct (Js.find_index _ (incidents st)) as [j|] eqn:Hfind; simpl;
      [|exists inc; auto].
    apply find_index_Some in Hfind as (found & Hj & Hp).
    apply andb_true_iff in Hp as [_ Hp].
    destruct (decide (j = i)) as [->|Hne].
    + rewrite Hi in Hj. injection Hj as <-.
      unfold is_ongoing in Hp. rewrite Hres in Hp. discriminate.
    + rewrite list_lookup_alter_ne by exact Hne. exists inc. auto.
  - exists inc. auto.
Qed.

Lemma finalize_subset (inc : NetworkIncident.t) :
  recovered_within_affected inc -> recovered_within_affected (finalize inc).
Proof. intros Hinc. exact Hinc. Qed.

End GroupingPass.

(** C2.  At every point of the grouping pass, that is after any number
    [n] of the events, and in every incident that [analyzeNetworkEvents]
    returns, every recovered device is an affected device. *)
Theorem recovered_subset_of_affected (env : Env) :
  (forall (events : list NetworkEvent.t) (n : nat),
      Forall Spec.recovered_within_affected
        (NetworkIncidentService.incidents
           (fst (NetworkIncidentService.run env
                   NetworkIncidentService.init_state (firstn n events)))))
  /\ (forall (events : list NetworkEvent.t),
        Forall Spec.recovered_within_affected
          (fst (NetworkIncidentService.groupEventsIntoIncidents env events)))
  /\ (forall (ignitionLogs : list IgnitionLog.t)
             (exceptionLogs : list ExceptionLog.t),
        Forall Spec.recovered_within_affected
          (NetworkIncidentService.analysis_incidents
             (NetworkIncidentService.analyzeNetworkEvents env ignitionLogs
                exceptionLogs))).
Proof.
  assert (Hgroup : forall events,
             Forall Spec.recovered_within_affected
               (fst (NetworkIncidentService.groupEventsIntoIncidents env
                       events))).
  { intros events. unfold NetworkIncidentService.groupEventsIntoIncidents.
    pose proof (run_subset env NetworkIncidentService.init_state events
                  (List.Forall_nil _)) as Hrun.
    destruct (NetworkIncidentService.run env _ events) as [st events'].
    simpl in *. apply List.Forall_forall. intros inc Hin.
    apply in_map_iff in Hin as (inc0 & <- & Hin0).
    apply finalize_subset. rewrite List.Forall_forall in Hrun.
    exact (Hrun inc0 Hin0). }
  split; [|split].
  - intros events n. apply run_subset. constructor.
  - exact Hgroup.
  - intros ignitionLogs exceptionLogs.
    unfold NetworkIncidentService.analyzeNetworkEvents.
    specialize (Hgroup (NetworkIncidentService.extractNetworkEvents env
                          exceptionLogs)).
    destruct (NetworkIncidentService.groupEventsIntoIncidents env _)
      as [incs evs]. exact Hgroup.
Qed.

(** C3, at its failing input.  Device A goes down and recovers, which
    resolves the incident; device B goes down one minute later.  The
    outage of B opens no new incident: B is added to the affected
    devices of the resolved incident, which stays resolved; the recovery
    of B that follows finds no ongoing incident and is dropped.  The same
    happens through [analyzeNetworkEvents], on logs that all fall back to
    the current time. *)
Theorem outage_joins_resolved_incident (env : Env) :
  let pass events :=
    NetworkIncidentService.incidents
      (fst (NetworkIncidentService.run env NetworkIncidentService.init_state
              events)) in
  List.map Inputs.summary (pass (firstn 2 Inputs.outage_after_resolution))
  = [(resolved, ["A"], ["A"])]
  /\ List.map Inputs.summary (pass Inputs.outage_after_resolution)
     = [(resolved, ["A"; "B"], ["A"])]
  /\ List.map Inputs.summary
       (pass (Inputs.outage_after_resolution
              ++ [Inputs.event "B" recovery 180000]))
     = [(resolved, ["A"; "B"], ["A"])]
  /\ List.map Inputs.summary
       (NetworkIncidentService.analysis_incidents
          (NetworkIncidentService.analyzeNetworkEvents quiet_env []
             Inputs.outage_after_resolution_logs))
     = [(resolved, ["A"; "B"], ["A"])].
Proof.
  split; [|split; [|split]]; vm_compute; reflexivity.
Qed.

(** The impact level is ten times the number of affected devices, as
    long as there are at most ten of them. *)
Lemma impact_level_up_to_ten (inc : NetworkIncident.t) :
  (length (NetworkIncident.affectedDevices inc) <= 10)%nat ->
  NetworkIncident.impactLevel (NetworkIncidentService.finalize inc)
  = Js.of_nat (10 * length (NetworkIncident.affectedDevices inc)).
Proof.
  unfold NetworkIncidentService.finalize. simpl.
  generalize (length (NetworkIncident.affectedDevices inc)) as n.
  intros n Hn.
  do 11 (destruct n as [|n]; [reflexivity|]). lia.
Qed.

(** C4, at its failing input.  Eleven devices report the server down
    within the same five minutes: one incident, whose impact level is
    [Math.round(11 / 10 * 100)] = 110, above 100. *)
Theorem impact_level_exceeds_100 :
  let incidents :=
    NetworkIncidentService.analysis_incidents
      (NetworkIncidentService.analyzeNetworkEvents quiet_env []
         Inputs.eleven_outages) in
  List.map NetworkIncident.affectedDevices incidents = [Inputs.eleven_devices]
  /\ List.map NetworkIncident.impactLevel incidents = [110%float]
  /\ PrimFloat.leb 110 100 = false.
Proof.
  split; [|split]; vm_compute; reflexivity.
Qed.

(* ===================================================================== *)
(** * Properties of the notification list *)
(* ===================================================================== *)

Section Notifications.
Import NotificationService.

Lemma firstn_app_firstn {A : Type} (n : nat) (a b : list A) :
  firstn n (a ++ firstn n b) = firstn n (a ++ b).
Proof.
  rewrite !List.firstn_app, List.firstn_firstn.
  f_equal. f_equal. lia.
Qed.

(** One call on an enabled service: the new notification in front, the
    list cut to its first 100 entries. *)
Lemma addNotification_notifications (id : string) (time : Z)
    (draft : Draft.t) (st : State) :
  isEnabled st = true ->
  notifications (fst (addNotification id time draft st))
  = firstn 100 (create id time draft :: notifications st)
  /\ isEnabled (fst (addNotification id time draft st)) = true.
Proof.
  intros Hen. unfold addNotification. rewrite Hen. simpl negb. cbv iota.
  cbn [fst with_notifications notifications isEnabled].
  split; [|exact Hen].
  destruct (100 <? length (create id time draft :: notifications st))%nat
    eqn:Hlen.
  - reflexivity.
  - apply Nat.ltb_ge in Hlen. symmetry. apply List.firstn_all2. exact Hlen.
Qed.

Lemma addNotification_enabled (id : string) (time : Z) (draft : Draft.t)
    (st : State) :
  isEnabled (fst (addNotification id time draft st)) = isEnabled st.
Proof.
  unfold addNotification. destruct (isEnabled st) eqn:Hen; simpl;
    exact Hen.
Qed.

Lemma add_all_enabled (calls : list Call) (st : State) :
  isEnabled (add_all calls st) = isEnabled st.
Proof.
  revert st. induction calls as [|c calls IH]; intros st; simpl;
    [reflexivity|].
  unfold add_all in *. simpl. rewrite IH. apply addNotification_enabled.
Qed.

Lemma add_all_snoc (calls : list Call) (c : Call) (st : State) :
  add_all (calls ++ [c]) st
  = fst (addNotification (fst (fst c)) (snd (fst c)) (snd c)
           (add_all calls st)).
Proof. unfold add_all. rewrite fold_left_app. reflexivity. Qed.

(** After at least one call on an enabled service, the list holds its
    first 100 entries of: the notifications created, newest first, and
    then the old ones. *)
Lemma add_all_notifications (calls : list Call) (st : State) :
  isEnabled st = true ->
  calls <> [] ->
  notifications (add_all calls st)
  = firstn 100 (rev (List.map created calls) ++ notifications st).
Proof.
  intros Hen. induction calls as [|c calls IH] using rev_ind;
    [congruence|]. intros _.
  rewrite add_all_snoc, map_app, rev_app_distr. simpl.
  destruct (addNotification_notifications (fst (fst c)) (snd (fst c))
              (snd c) (add_all calls st)) as [-> _].
  { rewrite add_all_enabled. exact Hen. }
  fold (created c).
  destruct calls as [|c0 calls]; [reflexivity|].
  rewrite IH by discriminate.
  apply (firstn_app_firstn 100 [created c]).
Qed.

(** 101 calls leave the notifications of all calls but the first, the
    newest in front. *)
Lemma add_101 (calls : list Call) (st : State) :
  isEnabled st = true ->
  length calls = 101%nat ->
  notifications (add_all calls st) = rev (List.map created (tl calls)).
Proof.
  intros Hen Hlen.
  rewrite add_all_notifications by (try exact Hen; intros ->; discriminate).
  destruct calls as [|c calls]; [discriminate|].
  simpl in *. injection Hlen as Hlen.
  rewrite <- app_assoc, List.firstn_app.
  replace (100 - length (rev (List.map created calls)))%nat with 0%nat
    by (rewrite length_rev, length_map; lia).
  rewrite List.firstn_all2 by (rewrite length_rev, length_map; lia).
  simpl. apply app_nil_r.
Qed.

Lemma find_index_None {A : Type} (p : A -> bool) (l : list A) :
  Forall (fun x => p x = false) l -> Js.find_index p l = None.
Proof.
  induction 1 as [|x l Hx _ IH]; simpl; [reflexivity|].
  rewrite Hx, IH. reflexivity.
Qed.

Lemma find_index_alter {A : Type} (p : A -> bool) (f : A -> A)
    (i : nat) (l : list A) :
  (forall x, p (f x) = p x) ->
  Js.find_index p (alter f i l) = Js.find_index p l.
Proof.
  intros Hp. revert i. induction l as [|x l IH]; intros [|i]; simpl;
    rewrite ?Hp; try reflexivity.
  change (list_alter f i l) with (alter f i l). rewrite IH. reflexivity.
Qed.

(** No notification carries the id: nothing changes, nobody is told. *)
Lemma acknowledge_unknown_id (id by_whom : string) (time : Z) (st : State) :
  Forall (fun n => AlertNotification.id n <> id) (notifications st) ->
  acknowledgeNotification id by_whom time st = (st, []).
Proof.
  intros Hids. unfold acknowledgeNotification.
  rewrite find_index_None; [reflexivity|].
  eapply Forall_impl; [exact Hids|].
  intros n Hn. apply String.eqb_neq. exact Hn.
Qed.

(** The notification found is acknowledged already: nothing changes. *)
Lemma acknowledge_acknowledged (id by_whom : string) (time : Z) (st : State) :
  Forall (fun n => AlertNotification.id n = id ->
                   AlertNotification.acknowledged n = true)
    (notifications st) ->
  acknowledgeNotification id by_whom time st = (st, []).
Proof.
  intros Hack. unfold acknowledgeNotification.
  destruct (Js.find_index _ (notifications st)) as [i|] eqn:Hfind;
    [|reflexivity].
  apply find_index_Some in Hfind as (n & Hi & Hid).
  rewrite Hi. apply String.eqb_eq in Hid.
  rewrite (proj1 (Forall_lookup _ _) Hack i n Hi Hid). reflexivity.
Qed.

(** A second acknowledgement of the same id changes nothing. *)
Lemma acknowledge_twice (id by1 by2 : string) (time1 time2 : Z) (st : State) :
  acknowledgeNotification id by2 time2
    (fst (acknowledgeNotification id by1 time1 st))
  = (fst (acknowledgeNotification id by1 time1 st), []).
Proof.
  unfold acknowledgeNotification at 2 3.
  destruct (Js.find_index _ (notifications st)) as [i|] eqn:Hfind.
  - destruct (notifications st !! i) as [n|] eqn:Hi.
    + destruct (AlertNotification.acknowledged n) eqn:Hn; simpl.
      * unfold acknowledgeNotification. rewrite Hfind, Hi, Hn. reflexivity.
      * unfold acknowledgeNotification. simpl.
        rewrite find_index_alter by reflexivity.
        rewrite Hfind, list_lookup_alter_eq, Hi. reflexivity.
    + simpl. unfold acknowledgeNotification. rewrite Hfind, Hi. reflexivity.
  - simpl. unfold acknowledgeNotification. rewrite Hfind. reflexivity.
Qed.

End Notifications.

(** C8.  On the service as constructed, and on any enabled service
    whatever its list held before, 101 calls of [addNotification] leave
    exactly 100 notifications: those of all the calls but the first, the
    newest in front.  [acknowledgeNotification] with an id that no
    notification carries returns the state unchanged and notifies nobody;
    so it does when the notifications with that id are acknowledged
    already; and a second acknowledgement of an id changes nothing after
    the first. *)
Theorem notification_list_bounded_and_acknowledge_noop
    (st : NotificationService.State) :
  (forall calls,
      length calls = 101%nat ->
      let stored :=
        NotificationService.notifications
          (NotificationService.add_all calls NotificationService.initial) in
      length stored = 100%nat
      /\ stored = rev (List.map NotificationService.created (tl calls)))
  /\ (forall calls,
        NotificationService.isEnabled st = true ->
        length calls = 101%nat ->
        let stored :=
          NotificationService.notifications
            (NotificationService.add_all calls st) in
        length stored = 100%nat
        /\ stored = rev (List.map NotificationService.created (tl calls)))
  /\ (forall id by_whom time,
        Forall (fun n => AlertNotification.id n <> id)
          (NotificationService.notifications st) ->
        NotificationService.acknowledgeNotification id by_whom time st
        = (st, []))
  /\ (forall id by_whom time,
        Forall (fun n => AlertNotification.id n = id ->
                         AlertNotification.acknowledged n = true)
          (NotificationService.notifications st) ->
        NotificationService.acknowledgeNotification id by_whom time st
        = (st, []))
  /\ (forall id by1 time1 by2 time2,
        NotificationService.acknowledgeNotification id by2 time2
          (fst (NotificationService.acknowledgeNotification id by1 time1 st))
        = (fst (NotificationService.acknowledgeNotification id by1 time1 st),
           [])).
Proof.
  assert (Hadd : forall st0 calls,
             NotificationService.isEnabled st0 = true ->
             length calls = 101%nat ->
             length (NotificationService.notifications
                       (NotificationService.add_all calls st0)) = 100%nat
             /\ NotificationService.notifications
                  (NotificationService.add_all calls st0)
                = rev (List.map NotificationService.created (tl calls))).
  { intros st0 calls Hen Hlen.
    rewrite (add_101 calls st0 Hen Hlen). split; [|reflexivity].
    rewrite length_rev, length_map.
    destruct calls as [|c calls]; [discriminate|].
    simpl in *. lia. }
  split; [|split; [|split; [|split]]].
  - intros calls Hlen. apply Hadd; [reflexivity|exact Hlen].
  - intros calls Hen Hlen. apply Hadd; assumption.
  - intros id by_whom time. apply acknowledge_unknown_id.
  - intros id by_whom time. apply acknowledge_acknowledged.
  - intros id by1 time1 by2 time2. apply acknowledge_twice.
Qed.

Lemma notification_list_bounded_and_acknowledge_noop_witness :
  length
    (NotificationService.notifications
       (NotificationService.add_all Inputs.calls_101
          NotificationService.initial))
  = 100%nat
  /\ length
       (NotificationService.notifications
          (NotificationService.add_all Inputs.calls_101
             Inputs.one_acknowledged))
     = 100%nat
  /\ NotificationService.acknowledgeNotification "unknown" "operator" 5
       Inputs.one_acknowledged
     = (Inputs.one_acknowledged, [])
  /\ NotificationService.acknowledgeNotification "a" "operator" 5
       Inputs.one_acknowledged
     = (Inputs.one_acknowledged, []).
Proof.
  destruct (notification_list_bounded_and_acknowledge_noop
              Inputs.one_acknowledged)
    as (Hnew & Hadd & Hunknown & Hdone & _).
  split; [|split; [|split]].
  - apply (Hnew Inputs.calls_101). reflexivity.
  - apply (Hadd Inputs.calls_101); reflexivity.
  - apply Hunknown. repeat constructor; discriminate.
  - apply Hdone. repeat constructor; simpl; (reflexivity || discriminate).
Defined.

(* ===================================================================== *)
(** * More on the notification service *)
(* ===================================================================== *)

Section NotificationOperations.
Import NotificationService.

Lemma filter_length_le {A : Type} (p q : A -> bool) (l : list A) :
  (forall x, p x = true -> q x = true) ->
  (length (List.filter p l) <= length (List.filter q l))%nat.
Proof.
  intros Hpq. induction l as [|x l IH]; simpl; [lia|].
  destruct (p x) eqn:Hp.
  - rewrite (Hpq x Hp). simpl. lia.
  - destruct (q x); simpl; lia.
Qed.

Lemma filter_length_bound {A : Type} (p : A -> bool) (l : list A) :
  (length (List.filter p l) <= length l)%nat.
Proof.
  induction l as [|x l IH]; simpl; [lia|]. destruct (p x); simpl; lia.
Qed.

Lemma apply_op_bounded (op : Op) (st : State) :
  (length (notifications st) <= 100)%nat ->
  (length (notifications (fst (apply_op op st))) <= 100)%nat.
Proof.
  intros Hst. destruct op; simpl; try exact Hst.
  - destruct (isEnabled st) eqn:Hen.
    + destruct (addNotification_notifications id time notification st Hen)
        as [-> _].
      rewrite List.length_firstn. lia.
    + unfold addNotification. rewrite Hen. exact Hst.
  - unfold acknowledgeNotification.
    destruct (Js.find_index _ _) as [i|]; [|exact Hst].
    destruct (notifications st !! i) as [n|]; [|exact Hst].
    destruct (negb _); simpl; [|exact Hst].
    rewrite length_alter. exact Hst.
  - lia.
  - pose proof (filter_length_bound
                  (fun n => negb (AlertNotification.acknowledged n))
                  (notifications st)). lia.
Qed.

Lemma run_ops_bounded (ops : list Op) (st : State) :
  (length (notifications st) <= 100)%nat ->
  (length (notifications (fst (run_ops ops st))) <= 100)%nat.
Proof.
  revert st. induction ops as [|op ops IH]; intros st Hst; simpl;
    [exact Hst|].
  pose proof (apply_op_bounded op st Hst) as Hop.
  destruct (apply_op op st) as [st1 e1]. simpl in Hop.
  specialize (IH st1 Hop).
  destruct (run_ops ops st1) as [st2 e2]. exact IH.
Qed.

(** X1.  Whatever calls are made on the service from its construction,
    the critical count is at most the unacknowledged count, which is at
    most the number of stored notifications, which is at most 100. *)
Theorem counts_bounded_by_100 (ops : list NotificationService.Op) :
  let st :=
    fst (NotificationService.run_ops ops NotificationService.initial) in
  (NotificationService.getCriticalCount st
   <= NotificationService.getUnacknowledgedCount st)%nat
  /\ (NotificationService.getUnacknowledgedCount st
      <= length (NotificationService.notifications st))%nat
  /\ (length (NotificationService.notifications st) <= 100)%nat.
Proof.
  intros st. split; [|split].
  - apply filter_length_le. intros n.
    destruct (AlertNotification.type n); (discriminate || auto).
  - apply filter_length_bound.
  - apply run_ops_bounded. simpl. lia.
Qed.

Lemma add_all_disabled (calls : list Call) (st : State) :
  isEnabled st = false ->
  run_ops (List.map (fun c => OpAdd (fst (fst c)) (snd (fst c)) (snd c)) calls)
    st = (st, []).
Proof.
  intros Hoff. induction calls as [|c calls IH]; simpl; [reflexivity|].
  unfold addNotification. rewrite Hoff. simpl. rewrite IH. reflexivity.
Qed.

Lemma run_ops_app (ops1 ops2 : list Op) (st : State) :
  run_ops (ops1 ++ ops2) st
  = (fst (run_ops ops2 (fst (run_ops ops1 st))),
     snd (run_ops ops1 st) ++ snd (run_ops ops2 (fst (run_ops ops1 st)))).
Proof.
  revert st. induction ops1 as [|op ops1 IH]; intros st; simpl.
  - destruct (run_ops ops2 st). reflexivity.
  - destruct (apply_op op st) as [st1 e1]. rewrite IH.
    destruct (run_ops ops1 st1) as [st2 e2]. simpl.
    rewrite app_assoc. reflexivity.
Qed.

End NotificationOperations.

(** X2.  Notifications sent while the service is disabled are lost, not
    queued: disabling an enabled service, adding any notifications and
    enabling it again gives back the very state it had, and nothing
    happens outside the service (no browser notification, no sound, no
    listener called). *)
Theorem notifications_while_disabled_are_lost
    (st : NotificationService.State) (calls : list NotificationService.Call) :
  NotificationService.isEnabled st = true ->
  NotificationService.run_ops
    (NotificationService.OpSetEnabled false
     :: List.map
          (fun c =>
             NotificationService.OpAdd (fst (fst c)) (snd (fst c)) (snd c))
          calls
     ++ [NotificationService.OpSetEnabled true])
    st
  = (st, []).
Proof.
  intros Hon.
  change (NotificationService.run_ops
            ([NotificationService.OpSetEnabled false]
             ++ List.map
                  (fun c =>
                     NotificationService.OpAdd (fst (fst c)) (snd (fst c))
                       (snd c)) calls
             ++ [NotificationService.OpSetEnabled true]) st = (st, [])).
  rewrite run_ops_app, run_ops_app. simpl.
  rewrite add_all_disabled by reflexivity. simpl.
  destruct st as [ns ls en snd_en]. simpl in Hon. subst en. reflexivity.
Qed.

Lemma notifications_while_disabled_are_lost_witness :
  NotificationService.run_ops
    (NotificationService.OpSetEnabled false
     :: List.map
          (fun c =>
             NotificationService.OpAdd (fst (fst c)) (snd (fst c)) (snd c))
          Inputs.calls_101
     ++ [NotificationService.OpSetEnabled true])
    Inputs.one_acknowledged
  = (Inputs.one_acknowledged, []).
Proof.
  apply (notifications_while_disabled_are_lost Inputs.one_acknowledged
           Inputs.calls_101).
  reflexivity.
Defined.

Section Acknowledgement.
Import NotificationService.

Lemma unacknowledged_after_alter (by_whom : string) (time : Z) (i : nat)
    (l : list AlertNotification.t) (n : AlertNotification.t) :
  l !! i = Some n ->
  AlertNotification.acknowledged n = false ->
  (length
     (List.filter (fun n => negb (AlertNotification.acknowledged n))
        (alter (acknowledge by_whom time) i l)) + 1
   = length
       (List.filter (fun n => negb (AlertNotification.acknowledged n)) l))%nat.
Proof.
  revert i. induction l as [|x l IH]; intros [|i] Hi Hn; try discriminate.
  - injection Hi as ->. simpl. rewrite Hn. simpl. lia.
  - simpl in Hi. specialize (IH i Hi Hn). simpl.
    change (list_alter (acknowledge by_whom time) i l)
      with (alter (acknowledge by_whom time) i l).
    destruct (negb (AlertNotification.acknowledged x)); simpl; lia.
Qed.

Lemma map_id_alter (by_whom : string) (time : Z) (i : nat)
    (l : list AlertNotification.t) :
  List.map AlertNotification.id (alter (acknowledge by_whom time) i l)
  = List.map AlertNotification.id l.
Proof.
  revert i. induction l as [|x l IH]; intros [|i]; simpl; try reflexivity.
  change (list_alter (acknowledge by_whom time) i l)
    with (alter (acknowledge by_whom time) i l).
  rewrite IH. reflexivity.
Qed.

Lemma filter_within {A : Type} (p q : A -> bool) (l : list A) :
  (forall x, p x = true -> q x = true) ->
  List.filter p (List.filter q l) = List.filter p l.
Proof.
  intros Hpq. induction l as [|x l IH]; simpl; [reflexivity|].
  destruct (q x) eqn:Hq; simpl; rewrite IH; [reflexivity|].
  destruct (p x) eqn:Hp; [|reflexivity].
  rewrite (Hpq x Hp) in Hq. discriminate.
Qed.




Lemma notifyListeners_only_listeners (st : State) (listener : nat)
    (snapshot : list AlertNotification.t) :
  In (NotifyListener listener snapshot) (notifyListeners st) ->
  In listener (listeners st).
Proof.
  unfold notifyListeners. rewrite in_map_iff.
  intros (l & Heq & Hl). injection Heq as -> _. exact Hl.
Qed.

(** One call tells only the listeners subscribed when it is made, and
    only a [subscribe] adds a listener. *)
Lemma apply_op_listeners (op : Op) (st : State) (listener : nat) :
  ~ In listener (listeners st) ->
  op <> OpSubscribe listener ->
  ~ In listener (listeners (fst (apply_op op st)))
  /\ forall snapshot,
       ~ In (NotifyListener listener snapshot) (snd (apply_op op st)).
Proof.
  intros Hnot Hop. destruct op; simpl.
  - unfold addNotification. destruct (isEnabled st); simpl; [|tauto].
    split; [exact Hnot|]. intros snapshot [H|[H|H]]; try discriminate.
    apply notifyListeners_only_listeners in H. exact (Hnot H).
  - unfold acknowledgeNotification.
    destruct (Js.find_index _ _) as [i|]; [|simpl; tauto].
    destruct (notifications st !! i) as [n|]; [|simpl; tauto].
    destruct (negb _); simpl; [|tauto].
    split; [exact Hnot|]. intros snapshot H.
    apply notifyListeners_only_listeners in H. exact (Hnot H).
  - split; [exact Hnot|]. intros snapshot H.
    apply notifyListeners_only_listeners in H. exact (Hnot H).
  - split; [exact Hnot|]. intros snapshot H.
    apply notifyListeners_only_listeners in H. exact (Hnot H).
  - tauto.
  - tauto.
  - split; [|tauto]. intros H. apply in_app_or in H as [H|[H|[]]];
      [exact (Hnot H)|]. subst. congruence.
  - split; [|tauto]. intros H. apply Hnot. clear Hnot Hop.
    induction (listeners st) as [|x l IH]; simpl in *; [exact H|].
    destruct (Nat.eqb x listener0); [right; exact H|].
    destruct H as [H|H]; [left; exact H|right; exact (IH H)].
Qed.

End Acknowledgement.

(** X3.  When the first notification that carries the id is not yet
    acknowledged, [acknowledgeNotification] acknowledges that one
    notification and nothing else: the list keeps its length, its ids and
    every other entry, the unacknowledged count drops by exactly one, and
    every listener receives the new list. *)
Theorem acknowledge_marks_exactly_one (st : NotificationService.State)
    (id by_whom : string) (time : Z) (i : nat) (n : AlertNotification.t) :
  Js.find_index (fun n => String.eqb (AlertNotification.id n) id)
    (NotificationService.notifications st) = Some i ->
  NotificationService.notifications st !! i = Some n ->
  AlertNotification.acknowledged n = false ->
  let result :=
    NotificationService.acknowledgeNotification id by_whom time st in
  let stored := NotificationService.notifications (fst result) in
  stored !! i = Some (NotificationService.acknowledge by_whom time n)
  /\ (forall j, j <> i ->
        stored !! j = NotificationService.notifications st !! j)
  /\ List.map AlertNotification.id stored
     = List.map AlertNotification.id (NotificationService.notifications st)
  /\ (NotificationService.getUnacknowledgedCount (fst result) + 1
      = NotificationService.getUnacknowledgedCount st)%nat
  /\ snd result
     = List.map (fun l => NotificationService.NotifyListener l stored)
         (NotificationService.listeners st).
Proof.
  intros Hfind Hi Hn result stored. subst stored result.
  unfold NotificationService.acknowledgeNotification.
  rewrite Hfind, Hi, Hn. simpl.
  split; [rewrite list_lookup_alter_eq, Hi; reflexivity|].
  split; [intros j Hj; apply list_lookup_alter_ne; congruence|].
  split; [apply map_id_alter|].
  split; [|reflexivity].
  unfold NotificationService.getUnacknowledgedCount. simpl.
  apply (unacknowledged_after_alter by_whom time i _ n Hi Hn).
Qed.

Lemma acknowledge_marks_exactly_one_witness :
  NotificationService.getUnacknowledgedCount
    (fst (NotificationService.acknowledgeNotification "b" "operator" 9
            Inputs.one_acknowledged)) = 0%nat
  /\ NotificationService.getUnacknowledgedCount Inputs.one_acknowledged
     = 1%nat.
Proof.
  destruct (acknowledge_marks_exactly_one Inputs.one_acknowledged "b"
              "operator" 9 0
              (NotificationService.create "b" 2
                 {| Draft.type := alert_warning;
                    Draft.title := "Device Offline";
                    Draft.message := "offline"; Draft.imei := Some "A" |})
              eq_refl eq_refl eq_refl) as (_ & _ & _ & Hcount & _).
  split; [|reflexivity].
  change (NotificationService.getUnacknowledgedCount Inputs.one_acknowledged)
    with 1%nat in Hcount.
  apply Nat.add_cancel_r with (p := 1%nat). exact Hcount.
Defined.

(** X4.  [clearAcknowledged] keeps exactly the unacknowledged
    notifications, in their order: the unacknowledged count is unchanged
    and becomes the length of the list, and clearing a second time
    changes nothing. *)
Theorem clearAcknowledged_keeps_unacknowledged
    (st : NotificationService.State) :
  let st' := fst (NotificationService.clearAcknowledged st) in
  NotificationService.notifications st'
  = List.filter (fun n => negb (AlertNotification.acknowledged n))
      (NotificationService.notifications st)
  /\ Forall (fun n => AlertNotification.acknowledged n = false)
       (NotificationService.notifications st')
  /\ NotificationService.getUnacknowledgedCount st'
     = NotificationService.getUnacknowledgedCount st
  /\ NotificationService.getUnacknowledgedCount st'
     = length (NotificationService.notifications st')
  /\ NotificationService.getCriticalCount st'
     = NotificationService.getCriticalCount st
  /\ fst (NotificationService.clearAcknowledged st') = st'.
Proof.
  intros st'. subst st'. simpl.
  set (unack := fun n => negb (AlertNotification.acknowledged n)).
  assert (Hidem : List.filter unack
                    (List.filter unack (NotificationService.notifications st))
                  = List.filter unack (NotificationService.notifications st)).
  { apply filter_idempotent_under. auto. }
  split; [reflexivity|]. split.
  - apply List.Forall_forall. intros n Hin.
    apply filter_In in Hin as [_ Hn]. unfold unack in Hn.
    destruct (AlertNotification.acknowledged n); [discriminate|reflexivity].
  - split; [|split; [|split]].
    + unfold NotificationService.getUnacknowledgedCount. simpl.
      fold unack. rewrite Hidem. reflexivity.
    + unfold NotificationService.getUnacknowledgedCount. simpl.
      fold unack. rewrite Hidem. reflexivity.
    + unfold NotificationService.getCriticalCount. simpl. f_equal.
      apply filter_within. intros n.
      destruct (AlertNotification.type n); (discriminate || auto).
    + unfold NotificationService.with_notifications. simpl.
      fold unack. rewrite Hidem. reflexivity.
Qed.



(** X6.  A listener that is not subscribed is never called: whatever
    calls follow, as long as none of them subscribes it again, no list is
    delivered to it. *)
Theorem unsubscribed_listener_is_never_called
    (ops : list NotificationService.Op) (st : NotificationService.State)
    (listener : nat) :
  ~ In listener (NotificationService.listeners st) ->
  ~ In (NotificationService.OpSubscribe listener) ops ->
  forall snapshot,
    ~ In (NotificationService.NotifyListener listener snapshot)
        (snd (NotificationService.run_ops ops st)).
Proof.
  revert st. induction ops as [|op ops IH]; intros st Hnot Hops snapshot;
    simpl; [tauto|].
  assert (Hop : op <> NotificationService.OpSubscribe listener)
    by (intros ->; apply Hops; left; reflexivity).
  destruct (apply_op_listeners op st listener Hnot Hop) as [Hnot1 Heff1].
  destruct (NotificationService.apply_op op st) as [st1 e1].
  simpl in Hnot1, Heff1.
  assert (Hrest : ~ In (NotificationService.OpSubscribe listener) ops)
    by (intros H; apply Hops; right; exact H).
  specialize (IH st1 Hnot1 Hrest snapshot).
  destruct (NotificationService.run_ops ops st1) as [st2 e2]. simpl in *.
  intros H. apply in_app_or in H as [H|H]; [exact (Heff1 snapshot H)|].
  exact (IH H).
Qed.

Lemma unsubscribed_listener_is_never_called_witness :
  ~ In (NotificationService.NotifyListener 0
          (NotificationService.notifications Inputs.one_acknowledged))
      (snd (NotificationService.run_ops
              [NotificationService.OpAcknowledge "b" "operator" 9;
               NotificationService.OpClearAcknowledged]
              (NotificationService.unsubscribe 0 Inputs.one_acknowledged))).
Proof.
  apply (unsubscribed_listener_is_never_called
           [NotificationService.OpAcknowledge "b" "operator" 9;
            NotificationService.OpClearAcknowledged]
           (NotificationService.unsubscribe 0 Inputs.one_acknowledged) 0).
  - simpl. tauto.
  - simpl. intros [H|[H|[]]]; discriminate H.
Defined.

(* ===================================================================== *)
(** * The sort *)
(* ===================================================================== *)

Section SortFacts.
Context {A : Type}.
Variable key : A -> Z.
Variable cmp : A -> A -> option Z.

Lemma sort_insert_permutation (x : A) (l : list A) :
  Permutation (Js.sort_insert cmp x l) (x :: l).
Proof.
  induction l as [|y l IH]; simpl; [reflexivity|].
  destruct (cmp x y) as [c|]; [destruct (c <? 0)%Z|].
  - reflexivity.
  - rewrite IH. apply perm_swap.
  - rewrite IH. apply perm_swap.
Qed.

Lemma sort_fold_permutation (l acc : list A) :
  Permutation (fold_left (fun acc x => Js.sort_insert cmp x acc) l acc)
    (acc ++ l).
Proof.
  revert acc. induction l as [|x l IH]; intros acc; simpl.
  - rewrite app_nil_r. reflexivity.
  - rewrite IH, sort_insert_permutation.
    change (x :: acc) with ([x] ++ acc).
    rewrite (Permutation_app_comm [x] acc), <- app_assoc. reflexivity.
Qed.

(** The sort rearranges, and neither drops nor repeats. *)
Lemma sort_permutation (l : list A) : Permutation (Js.sort cmp l) l.
Proof. unfold Js.sort. apply (sort_fold_permutation l []). Qed.

Lemma sort_insert_sorted (x : A) (l : list A) :
  (forall y, In y l -> cmp x y = Some (key x - key y)) ->
  StronglySorted (fun a b => key a <= key b) l ->
  StronglySorted (fun a b => key a <= key b) (Js.sort_insert cmp x l).
Proof.
  intros Hcmp Hl. induction Hl as [|y l Hl IH Hy]; simpl.
  - repeat constructor.
  - rewrite (Hcmp y) by (left; reflexivity).
    destruct (key x - key y <? 0) eqn:Hlt.
    + apply Z.ltb_lt in Hlt. constructor; [constructor; assumption|].
      constructor; [lia|]. eapply List.Forall_impl; [|exact Hy].
      simpl. intros a Ha. lia.
    + apply Z.ltb_ge in Hlt. constructor.
      * apply IH. intros z Hz. apply Hcmp. right. exact Hz.
      * eapply Permutation_Forall.
        { symmetry. apply sort_insert_permutation. }
        constructor; [lia|exact Hy].
Qed.

Lemma sort_fold_sorted (l acc : list A) :
  (forall a b, In a (acc ++ l) -> In b (acc ++ l) ->
               cmp a b = Some (key a - key b)) ->
  StronglySorted (fun a b => key a <= key b) acc ->
  StronglySorted (fun a b => key a <= key b)
    (fold_left (fun acc x => Js.sort_insert cmp x acc) l acc).
Proof.
  revert acc. induction l as [|x l IH]; intros acc Hcmp Hacc; simpl;
    [exact Hacc|].
  apply IH.
  - intros a b Ha Hb. apply Hcmp.
    + apply in_app_or in Ha as [Ha|Ha].
      * apply (Permutation_in _ (sort_insert_permutation x acc)) in Ha.
        destruct Ha as [<-|Ha]; apply in_or_app; [right; left|left]; auto.
      * apply in_or_app. right. right. exact Ha.
    + apply in_app_or in Hb as [Hb|Hb].
      * apply (Permutation_in _ (sort_insert_permutation x acc)) in Hb.
        destruct Hb as [<-|Hb]; apply in_or_app; [right; left|left]; auto.
      * apply in_or_app. right. right. exact Hb.
  - apply sort_insert_sorted; [|exact Hacc].
    intros y Hy. apply Hcmp; apply in_or_app; [right; left|left]; auto.
Qed.

(** When the comparator is the difference of a key on the elements of
    the array, the sort puts them in non-decreasing order of the key. *)
Lemma sort_sorted (l : list A) :
  (forall a b, In a l -> In b l -> cmp a b = Some (key a - key b)) ->
  StronglySorted (fun a b => key a <= key b) (Js.sort cmp l).
Proof.
  intros Hcmp. unfold Js.sort. apply sort_fold_sorted; [exact Hcmp|].
  constructor.
Qed.

End SortFacts.

(* ===================================================================== *)
(** * The extraction of network events *)
(* ===================================================================== *)

Section Extraction.
Import DateFns DateUtils NetworkIncidentService Shape.
Variable env : Env.

(** The events before the sort. *)
Lemma classified_events (exceptionLogs : list ExceptionLog.t)
    (e : NetworkEvent.t) :
  In e
    (flat_map
       (fun log =>
          match classify log with
          | Some kind => [event_of env log kind]
          | None => []
          end) exceptionLogs)
  <-> exists log kind,
        In log exceptionLogs /\ classify log = Some kind
        /\ e = event_of env log kind.
Proof.
  rewrite in_flat_map. split.
  - intros (log & Hlog & He). destruct (classify log) as [kind|] eqn:Hk;
      [|destruct He].
    destruct He as [<-|[]]. exists log, kind. auto.
  - intros (log & kind & Hlog & Hk & ->). exists log. split; [exact Hlog|].
    rewrite Hk. left. reflexivity.
Qed.


Lemma extractNetworkEvents_unfold (exceptionLogs : list ExceptionLog.t) :
  extractNetworkEvents env exceptionLogs
  = Js.sort
      (fun a b => diff (NetworkEvent.timestamp a) (NetworkEvent.timestamp b))
      (flat_map
         (fun log =>
            match classify log with
            | Some kind => [event_of env log kind]
            | None => []
            end) exceptionLogs).
Proof. reflexivity. Qed.

End Extraction.


(** X8.  The [lastSeen] of the performance metrics is the latest parsed
    time among the logs of the device, ignition and exception logs alike:
    it is the time of one of them and no log of the device is later; for
    a device without logs it is the current time. *)
Theorem lastSeen_is_latest (env : Env) (imei : string)
    (ignitionLogs : list IgnitionLog.t) (exceptionLogs : list ExceptionLog.t) :
  let logs :=
    AnalyticsService.spread
      (AnalyticsService.ignitions_of imei ignitionLogs)
      (AnalyticsService.exceptions_of imei exceptionLogs) in
  let lastSeen :=
    DevicePerformanceMetrics.lastSeen
      (AnalyticsService.calculateDevicePerformanceMetrics env imei
         ignitionLogs exceptionLogs) in
  match logs with
  | [] => lastSeen = DateUtils.new_Date env
  | _ :: _ =>
      (exists log,
          In log logs
          /\ lastSeen = DateUtils.parseTimestamp env (log_timestamp log))
      /\ Forall
           (fun log =>
              Shape.not_later
                (DateUtils.parseTimestamp env (log_timestamp log)) lastSeen)
           logs
  end.
Proof.
  intros logs lastSeen. subst lastSeen.
  unfold AnalyticsService.calculateDevicePerformanceMetrics.
  cbn [DevicePerformanceMetrics.lastSeen]. fold logs.
  set (cmp := fun a b : AnyLog =>
                DateFns.diff
                  (DateUtils.getSafeTimestamp env (log_timestamp b))
                  (DateUtils.getSafeTimestamp env (log_timestamp a))).
  set (key := fun a : AnyLog =>
                - Shape.time_value
                    (DateUtils.parseTimestamp env (log_timestamp a))).
  pose proof (sort_permutation cmp logs) as Hperm.
  assert (Hsorted : StronglySorted (fun a b => key a <= key b)
                      (Js.sort cmp logs)).
  { apply sort_sorted. intros a b _ _. unfold cmp, key.
    unfold DateUtils.getSafeTimestamp.
    pose proof (parseTimestamp_valid env (log_timestamp a)) as Ha.
    pose proof (parseTimestamp_valid env (log_timestamp b)) as Hb.
    destruct (DateUtils.parseTimestamp env (log_timestamp a)) as [ta|];
      [|discriminate].
    destruct (DateUtils.parseTimestamp env (log_timestamp b)) as [tb|];
      [|discriminate].
    simpl. f_equal. lia. }
  destruct logs as [|l0 logs0] eqn:Hlogs; [reflexivity|].
  destruct (Js.sort cmp (l0 :: logs0)) as [|first rest] eqn:Hsort.
  - apply Permutation_length in Hperm. discriminate Hperm.
  - split.
    + exists first. split; [|reflexivity].
      apply (Permutation_in _ Hperm). left. reflexivity.
    + apply List.Forall_forall. intros log Hlog.
      apply (Permutation_in _ (Permutation_sym Hperm)) in Hlog.
      inversion Hsorted as [|? ? _ Hfirst]; subst.
      unfold Shape.not_later. destruct Hlog as [<-|Hlog]; [lia|].
      rewrite List.Forall_forall in Hfirst. specialize (Hfirst log Hlog).
      unfold key in Hfirst. lia.
Qed.

(* ===================================================================== *)
(** * More invariants of the grouping pass *)
(* ===================================================================== *)

Section PassInvariant.
Import DateFns DateUtils NetworkIncidentService Shape.
Variable env : Env.
Variable P : NetworkIncident.t -> Prop.
Hypothesis P_new : forall k event, P (new_incident env k event).
Hypothesis P_add : forall device inc, P inc -> P (add_affected device inc).
Hypothesis P_recover :
  forall event inc,
    In (NetworkEvent.deviceImei event) (NetworkIncident.affectedDevices inc) ->
    NetworkIncident.status inc = ongoing ->
    P inc -> P (mark_recovered event inc).
Hypothesis P_finalize : forall inc, P inc -> P (finalize inc).

(** A property of incidents that the three mutations keep is kept by
    the whole pass. *)
Lemma step_Forall (st : GroupState) (event : NetworkEvent.t) :
  Forall P (incidents st) -> Forall P (incidents (fst (step env st event))).
Proof using P_new P_add P_recover.
  intros Hst. unfold step.
  destruct (NetworkEvent.eventType event); [| |exact Hst].
  - destruct (currentIncident st) as [i|];
      [destruct (incidents st !! i) as [inc|] eqn:Hi;
       [destruct (outside_window event inc)|]|]; simpl;
      try (apply Forall_app; split; [exact Hst|];
           constructor; [apply P_new|constructor]).
    apply Forall_alter; [exact Hst|]. intros x _. apply P_add.
  - destruct (deviceOutages st !! NetworkEvent.deviceImei event);
      [|exact Hst].
    destruct (Js.find_index _ (incidents st)) as [i|] eqn:Hfind; simpl;
      [|exact Hst].
    apply find_index_Some in Hfind as (inc & Hi & Hp).
    apply andb_true_iff in Hp as [Hp Hon]. apply array_includes_In in Hp.
    apply Forall_alter; [exact Hst|].
    intros x Hx. rewrite Hi in Hx. injection Hx as <-.
    apply P_recover; [exact Hp|].
    unfold is_ongoing in Hon.
    destruct (NetworkIncident.status inc); [reflexivity|discriminate].
Qed.

Lemma run_Forall (st : GroupState) (events : list NetworkEvent.t) :
  Forall P (incidents st) -> Forall P (incidents (fst (run env st events))).
Proof using P_new P_add P_recover.
  revert st. induction events as [|e events IH]; intros st Hst; simpl;
    [exact Hst|].
  pose proof (step_Forall st e Hst) as Hstep.
  destruct (step env st e) as [st1 e1]. simpl in Hstep.
  specialize (IH st1 Hstep).
  destruct (run env st1 events) as [st2 r2]. exact IH.
Qed.

Lemma pass_Forall (events : list NetworkEvent.t) :
  (forall n, Forall P (incidents (fst (run env init_state (firstn n events)))))
  /\ Forall P (fst (groupEventsIntoIncidents env events)).
Proof using P_new P_add P_recover P_finalize.
  split.
  - intros n. apply run_Forall. constructor.
  - unfold groupEventsIntoIncidents.
    pose proof (run_Forall init_state events (List.Forall_nil _)) as Hrun.
    destruct (run env init_state events) as [st events']. simpl in *.
    apply List.Forall_forall. intros inc Hin.
    apply in_map_iff in Hin as (inc0 & <- & Hin0).
    apply P_finalize. rewrite List.Forall_forall in Hrun.
    exact (Hrun inc0 Hin0).
Qed.

End PassInvariant.

Section IncidentShape.
Import DateFns DateUtils NetworkIncidentService Shape.
Variable env : Env.

Lemma array_includes_false (l : list string) (x : string) :
  Js.array_includes l x = false <-> ~ In x l.
Proof.
  rewrite <- array_includes_In.
  destruct (Js.array_includes l x); split; congruence.
Qed.

Lemma NoDup_snoc (l : list string) (x : string) :
  ~ In x l -> List.NoDup l -> List.NoDup (l ++ [x]).
Proof.
  intros Hx Hl. apply List.NoDup_rev in Hl.
  rewrite <- (rev_involutive (l ++ [x])).
  apply List.NoDup_rev. rewrite rev_app_distr. simpl.
  constructor; [|exact Hl]. rewrite <- in_rev. exact Hx.
Qed.

Lemma new_incident_well_formed (k : nat) (event : NetworkEvent.t) :
  well_formed (new_incident env k event).
Proof.
  unfold well_formed. simpl. split; [discriminate|]. split.
  - apply List.NoDup_cons; [intros []|apply List.NoDup_nil].
  - apply List.NoDup_nil.
Qed.

Lemma add_affected_well_formed (device : string) (inc : NetworkIncident.t) :
  well_formed inc -> well_formed (add_affected device inc).
Proof.
  intros (Hne & Ha & Hr). unfold add_affected.
  destruct (Js.array_includes _ device) eqn:Hinc; [repeat split; auto|].
  apply array_includes_false in Hinc.
  repeat split; simpl; auto.
  - intros H. apply app_eq_nil in H as [_ H]. discriminate.
  - apply NoDup_snoc; assumption.
Qed.

Lemma mark_recovered_well_formed (event : NetworkEvent.t)
    (inc : NetworkIncident.t) :
  well_formed inc -> well_formed (mark_recovered event inc).
Proof.
  intros (Hne & Ha & Hr). unfold well_formed.
  destruct (mark_recovered_devices event inc) as [-> ->].
  repeat split; auto.
  destruct (Js.array_includes _ _) eqn:Hinc; [exact Hr|].
  apply array_includes_false in Hinc. apply NoDup_snoc; assumption.
Qed.

Lemma new_incident_coherent (k : nat) (event : NetworkEvent.t) :
  coherent (new_incident env k event).
Proof. split; reflexivity. Qed.

Lemma add_affected_coherent (device : string) (inc : NetworkIncident.t) :
  coherent inc -> coherent (add_affected device inc).
Proof.
  unfold add_affected. destruct (Js.array_includes _ device); auto.
Qed.

Lemma mark_recovered_coherent (event : NetworkEvent.t)
    (inc : NetworkIncident.t) :
  NetworkIncident.status inc = ongoing ->
  coherent inc -> coherent (mark_recovered event inc).
Proof.
  unfold coherent. intros Hon. rewrite Hon. intros [Hend Hdur].
  unfold mark_recovered. cbn [NetworkIncident.status NetworkIncident.endTime
    NetworkIncident.duration].
  destruct (length _ =? length _)%nat.
  - split; discriminate.
  - rewrite Hon. auto.
Qed.

End IncidentShape.

(** X9.  At every point of the grouping pass and in every incident
    returned, an incident has at least one affected device, lists no
    device twice among the affected nor among the recovered, and has at
    most as many recovered devices as affected ones. *)
Theorem incidents_well_formed (env : Env) (events : list NetworkEvent.t) :
  let shape inc :=
    Shape.well_formed inc
    /\ (length (NetworkIncident.recoveredDevices inc)
        <= length (NetworkIncident.affectedDevices inc))%nat in
  (forall n,
      Forall shape
        (NetworkIncidentService.incidents
           (fst (NetworkIncidentService.run env
                   NetworkIncidentService.init_state (firstn n events)))))
  /\ Forall shape
       (fst (NetworkIncidentService.groupEventsIntoIncidents env events)).
Proof.
  intros shape.
  assert (Hshape : forall inc,
             Shape.well_formed inc /\ Spec.recovered_within_affected inc ->
             shape inc).
  { intros inc [Hwf Hsub]. split; [exact Hwf|].
    apply List.NoDup_incl_length; [apply Hwf|exact Hsub]. }
  destruct (pass_Forall env
              (fun inc => Shape.well_formed inc
                          /\ Spec.recovered_within_affected inc))
    with (events := events) as [Hpass Hfinal].
  - intros k event. split;
      [apply new_incident_well_formed|apply new_incident_subset].
  - intros device inc [Hwf Hsub]. split;
      [apply add_affected_well_formed|apply add_affected_subset]; assumption.
  - intros event inc Hin _ [Hwf Hsub]. split;
      [apply mark_recovered_well_formed|apply mark_recovered_subset];
      assumption.
  - intros inc H. exact H.
  - split.
    + intros n. eapply List.Forall_impl; [exact Hshape|apply Hpass].
    + eapply List.Forall_impl; [exact Hshape|exact Hfinal].
Qed.

(** X10.  At every point of the grouping pass and in every incident
    returned, an ongoing incident has neither end time nor duration and a
    resolved incident has both. *)
Theorem status_end_time_duration_agree (env : Env)
    (events : list NetworkEvent.t) :
  (forall n,
      Forall Shape.coherent
        (NetworkIncidentService.incidents
           (fst (NetworkIncidentService.run env
                   NetworkIncidentService.init_state (firstn n events)))))
  /\ Forall Shape.coherent
       (fst (NetworkIncidentService.groupEventsIntoIncidents env events)).
Proof.
  apply pass_Forall.
  - apply new_incident_coherent.
  - apply add_affected_coherent.
  - intros event inc _. apply mark_recovered_coherent.
  - intros inc H. exact H.
Qed.

Section IncidentWindows.
Import DateFns DateUtils NetworkIncidentService Shape.
Variable env : Env.

Lemma add_affected_startTime (device : string) (inc : NetworkIncident.t) :
  NetworkIncident.startTime (add_affected device inc)
  = NetworkIncident.startTime inc.
Proof. unfold add_affected. destruct (Js.array_includes _ _); reflexivity. Qed.

Lemma windows_apart_alter (f : NetworkIncident.t -> NetworkIncident.t)
    (i : nat) (incs : list NetworkIncident.t) :
  (forall inc, NetworkIncident.startTime (f inc)
               = NetworkIncident.startTime inc) ->
  windows_apart incs -> windows_apart (alter f i incs).
Proof.
  intros Hf Hincs k a b Ha Hb.
  rewrite list_lookup_alter in Ha, Hb.
  assert (Ha' : exists a0, incs !! k = Some a0
                  /\ NetworkIncident.startTime a
                     = NetworkIncident.startTime a0).
  { destruct (decide (i = k)) as [Hik|Hik].
    - rewrite Hik in Ha.
      destruct (incs !! k) as [a0|]; simpl in Ha; [|discriminate].
      injection Ha as <-. exists a0. auto.
    - exists a. auto. }
  assert (Hb' : exists b0, incs !! S k = Some b0
                  /\ NetworkIncident.startTime b
                     = NetworkIncident.startTime b0).
  { destruct (decide (i = S k)) as [Hik|Hik].
    - rewrite Hik in Hb.
      destruct (incs !! S k) as [b0|]; simpl in Hb; [|discriminate].
      injection Hb as <-. exists b0. auto.
    - exists b. auto. }
  destruct Ha' as (a0 & Ha0 & ->). destruct Hb' as (b0 & Hb0 & ->).
  exact (Hincs k a0 b0 Ha0 Hb0).
Qed.

Lemma current_is_last_alter (f : NetworkIncident.t -> NetworkIncident.t)
    (i : nat) (incs : list NetworkIncident.t) (outages : gmap string Date)
    (current : option nat) :
  current_is_last
    {| incidents := incs; deviceOutages := outages;
       currentIncident := current |} ->
  forall outages',
    current_is_last
      {| incidents := alter f i incs; deviceOutages := outages';
         currentIncident := current |}.
Proof.
  unfold current_is_last. simpl. intros Hcur outages'.
  destruct incs as [|x rest]; [destruct i; exact Hcur|].
  destruct i; simpl; [exact Hcur|].
  change (list_alter f i rest) with (alter f i rest).
  rewrite length_alter. exact Hcur.
Qed.

Lemma windows_apart_snoc (incs : list NetworkIncident.t)
    (new : NetworkIncident.t) :
  windows_apart incs ->
  (forall last, incs !! (length incs - 1)%nat = Some last ->
                incs <> [] ->
                exists ta tb,
                  NetworkIncident.startTime last = Some ta
                  /\ NetworkIncident.startTime new = Some tb
                  /\ INCIDENT_WINDOW < tb - ta) ->
  windows_apart (incs ++ [new]).
Proof.
  intros Hincs Hlast k a b Ha Hb.
  destruct (decide (S k < length incs)%nat) as [Hlt|Hge].
  - rewrite lookup_app_l in Ha by lia. rewrite lookup_app_l in Hb by lia.
    exact (Hincs k a b Ha Hb).
  - assert (Hk : S k = length incs).
    { apply lookup_lt_Some in Hb. rewrite length_app in Hb. simpl in Hb.
      lia. }
    rewrite lookup_app_l in Ha by lia.
    rewrite Hk, lookup_app_r in Hb by lia.
    rewrite Nat.sub_diag in Hb. injection Hb as <-.
    apply (Hlast a).
    + replace (length incs - 1)%nat with k by lia. exact Ha.
    + intros ->. discriminate Ha.
Qed.

(** One event keeps both facts. *)
Lemma step_windows (st : GroupState) (event : NetworkEvent.t) :
  current_is_last st /\ windows_apart (incidents st) ->
  current_is_last (fst (step env st event))
  /\ windows_apart (incidents (fst (step env st event))).
Proof.
  intros [Hcur Hwin]. destruct st as [incs outages current].
  unfold step. simpl.
  assert (Hnew : forall outages' k,
             (forall last, incs !! (length incs - 1)%nat = Some last ->
                           incs <> [] ->
                           exists ta tb,
                             NetworkIncident.startTime last = Some ta
                             /\ NetworkEvent.timestamp event = Some tb
                             /\ INCIDENT_WINDOW < tb - ta) ->
             current_is_last
               {| incidents := incs ++ [new_incident env k event];
                  deviceOutages := outages';
                  currentIncident := Some (length incs) |}
             /\ windows_apart (incs ++ [new_incident env k event])).
  { intros outages' k Hlast. split.
    - unfold current_is_last. simpl.
      destruct incs as [|x rest]; simpl; [reflexivity|].
      rewrite length_app. simpl. f_equal. lia.
    - apply windows_apart_snoc; [exact Hwin|exact Hlast]. }
  destruct (NetworkEvent.eventType event).
  - (* outage *)
    unfold current_is_last in Hcur. simpl in Hcur.
    destruct current as [i|].
    + destruct incs as [|x rest]; [discriminate|].
      injection Hcur as ->.
      destruct ((x :: rest) !! length rest) as [inc|] eqn:Hi.
      * destruct (outside_window event inc) eqn:Hout; simpl.
        -- apply Hnew. intros last Hlast _. simpl in Hlast.
           rewrite Nat.sub_0_r, Hi in Hlast. injection Hlast as <-.
           unfold outside_window, diff in Hout.
           destruct (NetworkEvent.timestamp event) as [tb|]; [|discriminate].
           destruct (NetworkIncident.startTime inc) as [ta|]; [|discriminate].
           exists ta, tb. apply Z.ltb_lt in Hout. auto.
        -- split.
           ++ apply (current_is_last_alter _ _ (x :: rest) outages).
              reflexivity.
           ++ apply windows_apart_alter;
                [apply add_affected_startTime|exact Hwin].
      * exfalso. apply lookup_ge_None in Hi. simpl in Hi. lia.
    + destruct incs as [|x rest]; [|discriminate]. simpl.
      apply Hnew. intros last Hlast. discriminate Hlast.
  - (* recovery *)
    destruct (outages !! NetworkEvent.deviceImei event); [|split; assumption].
    destruct (Js.find_index _ incs) as [i|]; simpl.
    + split.
      * apply (current_is_last_alter _ _ incs outages). exact Hcur.
      * apply windows_apart_alter; [reflexivity|exact Hwin].
    + split; assumption.
  - split; assumption.
Qed.

Lemma run_windows (st : GroupState) (events : list NetworkEvent.t) :
  current_is_last st /\ windows_apart (incidents st) ->
  current_is_last (fst (run env st events))
  /\ windows_apart (incidents (fst (run env st events))).
Proof.
  revert st. induction events as [|e events IH]; intros st Hst; simpl;
    [exact Hst|].
  pose proof (step_windows st e Hst) as Hstep.
  destruct (step env st e) as [st1 e1]. simpl in Hstep.
  specialize (IH st1 Hstep).
  destruct (run env st1 events) as [st2 r2]. exact IH.
Qed.

Lemma init_windows :
  current_is_last init_state /\ windows_apart (incidents init_state).
Proof.
  split; [reflexivity|]. intros k a b Ha. discriminate Ha.
Qed.

End IncidentWindows.

(** X11.  At every point of the grouping pass the current incident is
    the one opened last, and each incident starts more than five minutes
    after the one opened before it; so the incidents returned are in
    strictly increasing order of start time, more than five minutes
    apart. *)
Theorem incidents_start_five_minutes_apart (env : Env)
    (events : list NetworkEvent.t) :
  (forall n,
      let st :=
        fst (NetworkIncidentService.run env
               NetworkIncidentService.init_state (firstn n events)) in
      Shape.current_is_last st
      /\ Shape.windows_apart (NetworkIncidentService.incidents st))
  /\ Shape.windows_apart
       (fst (NetworkIncidentService.groupEventsIntoIncidents env events)).
Proof.
  split.
  - intros n. apply run_windows, init_windows.
  - unfold NetworkIncidentService.groupEventsIntoIncidents.
    destruct (run_windows env NetworkIncidentService.init_state events
                (init_windows)) as [_ Hwin].
    destruct (NetworkIncidentService.run env _ events) as [st events'].
    simpl in *. intros k a b Ha Hb.
    rewrite list_lookup_fmap in Ha, Hb.
    destruct (NetworkIncidentService.incidents st !! k) as [a0|] eqn:Ha0;
      [|discriminate].
    destruct (NetworkIncidentService.incidents st !! S k) as [b0|] eqn:Hb0;
      [|discriminate].
    injection Ha as <-. injection Hb as <-.
    exact (Hwin k a0 b0 Ha0 Hb0).
Qed.

Section IncidentIds.
Import DateFns DateUtils NetworkIncidentService Shape.
Variable env : Env.

Lemma map_id_alter_incident (f : NetworkIncident.t -> NetworkIncident.t)
    (i : nat) (incs : list NetworkIncident.t) :
  (forall inc, NetworkIncident.id (f inc) = NetworkIncident.id inc) ->
  List.map NetworkIncident.id (alter f i incs)
  = List.map NetworkIncident.id incs.
Proof.
  intros Hf. revert i. induction incs as [|x incs IH]; intros [|i]; simpl;
    rewrite ?Hf; try reflexivity.
  change (list_alter f i incs) with (alter f i incs).
  rewrite IH. reflexivity.
Qed.

Lemma add_affected_id (device : string) (inc : NetworkIncident.t) :
  NetworkIncident.id (add_affected device inc) = NetworkIncident.id inc.
Proof. unfold add_affected. destruct (Js.array_includes _ _); reflexivity. Qed.

(** What one event does to the list of incident ids, to the event, and
    to the number of incidents. *)
Lemma step_ids (st : GroupState) (event : NetworkEvent.t) :
  let ids := List.map NetworkIncident.id (incidents st) in
  let ids' :=
    List.map NetworkIncident.id (incidents (fst (step env st event))) in
  (exists extra,
      ids' = ids ++ extra
      /\ (length extra <= outage_count [event])%nat)
  /\ assigned event (snd (step env st event))
  /\ outage_linked ids' (snd (step env st event))
  /\ (NetworkEvent.eventType event = outage -> ids' <> []).
Proof.
  intros ids ids'. subst ids ids'. unfold step, outage_count, outage_linked.
  cbn [List.filter].
  assert (Hsame : exists extra : list string,
             List.map NetworkIncident.id (incidents st)
             = List.map NetworkIncident.id (incidents st) ++ extra
             /\ (length extra <= 0)%nat)
    by (exists []; rewrite app_nil_r; auto).
  destruct (NetworkEvent.eventType event) eqn:Hkind; cbn [length].
  - (* outage *)
    assert (Hnew : forall outages,
               let st' :=
                 {| incidents :=
                      incidents st
                      ++ [new_incident env (length (incidents st)) event];
                    deviceOutages := outages;
                    currentIncident := Some (length (incidents st)) |} in
               let e' :=
                 set_incidentId event
                   (NetworkIncident.id
                      (new_incident env (length (incidents st)) event)) in
               (exists extra,
                   List.map NetworkIncident.id (incidents st')
                   = List.map NetworkIncident.id (incidents st) ++ extra
                   /\ (length extra <= 1)%nat)
               /\ assigned event e'
               /\ (NetworkEvent.eventType e' = outage ->
                   exists id, NetworkEvent.incidentId e' = Some id
                     /\ In id (List.map NetworkIncident.id (incidents st')))
               /\ (outage = outage ->
                   List.map NetworkIncident.id (incidents st') <> [])).
    { intros outages st' e'. subst st' e'. simpl. rewrite map_app. simpl.
      split; [eexists; split; [reflexivity|simpl; lia]|].
      split; [right; split; [rewrite Hkind; discriminate|eexists; reflexivity]|].
      split.
      - intros _. eexists. split; [reflexivity|].
        apply in_or_app. right. left. reflexivity.
      - intros _ H. apply app_eq_nil in H as [_ H]. discriminate. }
    destruct (currentIncident st) as [i|];
      [destruct (incidents st !! i) as [inc|] eqn:Hi;
       [destruct (outside_window event inc)|]|];
      cbn [fst snd incidents]; try exact (Hnew (deviceOutages st)).
    rewrite (map_id_alter_incident _ _ _ (add_affected_id _)).
    split; [destruct Hsame as (extra & H1 & H2); exists extra; split;
            [exact H1|lia]|].
    split; [right; split; [rewrite Hkind; discriminate|eexists; reflexivity]|].
    assert (Hin : In (NetworkIncident.id inc)
                    (List.map NetworkIncident.id (incidents st))).
    { apply in_map. apply list_elem_of_In.
      apply list_elem_of_lookup. exists i. exact Hi. }
    split.
    + intros _. eexists. split; [reflexivity|exact Hin].
    + intros _ H. rewrite H in Hin. destruct Hin.
  - (* recovery *)
    destruct (deviceOutages st !! NetworkEvent.deviceImei event);
      [|cbn [fst snd incidents]; rewrite Hkind; split; [exact Hsame|];
        split; [left; reflexivity|split; discriminate]].
    destruct (Js.find_index _ (incidents st)) as [i|] eqn:Hfind;
      cbn [fst snd incidents].
    + rewrite (map_id_alter_incident (mark_recovered event) i (incidents st))
        by reflexivity.
      split; [exact Hsame|]. split.
      * destruct (incidents st !! i);
          [right; split; [rewrite Hkind; discriminate|eexists; reflexivity]
          |left; reflexivity].
      * split; [|discriminate].
        destruct (incidents st !! i); simpl; rewrite Hkind; discriminate.
    + rewrite Hkind. split; [exact Hsame|].
      split; [left; reflexivity|split; discriminate].
  - cbn [fst snd incidents]. rewrite Hkind. split; [exact Hsame|].
    split; [left; reflexivity|split; discriminate].
Qed.

Lemma outage_linked_more (ids extra : list string) (e : NetworkEvent.t) :
  outage_linked ids e -> outage_linked (ids ++ extra) e.
Proof.
  intros H Hk. destruct (H Hk) as (id & Hid & Hin).
  exists id. split; [exact Hid|]. apply in_or_app. left. exact Hin.
Qed.

Lemma run_ids (st : GroupState) (events : list NetworkEvent.t) :
  let ids := List.map NetworkIncident.id (incidents st) in
  let ids' :=
    List.map NetworkIncident.id (incidents (fst (run env st events))) in
  (exists extra,
      ids' = ids ++ extra /\ (length extra <= outage_count events)%nat)
  /\ Forall2 assigned events (snd (run env st events))
  /\ Forall (outage_linked ids') (snd (run env st events))
  /\ ((0 < outage_count events)%nat -> ids' <> []).
Proof.
  revert st. induction events as [|e events IH]; intros st; simpl.
  - split; [exists []; rewrite app_nil_r; auto|].
    split; [constructor|]. split; [constructor|]. unfold outage_count.
    simpl. lia.
  - destruct (step_ids st e) as ((x1 & Hx1 & Hl1) & Has & Hlink & Hne).
    destruct (step env st e) as [st1 e1]. simpl in Hx1, Hl1, Has, Hlink, Hne.
    destruct (IH st1) as ((x2 & Hx2 & Hl2) & Hass & Hlinks & Hnes).
    destruct (run env st1 events) as [st2 evs']. simpl in *.
    assert (Hcount : outage_count (e :: events)
                     = (outage_count [e] + outage_count events)%nat).
    { unfold outage_count. simpl.
      destruct (NetworkEvent.eventType e); simpl; lia. }
    split; [|split; [|split]].
    + exists (x1 ++ x2). rewrite Hx2, Hx1, <- app_assoc.
      split; [reflexivity|]. rewrite length_app. lia.
    + constructor; assumption.
    + constructor; [|exact Hlinks]. rewrite Hx2.
      apply outage_linked_more. exact Hlink.
    + intros Hpos. rewrite Hx2. intros H.
      apply app_eq_nil in H as [H1 H2].
      destruct (NetworkEvent.eventType e) eqn:Hk.
      * apply Hne; [reflexivity|exact H1].
      * apply Hnes; [|rewrite Hx2, H1, H2; reflexivity].
        unfold outage_count in *. simpl in Hpos. rewrite Hk in Hpos.
        exact Hpos.
      * apply Hnes; [|rewrite Hx2, H1, H2; reflexivity].
        unfold outage_count in *. simpl in Hpos. rewrite Hk in Hpos.
        exact Hpos.
Qed.

End IncidentIds.

(** X12.  The grouping pass opens at most one incident per outage event,
    and at least one as soon as there is an outage event; it returns the
    events in their order, each unchanged or, unless it is a timeout,
    given an incident id; and every outage event returned carries the id
    of one of the incidents returned. *)
Theorem outage_events_are_linked (env : Env) (events : list NetworkEvent.t) :
  let result := NetworkIncidentService.groupEventsIntoIncidents env events in
  (length (fst result) <= Shape.outage_count events)%nat
  /\ (fst result = [] <-> Shape.outage_count events = 0%nat)
  /\ Forall2 Shape.assigned events (snd result)
  /\ Forall
       (Shape.outage_linked (List.map NetworkIncident.id (fst result)))
       (snd result).
Proof.
  intros result. subst result.
  unfold NetworkIncidentService.groupEventsIntoIncidents.
  destruct (run_ids env NetworkIncidentService.init_state events)
    as ((extra & Hx & Hl) & Hass & Hlink & Hne).
  destruct (NetworkIncidentService.run env _ events) as [st events'].
  simpl in *.
  assert (Hids : List.map NetworkIncident.id
                   (List.map NetworkIncidentService.finalize
                      (NetworkIncidentService.incidents st))
                 = List.map NetworkIncident.id
                     (NetworkIncidentService.incidents st))
    by (rewrite map_map; reflexivity).
  assert (Hlen : length (NetworkIncidentService.incidents st)
                 = length extra).
  { rewrite <- (length_map NetworkIncident.id), Hx. reflexivity. }
  split; [rewrite length_map; lia|].
  split; [|split; [exact Hass|rewrite Hids; exact Hlink]].
  split.
  - intros Hnil. apply map_eq_nil in Hnil.
    destruct (Shape.outage_count events) as [|c] eqn:Hc; [reflexivity|].
    exfalso. apply Hne; [lia|]. rewrite Hnil. reflexivity.
  - intros Hzero. rewrite Hzero in Hl.
    destruct (NetworkIncidentService.incidents st); [reflexivity|].
    simpl in Hlen. lia.
Qed.

(* ===================================================================== *)
(** * The recovery metrics *)
(* ===================================================================== *)

Section RecoveryMetricsFacts.
Import NetworkIncidentService Shape.

Lemma keys_set (k : string) (v : nat) (m : OrderedMap.t nat) :
  List.map fst (OrderedMap.set k v m)
  = if OrderedMap.has k m then List.map fst m else List.map fst m ++ [k].
Proof.
  induction m as [|[k' v'] m IH]; simpl; [reflexivity|].
  destruct (String.eqb k' k); simpl; [reflexivity|].
  rewrite IH. destruct (OrderedMap.has k m); reflexivity.
Qed.

Lemma keys_count_device (counts : OrderedMap.t nat) (device : string) :
  List.NoDup (List.map fst counts) ->
  List.NoDup (List.map fst (count_device counts device)).
Proof.
  intros Hnd. unfold count_device. rewrite keys_set.
  destruct (OrderedMap.has device counts) eqn:Hhas; [exact Hnd|].
  apply NoDup_snoc; [|exact Hnd]. apply has_false_not_key. exact Hhas.
Qed.

Lemma get_count_device (counts : OrderedMap.t nat) (device d : string) :
  OrderedMap.get d (count_device counts device)
  = if String.eqb device d
    then Some (match OrderedMap.get d counts with
               | Some c => c + 1
               | None => 1
               end)%nat
    else OrderedMap.get d counts.
Proof.
  unfold count_device. rewrite get_set.
  destruct (String.eqb device d) eqn:E; [|reflexivity].
  apply String.eqb_eq in E. subst d. reflexivity.
Qed.

Lemma fold_count_device (l : list string) (counts : OrderedMap.t nat)
    (d : string) :
  (List.NoDup (List.map fst counts) ->
      List.NoDup (List.map fst (fold_left count_device l counts)))
  /\ OrderedMap.get d (fold_left count_device l counts)
     = match count_occ String.string_dec l d, OrderedMap.get d counts with
       | O, old => old
       | S c, Some c0 => Some (c0 + S c)%nat
       | S c, None => Some (S c)
       end.
Proof.
  revert counts. induction l as [|x l IH]; intros counts; simpl.
  - split; [auto|]. destruct (OrderedMap.get d counts); reflexivity.
  - destruct (IH (count_device counts x)) as [Hnd Hget]. split.
    + intros H. apply Hnd. apply keys_count_device. exact H.
    + rewrite Hget, get_count_device.
      destruct (String.string_dec x d) as [->|Hne].
      * rewrite String.eqb_refl.
        destruct (count_occ String.string_dec l d);
          destruct (OrderedMap.get d counts); f_equal; lia.
      * apply String.eqb_neq in Hne. rewrite Hne. reflexivity.
Qed.

Lemma fold_incidents_counts (incs : list NetworkIncident.t)
    (counts : OrderedMap.t nat) :
  fold_left
    (fun counts inc =>
       fold_left count_device (NetworkIncident.affectedDevices inc) counts)
    incs counts
  = fold_left count_device
      (concat (List.map NetworkIncident.affectedDevices incs)) counts.
Proof.
  revert counts. induction incs as [|inc incs IH]; intros counts; simpl;
    [reflexivity|].
  rewrite fold_left_app. apply IH.
Qed.

Lemma NoDup_keys_filter (p : string * nat -> bool) (m : OrderedMap.t nat) :
  List.NoDup (List.map fst m) -> List.NoDup (List.map fst (List.filter p m)).
Proof.
  induction m as [|x m IH]; simpl; [auto|].
  intros Hnd. inversion Hnd as [|? ? Hx Hm]; subst.
  destruct (p x); simpl; [|exact (IH Hm)].
  constructor; [|exact (IH Hm)].
  intros Hin. apply Hx. apply in_map_iff in Hin as (y & Hy & Hin).
  apply filter_In in Hin as [Hin _]. rewrite <- Hy. apply in_map. exact Hin.
Qed.

Lemma In_firstn {A : Type} (n : nat) (l : list A) (x : A) :
  In x (firstn n l) -> In x l.
Proof.
  intros Hx. rewrite <- (firstn_skipn n l). apply in_or_app. left. exact Hx.
Qed.

Lemma NoDup_firstn {A : Type} (n : nat) (l : list A) :
  List.NoDup l -> List.NoDup (firstn n l).
Proof.
  intros Hl. rewrite <- (firstn_skipn n l) in Hl.
  apply List.NoDup_app_remove_r in Hl. exact Hl.
Qed.

Lemma count_pattern_total (incs : list NetworkIncident.t)
    (acc : RecoveryMetrics.Patterns) :
  let total p :=
    (RecoveryMetrics.n_simultaneous p + RecoveryMetrics.n_gradual p
     + RecoveryMetrics.n_partial p)%nat in
  total (fold_left count_pattern incs acc) = (total acc + length incs)%nat.
Proof.
  intros total. subst total. revert acc.
  induction incs as [|inc incs IH]; intros acc; simpl; [lia|].
  rewrite IH. unfold count_pattern.
  destruct (NetworkIncident.recoveryPattern inc); simpl; lia.
Qed.

End RecoveryMetricsFacts.

(** X13.  In the recovery metrics, the three pattern counts add up to
    the number of incidents; the frequently affected devices are at most
    five, all different, each listed as affected more than twice over
    the incidents, in non-increasing order of that number; and when no
    incident is resolved, the average, longest and shortest duration and
    the recovery rate are all 0. *)
Theorem recovery_metrics_shape (incidents : list NetworkIncident.t) :
  let metrics := NetworkIncidentService.calculateRecoveryMetrics incidents in
  let patterns := RecoveryMetrics.recoveryPatterns metrics in
  let frequent := RecoveryMetrics.frequentlyAffectedDevices metrics in
  RecoveryMetrics.totalOutages metrics = length incidents
  /\ (RecoveryMetrics.n_simultaneous patterns
      + RecoveryMetrics.n_gradual patterns
      + RecoveryMetrics.n_partial patterns)%nat = length incidents
  /\ (length frequent <= 5)%nat
  /\ List.NoDup frequent
  /\ Forall (fun d => (2 < Shape.occurrences incidents d)%nat) frequent
  /\ StronglySorted
       (fun a b =>
          (Shape.occurrences incidents b <= Shape.occurrences incidents a)%nat)
       frequent
  /\ match List.filter
             (fun inc => negb (NetworkIncidentService.is_ongoing inc))
             incidents with
     | [] =>
         RecoveryMetrics.averageOutageDuration metrics = 0%float
         /\ RecoveryMetrics.longestOutage metrics = 0%float
         /\ RecoveryMetrics.shortestOutage metrics = 0%float
         /\ RecoveryMetrics.recoveryRate metrics = 0%float
     | _ :: _ => True
     end.
Proof.
  intros metrics patterns frequent. subst frequent patterns metrics.
  unfold NetworkIncidentService.calculateRecoveryMetrics.
  cbn [RecoveryMetrics.totalOutages RecoveryMetrics.recoveryPatterns
       RecoveryMetrics.frequentlyAffectedDevices
       RecoveryMetrics.averageOutageDuration RecoveryMetrics.longestOutage
       RecoveryMetrics.shortestOutage RecoveryMetrics.recoveryRate].
  rewrite fold_incidents_counts.
  set (all := concat (List.map NetworkIncident.affectedDevices incidents)).
  set (counts := fold_left NetworkIncidentService.count_device all []).
  set (cmp := fun a b : string * nat =>
                Some (Z.of_nat (snd b) - Z.of_nat (snd a))).
  set (picked := List.filter (fun entry : string * nat => (2 <? snd entry)%nat)
                   counts).
  assert (Hkeys : List.NoDup (List.map fst counts)).
  { apply (fold_count_device all [] ""). constructor. }
  assert (Hcount : forall d c, In (d, c) counts ->
                               c = Shape.occurrences incidents d).
  { intros d c Hin. apply (In_get _ _ _ Hkeys) in Hin.
    unfold counts in Hin.
    destruct (fold_count_device all [] d) as (_ & Hget).
    rewrite Hget in Hin. simpl in Hin. unfold Shape.occurrences. fold all.
    destruct (count_occ String.string_dec all d); [discriminate|].
    injection Hin as <-. reflexivity. }
  pose proof (sort_permutation cmp picked) as Hperm.
  assert (Hsub : forall e, In e (Js.slice_first 5 (Js.sort cmp picked)) ->
                           In e counts /\ (2 < snd e)%nat).
  { intros e He. unfold Js.slice_first in He.
    apply In_firstn in He.
    apply (Permutation_in _ Hperm) in He.
    apply filter_In in He as [Hin Hp]. apply Nat.ltb_lt in Hp. auto. }
  split; [reflexivity|].
  split; [exact (count_pattern_total incidents
                   {| RecoveryMetrics.n_simultaneous := 0;
                      RecoveryMetrics.n_gradual := 0;
                      RecoveryMetrics.n_partial := 0 |})|].
  split; [rewrite length_map; unfold Js.slice_first;
          rewrite List.length_firstn; lia|].
  split; [|split; [|split]].
  - unfold Js.slice_first. rewrite <- List.firstn_map.
    apply NoDup_firstn.
    apply (Permutation_NoDup
             (Permutation_map fst (Permutation_sym Hperm))).
    apply NoDup_keys_filter. exact Hkeys.
  - apply List.Forall_forall. intros d Hd.
    apply in_map_iff in Hd as ([d' c] & <- & He).
    destruct (Hsub _ He) as [Hin Hc]. simpl in *.
    rewrite <- (Hcount d' c Hin). exact Hc.
  - assert (Hsorted : StronglySorted
                        (fun a b : string * nat =>
                           - Z.of_nat (snd a) <= - Z.of_nat (snd b))
                        (Js.sort cmp picked)).
    { apply (sort_sorted (fun e : string * nat => - Z.of_nat (snd e))).
      intros a b _ _. unfold cmp. f_equal. lia. }
    assert (Hall : Forall (fun e => In e counts) (Js.sort cmp picked)).
    { apply List.Forall_forall. intros e He.
      apply (Permutation_in _ Hperm) in He.
      apply filter_In in He as [Hin _]. exact Hin. }
    unfold Js.slice_first. clear Hsub Hperm.
    generalize 5%nat as n. revert Hall.
    induction Hsorted as [|e l Hl IH He]; intros Hall n.
    + rewrite firstn_nil. constructor.
    + inversion Hall as [|? ? Hin Hall']; subst.
      destruct n as [|n]; [constructor|]. simpl. constructor.
      * apply IH. exact Hall'.
      * apply List.Forall_forall. intros d Hd.
        apply in_map_iff in Hd as (e' & <- & He').
        apply In_firstn in He'.
        rewrite List.Forall_forall in He, Hall'.
        specialize (He e' He'). specialize (Hall' e' He').
        destruct e as [d0 c0], e' as [d1 c1]. simpl in *.
        rewrite <- (Hcount d0 c0 Hin), <- (Hcount d1 c1 Hall'). lia.
  - destruct (List.filter _ incidents); [|exact I].
    simpl. repeat split; reflexivity.
Qed.

(* ===================================================================== *)
(** * Further properties of dateUtils *)
(* ===================================================================== *)

(** X14. [isValidTimestamp] tells whether a timestamp is present, not
    whether it can be read: it is [false] on undefined, null and the empty
    string and [true] on everything else, an unparseable string and an
    Invalid Date included. *)
Theorem isValidTimestamp_is_presence (env : Env) (ts : Timestamp) :
  DateUtils.isValidTimestamp env ts = negb (DateUtils.missing ts)
  /\ (forall s, s <> ""%string ->
      DateUtils.isValidTimestamp env (TsString s) = true)
  /\ (forall d, DateUtils.isValidTimestamp env (TsDate d) = true).
Proof.
  assert (Hall : forall ts',
            DateUtils.isValidTimestamp env ts' = negb (DateUtils.missing ts')).
  { intros ts'. unfold DateUtils.isValidTimestamp.
    destruct (DateUtils.missing ts'); [reflexivity|].
    apply parseTimestamp_valid. }
  split; [apply Hall|]. split.
  - intros s Hs. rewrite Hall. simpl.
    destruct (String.eqb_spec s ""); [contradiction|reflexivity].
  - intros d. rewrite Hall. reflexivity.
Qed.

Section UnreadableTimestamps.
Import DateFns DateUtils.
Variable env : Env.

Lemma unreadable_now (ts : Timestamp) :
  Shape.unreadable env ts -> parseTimestamp env ts = new_Date env.
Proof.
  unfold parseTimestamp, parseTimestamp_console.
  destruct ts as [| |s|d]; simpl; try reflexivity.
  - destruct (String.eqb_spec s ""); [reflexivity|].
    intros [Hs|(H1 & H2 & H3 & H4)]; [contradiction|].
    rewrite (strategy_failed _ _ H1), (strategy_failed _ _ H2),
      (strategy_failed _ _ H3).
    simpl. rewrite H4. reflexivity.
  - intros ->. reflexivity.
Qed.

End UnreadableTimestamps.

(** X15. A log whose timestamp is missing or cannot be read is dated now:
    it lies within the last [n] hours and the last [n] days for every
    [n > 0], so the services count it as recent activity; filtering any
    list of such timestamps by such a window keeps them all. *)
Theorem unreadable_timestamp_counts_as_recent (env : Env) (n : Z)
    (stamps : list Timestamp) :
  (0 < n)%Z ->
  List.Forall (Shape.unreadable env) stamps ->
  List.Forall
    (fun ts =>
       DateUtils.parseTimestamp env ts = Some (now env)
       /\ AnalyticsService.within_hours env n ts = true
       /\ AnalyticsService.within_days env n ts = true) stamps
  /\ List.filter (AnalyticsService.within_hours env n) stamps = stamps
  /\ List.filter (AnalyticsService.within_days env n) stamps = stamps.
Proof.
  intros Hn Hall.
  assert (Hone : forall ts, Shape.unreadable env ts ->
            DateUtils.parseTimestamp env ts = Some (now env)
            /\ AnalyticsService.within_hours env n ts = true
            /\ AnalyticsService.within_days env n ts = true).
  { intros ts Hts. pose proof (unreadable_now env ts Hts) as Hnow.
    split; [exact Hnow|].
    unfold AnalyticsService.within_hours, AnalyticsService.within_days.
    rewrite Hnow. unfold DateUtils.new_Date. simpl.
    split; apply Z.ltb_lt; lia. }
  split; [|split].
  - eapply List.Forall_impl; [|exact Hall]. exact Hone.
  - induction Hall as [|ts l Hts _ IH]; simpl; [reflexivity|].
    destruct (Hone ts Hts) as (_ & -> & _). rewrite IH. reflexivity.
  - induction Hall as [|ts l Hts _ IH]; simpl; [reflexivity|].
    destruct (Hone ts Hts) as (_ & _ & ->). rewrite IH. reflexivity.
Qed.

Lemma unreadable_timestamp_counts_as_recent_witness :
  List.filter (AnalyticsService.within_hours quiet_env 1)
    [TsNull; TsString "not a date"; TsDate None; TsUndefined]
  = [TsNull; TsString "not a date"; TsDate None; TsUndefined].
Proof.
  apply (unreadable_timestamp_counts_as_recent quiet_env 1
           [TsNull; TsString "not a date"; TsDate None; TsUndefined]).
  - lia.
  - apply List.Forall_cons; [exact I|].
    apply List.Forall_cons.
    { right. simpl. repeat split; reflexivity. }
    apply List.Forall_cons; [reflexivity|].
    apply List.Forall_cons; [exact I|]. apply List.Forall_nil.
Defined.

(** X16. [parseTimestamp] is idempotent: parsing the date it returned
    gives that date back and writes no warning; and [getSafeTimestamp] is
    the time value of that date, never NaN. *)
Theorem parseTimestamp_idempotent (env : Env) (ts : Timestamp) :
  DateUtils.parseTimestamp_console env
    (TsDate (DateUtils.parseTimestamp env ts))
  = (DateUtils.parseTimestamp env ts, [])
  /\ exists t,
       DateUtils.getSafeTimestamp env ts = Some t
       /\ DateUtils.parseTimestamp env ts = Some t.
Proof.
  pose proof (parseTimestamp_valid env ts) as Hvalid.
  split.
  - unfold DateUtils.parseTimestamp_console at 1. simpl.
    rewrite Hvalid. reflexivity.
  - unfold DateUtils.getSafeTimestamp.
    destruct (DateUtils.parseTimestamp env ts) as [t|]; [|discriminate].
    exists t. split; reflexivity.
Qed.

(* ===================================================================== *)
(** * One device seen alone and within the fleet *)
(* ===================================================================== *)

Section DeviceView.
Import AnalyticsService.
Local Open Scope float_scope.
Variable env : Env.

Lemma ignitions_of_idem d (logs : list IgnitionLog.t) :
  ignitions_of d (ignitions_of d logs) = ignitions_of d logs.
Proof. unfold ignitions_of. apply filter_idempotent_under. auto. Qed.

Lemma exceptions_of_idem d (logs : list ExceptionLog.t) :
  exceptions_of d (exceptions_of d logs) = exceptions_of d logs.
Proof. unfold exceptions_of. apply filter_idempotent_under. auto. Qed.

Lemma ignitions_of_other d k (logs : list IgnitionLog.t) :
  k <> d -> ignitions_of k (ignitions_of d logs) = [].
Proof.
  intros Hk. unfold ignitions_of.
  induction logs as [|x logs IH]; simpl; [reflexivity|].
  destruct (String.eqb_spec (IgnitionLog.deviceImei x) d) as [Hx|Hx]; simpl;
    [|exact IH].
  destruct (String.eqb_spec (IgnitionLog.deviceImei x) k) as [Hx'|Hx'];
    [congruence|exact IH].
Qed.

Lemma exceptions_of_other d k (logs : list ExceptionLog.t) :
  k <> d -> exceptions_of k (exceptions_of d logs) = [].
Proof.
  intros Hk. unfold exceptions_of.
  induction logs as [|x logs IH]; simpl; [reflexivity|].
  destruct (String.eqb_spec (ExceptionLog.deviceImei x) d) as [Hx|Hx]; simpl;
    [|exact IH].
  destruct (String.eqb_spec (ExceptionLog.deviceImei x) k) as [Hx'|Hx'];
    [congruence|exact IH].
Qed.

Lemma ignitions_of_In d (logs : list IgnitionLog.t) :
  ignitions_of d logs <> [] -> In d (List.map IgnitionLog.deviceImei logs).
Proof.
  unfold ignitions_of. intros Hne.
  destruct (List.filter _ logs) as [|x r] eqn:Hf; [contradiction|].
  assert (Hx : In x (List.filter
                       (fun log => String.eqb (IgnitionLog.deviceImei log) d)
                       logs)).
  { rewrite Hf. left. reflexivity. }
  apply filter_In in Hx as [Hin Hd]. apply String.eqb_eq in Hd. subst d.
  apply in_map. exact Hin.
Qed.

Lemma exceptions_of_In d (logs : list ExceptionLog.t) :
  exceptions_of d logs <> [] -> In d (List.map ExceptionLog.deviceImei logs).
Proof.
  unfold exceptions_of. intros Hne.
  destruct (List.filter _ logs) as [|x r] eqn:Hf; [contradiction|].
  assert (Hx : In x (List.filter
                       (fun log => String.eqb (ExceptionLog.deviceImei log) d)
                       logs)).
  { rewrite Hf. left. reflexivity. }
  apply filter_In in Hx as [Hin Hd]. apply String.eqb_eq in Hd. subst d.
  apply in_map. exact Hin.
Qed.

(** The group stored for a device, if any. *)
Lemma group_by_device_get (ignitionLogs : list IgnitionLog.t)
    (exceptionLogs : list ExceptionLog.t) k :
  OrderedMap.get k (group_by_device ignitionLogs exceptionLogs)
  = match ignitions_of k ignitionLogs, exceptions_of k exceptionLogs with
    | [], [] => None
    | i, e => Some {| ignitions := i; exceptions := e |}
    end.
Proof.
  unfold group_by_device.
  rewrite get_fold_push_exception, get_fold_push_ignition. simpl.
  destruct (ignitions_of k ignitionLogs); simpl.
  - destruct (exceptions_of k exceptionLogs); reflexivity.
  - reflexivity.
Qed.

Lemma group_by_device_keys (ignitionLogs : list IgnitionLog.t)
    (exceptionLogs : list ExceptionLog.t) :
  List.NoDup (List.map fst (group_by_device ignitionLogs exceptionLogs)).
Proof.
  apply keys_fold_push_exception, keys_fold_push_ignition. constructor.
Qed.

Lemma not_key_get {V : Type} (m : OrderedMap.t V) k :
  ~ In k (List.map fst m) -> OrderedMap.get k m = None.
Proof.
  induction m as [|[k0 v0] r IH]; simpl; [reflexivity|].
  intros Hnot. destruct (String.eqb_spec k0 k) as [Heq|Hne].
  - exfalso. apply Hnot. left. exact Heq.
  - apply IH. intros Hin. apply Hnot. right. exact Hin.
Qed.

(** A map that knows no key but [d] has at most one entry. *)
Lemma only_key {V : Type} (m : OrderedMap.t V) d :
  List.NoDup (List.map fst m) ->
  (forall k, k <> d -> OrderedMap.get k m = None) ->
  m = match OrderedMap.get d m with
      | Some v => [(d, v)]
      | None => []
      end.
Proof.
  destruct m as [|[k0 v0] r]; [reflexivity|].
  intros Hnd Hother.
  assert (Hk0 : k0 = d).
  { destruct (String.eqb_spec k0 d) as [Heq|Hne]; [exact Heq|].
    specialize (Hother k0 Hne). simpl in Hother.
    rewrite String.eqb_refl in Hother. discriminate. }
  subst k0. simpl. rewrite String.eqb_refl.
  destruct r as [|[k1 v1] r']; [reflexivity|].
  exfalso. inversion Hnd as [|? ? Hnotin _]; subst.
  assert (Hk1 : k1 <> d).
  { intros ->. apply Hnotin. left. reflexivity. }
  specialize (Hother k1 Hk1). simpl in Hother.
  destruct (String.eqb_spec d k1) as [Heq|_]; [congruence|].
  rewrite String.eqb_refl in Hother. discriminate.
Qed.

(** What a pass over the groups produces for one device. *)
Lemma filter_flat_map_key {V B : Type} (F : string * V -> list B)
    (imei_of : B -> string) (m : OrderedMap.t V) d :
  List.NoDup (List.map fst m) ->
  (forall k v b, In b (F (k, v)) -> imei_of b = k) ->
  List.filter (fun b => String.eqb (imei_of b) d) (flat_map F m)
  = match OrderedMap.get d m with
    | Some v => F (d, v)
    | None => []
    end.
Proof.
  intros Hnd HF. induction m as [|[k0 v0] r IH]; simpl; [reflexivity|].
  inversion Hnd as [|? ? Hnotin Hnd']; subst.
  rewrite List.filter_app, (IH Hnd').
  destruct (String.eqb_spec k0 d) as [Heq|Hne].
  - subst k0. rewrite (not_key_get r d Hnotin), app_nil_r.
    apply filter_all. apply List.Forall_forall. intros b Hb.
    rewrite (HF _ _ _ Hb). apply String.eqb_refl.
  - rewrite filter_none; [reflexivity|].
    apply List.Forall_forall. intros b Hb.
    rewrite (HF _ _ _ Hb). apply String.eqb_neq. exact Hne.
Qed.

(** The groups built from the logs of one device. *)
Lemma group_by_device_alone (ignitionLogs : list IgnitionLog.t)
    (exceptionLogs : list ExceptionLog.t) d :
  group_by_device (ignitions_of d ignitionLogs)
    (exceptions_of d exceptionLogs)
  = match ignitions_of d ignitionLogs, exceptions_of d exceptionLogs with
    | [], [] => []
    | i, e => [(d, {| ignitions := i; exceptions := e |})]
    end.
Proof.
  rewrite (only_key
             (group_by_device (ignitions_of d ignitionLogs)
                (exceptions_of d exceptionLogs)) d).
  - rewrite group_by_device_get, ignitions_of_idem, exceptions_of_idem.
    destruct (ignitions_of d ignitionLogs);
      [destruct (exceptions_of d exceptionLogs)|]; reflexivity.
  - apply group_by_device_keys.
  - intros k Hk. rewrite group_by_device_get.
    rewrite (ignitions_of_other _ _ _ Hk), (exceptions_of_other _ _ _ Hk).
    reflexivity.
Qed.

Lemma device_view (B : Type) (F : string * DeviceGroup -> list B)
    (imei_of : B -> string) (ignitionLogs : list IgnitionLog.t)
    (exceptionLogs : list ExceptionLog.t) d :
  (forall k v b, In b (F (k, v)) -> imei_of b = k) ->
  F (d, {| ignitions := []; exceptions := [] |}) = [] ->
  flat_map F
    (group_by_device (ignitions_of d ignitionLogs)
       (exceptions_of d exceptionLogs))
  = List.filter (fun b => String.eqb (imei_of b) d)
      (flat_map F (group_by_device ignitionLogs exceptionLogs))
  /\ List.filter (fun b => String.eqb (imei_of b) d)
       (flat_map F (group_by_device ignitionLogs exceptionLogs))
     = F (d, {| ignitions := ignitions_of d ignitionLogs;
                exceptions := exceptions_of d exceptionLogs |}).
Proof.
  intros HF Hempty.
  rewrite (filter_flat_map_key F imei_of _ d
             (group_by_device_keys ignitionLogs exceptionLogs) HF).
  rewrite group_by_device_alone, group_by_device_get.
  destruct (ignitions_of d ignitionLogs);
    [destruct (exceptions_of d exceptionLogs)|]; simpl;
    rewrite ?app_nil_r, ?Hempty; split; reflexivity.
Qed.

Lemma slice_last_length {A : Type} (n : nat) (l : list A) :
  (length (Js.slice_last n l) <= length l)%nat.
Proof. unfold Js.slice_last. rewrite List.length_skipn. lia. Qed.

Lemma voltage_anomaly_shape (imei : string) (l : list IgnitionLog.t) :
  (length (voltage_anomaly env imei l) <= 1)%nat
  /\ forall a, In a (voltage_anomaly env imei l) ->
       Anomaly.imei a = imei
       /\ Anomaly.type a = voltage_drop
       /\ (Anomaly.severity a = critical \/ Anomaly.severity a = high)
       /\ Anomaly.detectedAt a = Some (now env)
       /\ (3 <= length (List.filter has_voltage l))%nat.
Proof.
  unfold voltage_anomaly.
  destruct (3 <=? length _)%nat eqn:H3; simpl; [|split; [lia|tauto]].
  apply Nat.leb_le in H3. rewrite List.length_map in H3.
  pose proof (slice_last_length 5 (List.filter has_voltage l)) as Hlen.
  destruct (_ <? 11.5); simpl; [|split; [lia|tauto]].
  split; [lia|]. intros a [<-|[]]. simpl.
  repeat split; try reflexivity; try lia.
  destruct (_ <? 11.0); [left|right]; reflexivity.
Qed.

Lemma restart_anomaly_shape (imei : string) (l : list ExceptionLog.t) :
  (length (restart_anomaly env imei l) <= 1)%nat
  /\ forall a, In a (restart_anomaly env imei l) ->
       Anomaly.imei a = imei
       /\ Anomaly.type a = frequent_restarts
       /\ Anomaly.severity a = high
       /\ Anomaly.detectedAt a = Some (now env)
       /\ (5 < length
                 (List.filter
                    (fun log => within_hours env 1 (ExceptionLog.timestamp log))
                    l))%nat.
Proof.
  unfold restart_anomaly.
  destruct (5 <? length _)%nat eqn:H5; simpl; [|split; [lia|tauto]].
  apply Nat.ltb_lt in H5.
  split; [lia|]. intros a [<-|[]]. simpl.
  repeat split; try reflexivity; exact H5.
Qed.

Lemma battery_alert_shape (imei : string) (l : list IgnitionLog.t) :
  (length (battery_alert env imei l) <= 1)%nat
  /\ forall a, In a (battery_alert env imei l) ->
       PredictiveAlert.imei a = imei
       /\ PredictiveAlert.type a = battery_failure
       /\ PredictiveAlert.createdAt a = Some (now env)
       /\ (5 <= length (List.filter has_voltage l))%nat.
Proof.
  unfold battery_alert.
  destruct (5 <=? length _)%nat eqn:H5; simpl; [|split; [lia|tauto]].
  apply Nat.leb_le in H5.
  erewrite Permutation_length in H5; [|apply sort_permutation].
  rewrite List.length_map in H5.
  pose proof (slice_last_length 10 (List.filter has_voltage l)) as Hlen.
  destruct (_ <? -0.1); simpl; [|split; [lia|tauto]].
  destruct (_ <? 72); simpl; [|split; [lia|tauto]].
  split; [lia|]. intros a [<-|[]]. simpl.
  repeat split; try reflexivity; lia.
Qed.

Lemma connection_alert_shape (imei : string) (l : list ExceptionLog.t) :
  (length (connection_alert env imei l) <= 1)%nat
  /\ forall a, In a (connection_alert env imei l) ->
       PredictiveAlert.imei a = imei
       /\ PredictiveAlert.type a = connection_degradation
       /\ PredictiveAlert.createdAt a = Some (now env)
       /\ (10 < length
                  (List.filter
                     (fun log =>
                        within_days env 3 (ExceptionLog.timestamp log))
                     l))%nat.
Proof.
  unfold connection_alert.
  destruct (10 <? length _)%nat eqn:H10; simpl; [|split; [lia|tauto]].
  apply Nat.ltb_lt in H10.
  pose proof (filter_length_bound
                (fun log =>
                   main_includes log "connection"
                   || main_includes log "timeout"
                   || main_includes log "server")
                (List.filter
                   (fun log => within_days env 3 (ExceptionLog.timestamp log))
                   l)) as Hlen.
  split; [lia|]. intros a [<-|[]]. simpl.
  repeat split; try reflexivity; lia.
Qed.

End DeviceView.

(** X17. The logs of the other devices have no influence on a device's
    health score and performance metrics: computing them from the
    device's own logs, as the device page does, gives the same record as
    computing them from all the logs, as the fleet dashboard does. *)
Theorem device_logs_suffice (env : Env) (imei : string)
    (ignitionLogs : list IgnitionLog.t) (exceptionLogs : list ExceptionLog.t) :
  AnalyticsService.calculateDeviceHealthScore env imei
    (AnalyticsService.ignitions_of imei ignitionLogs)
    (AnalyticsService.exceptions_of imei exceptionLogs)
  = AnalyticsService.calculateDeviceHealthScore env imei
      ignitionLogs exceptionLogs
  /\ AnalyticsService.calculateDevicePerformanceMetrics env imei
       (AnalyticsService.ignitions_of imei ignitionLogs)
       (AnalyticsService.exceptions_of imei exceptionLogs)
     = AnalyticsService.calculateDevicePerformanceMetrics env imei
         ignitionLogs exceptionLogs.
Proof.
  unfold AnalyticsService.calculateDeviceHealthScore,
    AnalyticsService.calculateDevicePerformanceMetrics.
  rewrite ignitions_of_idem, exceptions_of_idem. split; reflexivity.
Qed.

(** X18. The anomalies and predictive alerts computed from the logs of
    one device alone are exactly those that the computation on all the
    logs reports for that device, in the same order. *)
Theorem device_view_of_anomalies_and_alerts (env : Env) (imei : string)
    (ignitionLogs : list IgnitionLog.t) (exceptionLogs : list ExceptionLog.t) :
  AnalyticsService.detectAnomalies env
    (AnalyticsService.ignitions_of imei ignitionLogs)
    (AnalyticsService.exceptions_of imei exceptionLogs)
  = List.filter (fun a => String.eqb (Anomaly.imei a) imei)
      (AnalyticsService.detectAnomalies env ignitionLogs exceptionLogs)
  /\ AnalyticsService.generatePredictiveAlerts env
       (AnalyticsService.ignitions_of imei ignitionLogs)
       (AnalyticsService.exceptions_of imei exceptionLogs)
     = List.filter (fun a => String.eqb (PredictiveAlert.imei a) imei)
         (AnalyticsService.generatePredictiveAlerts env
            ignitionLogs exceptionLogs).
Proof.
  unfold AnalyticsService.detectAnomalies,
    AnalyticsService.generatePredictiveAlerts.
  split.
  - apply device_view; [|reflexivity].
    intros k v b Hb. simpl in Hb. apply in_app_or in Hb as [Hb|Hb].
    + exact (proj1 (proj2 (voltage_anomaly_shape env k _) b Hb)).
    + exact (proj1 (proj2 (restart_anomaly_shape env k _) b Hb)).
  - apply device_view; [|reflexivity].
    intros k v b Hb. simpl in Hb. apply in_app_or in Hb as [Hb|Hb].
    + exact (proj1 (proj2 (battery_alert_shape env k _) b Hb)).
    + exact (proj1 (proj2 (connection_alert_shape env k _) b Hb)).
Qed.

(** X19. Every anomaly reported by [detectAnomalies] is dated now and is
    either a voltage drop of severity critical or high, on a device with
    at least three voltage readings, or frequent restarts of severity
    high, on a device with more than five exceptions in the last hour;
    no other type and no lower severity is ever produced.  Per device
    there is at most one anomaly of each type, the voltage drop first. *)
Theorem anomalies_shape (env : Env) (ignitionLogs : list IgnitionLog.t)
    (exceptionLogs : list ExceptionLog.t) :
  List.Forall
    (fun a =>
       Anomaly.detectedAt a = Some (now env)
       /\ match Anomaly.type a with
          | voltage_drop =>
              (Anomaly.severity a = critical \/ Anomaly.severity a = high)
              /\ (3 <= length
                         (List.filter has_voltage
                            (AnalyticsService.ignitions_of (Anomaly.imei a)
                               ignitionLogs)))%nat
          | frequent_restarts =>
              Anomaly.severity a = high
              /\ (5 < length
                        (List.filter
                           (fun log =>
                              AnalyticsService.within_hours env 1
                                (ExceptionLog.timestamp log))
                           (AnalyticsService.exceptions_of (Anomaly.imei a)
                              exceptionLogs)))%nat
          | _ => False
          end)
    (AnalyticsService.detectAnomalies env ignitionLogs exceptionLogs)
  /\ forall imei,
       exists drop restarts,
         List.filter (fun a => String.eqb (Anomaly.imei a) imei)
           (AnalyticsService.detectAnomalies env ignitionLogs exceptionLogs)
         = drop ++ restarts
         /\ (length drop <= 1)%nat
         /\ (length restarts <= 1)%nat
         /\ List.Forall (fun a => Anomaly.type a = voltage_drop) drop
         /\ List.Forall (fun a => Anomaly.type a = frequent_restarts) restarts.
Proof.
  split.
  - apply List.Forall_forall. intros a Ha.
    unfold AnalyticsService.detectAnomalies in Ha.
    apply in_flat_map in Ha as ([k g] & Hkg & Ha).
    apply group_by_device_spec in Hkg. subst g. simpl in Ha.
    apply in_app_or in Ha as [Ha|Ha].
    + apply (proj2 (voltage_anomaly_shape env k _)) in Ha.
      destruct Ha as (Hk & Ht & Hs & Hd & Hn).
      rewrite Ht, Hk. auto.
    + apply (proj2 (restart_anomaly_shape env k _)) in Ha.
      destruct Ha as (Hk & Ht & Hs & Hd & Hn).
      rewrite Ht, Hk. auto.
  - intros imei.
    exists (AnalyticsService.voltage_anomaly env imei
              (AnalyticsService.ignitions_of imei ignitionLogs)),
      (AnalyticsService.restart_anomaly env imei
         (AnalyticsService.exceptions_of imei exceptionLogs)).
    split.
    + unfold AnalyticsService.detectAnomalies.
      refine (proj2 (device_view Anomaly.t _ Anomaly.imei
                       ignitionLogs exceptionLogs imei _ _));
        [|reflexivity].
      intros k v b Hb. simpl in Hb. apply in_app_or in Hb as [Hb|Hb].
      * exact (proj1 (proj2 (voltage_anomaly_shape env k _) b Hb)).
      * exact (proj1 (proj2 (restart_anomaly_shape env k _) b Hb)).
    + split; [apply voltage_anomaly_shape|].
      split; [apply restart_anomaly_shape|].
      split; apply List.Forall_forall; intros a Ha.
      * apply (proj2 (voltage_anomaly_shape env imei _)) in Ha. tauto.
      * apply (proj2 (restart_anomaly_shape env imei _)) in Ha. tauto.
Qed.


(* ===================================================================== *)
(** * Properties of the server health *)
(* ===================================================================== *)

Section ServerHealthFacts.
Import AnalyticsService.
Variable env : Env.




End ServerHealthFacts.


(* ===================================================================== *)
(** * Properties of the trend data *)
(* ===================================================================== *)


(* ===================================================================== *)
(** * Properties of the geographic data *)
(* ===================================================================== *)

Section GeographicFacts.
Import AnalyticsService DateFns DateUtils Shape.
Variable env : Env.
Variable ignitionLogs : list LocatedLog.t.
Variable exceptionLogs : list ExceptionLog.t.

Lemma keys_set_any {V : Type} k (v : V) (m : OrderedMap.t V) :
  List.map fst (OrderedMap.set k v m)
  = if OrderedMap.has k m then List.map fst m else List.map fst m ++ [k].
Proof.
  induction m as [|[k' v'] m IH]; simpl; [reflexivity|].
  destruct (String.eqb k' k); simpl; [reflexivity|].
  rewrite IH. destruct (OrderedMap.has k m); reflexivity.
Qed.

Lemma keys_set_nodup {V : Type} k (v : V) (m : OrderedMap.t V) :
  List.NoDup (List.map fst m) ->
  List.NoDup (List.map fst (OrderedMap.set k v m)).
Proof.
  intros Hnd. rewrite keys_set_any.
  destruct (OrderedMap.has k m) eqn:Hhas; [exact Hnd|].
  apply NoDup_snoc; [|exact Hnd]. apply has_false_not_key. exact Hhas.
Qed.

Lemma get_In {V : Type} k (v : V) (m : OrderedMap.t V) :
  OrderedMap.get k m = Some v -> In (k, v) m.
Proof.
  induction m as [|[k0 v0] r IH]; simpl; [discriminate|].
  destruct (String.eqb_spec k0 k) as [->|_].
  - intros [= ->]. left. reflexivity.
  - intros Hg. right. exact (IH Hg).
Qed.

Lemma gt_irrefl (a : Date) : gt a a = false.
Proof. destruct a as [t|]; simpl; [|reflexivity]. apply Z.ltb_irrefl. Qed.

Lemma gt_below (a b c : Date) :
  gt a b = true -> gt c b = false -> gt c a = false.
Proof.
  destruct a as [ta|], b as [tb|]; simpl; try discriminate.
  destruct c as [tc|]; simpl; [|reflexivity].
  rewrite Z.ltb_lt, !Z.ltb_ge. lia.
Qed.

Lemma health_score_of_device_logs (imei : string)
    (igs : list IgnitionLog.t) (excs : list ExceptionLog.t) :
  calculateDeviceHealthScore env imei
    (ignitions_of imei igs) (exceptions_of imei excs)
  = calculateDeviceHealthScore env imei igs excs.
Proof.
  unfold calculateDeviceHealthScore.
  rewrite ignitions_of_idem, exceptions_of_idem. reflexivity.
Qed.

(** The health score of an entry is the score of the device on all the
    logs. *)
Lemma geographic_entry_score (l : LocatedLog.t) (latitude longitude : Js.number) :
  GeographicData.healthScore
    (geographic_entry env ignitionLogs exceptionLogs l latitude longitude)
  = DeviceHealthScore.score
      (calculateDeviceHealthScore env
         (IgnitionLog.deviceImei (LocatedLog.log l))
         (List.map LocatedLog.log ignitionLogs) exceptionLogs).
Proof.
  unfold geographic_entry. cbn [GeographicData.healthScore].
  rewrite <- (health_score_of_device_logs _
                (List.map LocatedLog.log ignitionLogs) exceptionLogs).
  unfold ignitions_of. rewrite filter_map_comm. reflexivity.
Qed.

Lemma latest_located_snoc (logs : list LocatedLog.t) (l : LocatedLog.t)
    k (e : GeographicData.t) :
  latest_located env ignitionLogs exceptionLogs logs k e ->
  located l && String.eqb (IgnitionLog.deviceImei (LocatedLog.log l)) k
  && gt (located_time env l) (GeographicData.lastSeen e) = false ->
  latest_located env ignitionLogs exceptionLogs (logs ++ [l]) k e.
Proof.
  intros (l0 & lat & lon & Hin & Hloc & Htruthy & Hk & He & Hall) Hl.
  exists l0, lat, lon. split; [apply in_or_app; left; exact Hin|].
  repeat (split; [assumption|]).
  apply Forall_app. split; [exact Hall|].
  apply List.Forall_cons; [exact Hl|apply List.Forall_nil].
Qed.

Lemma latest_located_new (logs : list LocatedLog.t) (l : LocatedLog.t)
    (latitude longitude : Js.number) :
  LocatedLog.location l = Some (latitude, longitude) ->
  Js.truthy latitude && Js.truthy longitude = true ->
  List.Forall
    (fun l' =>
       located l'
       && String.eqb (IgnitionLog.deviceImei (LocatedLog.log l'))
            (IgnitionLog.deviceImei (LocatedLog.log l))
       && gt (located_time env l') (located_time env l) = false) logs ->
  latest_located env ignitionLogs exceptionLogs (logs ++ [l])
    (IgnitionLog.deviceImei (LocatedLog.log l))
    (geographic_entry env ignitionLogs exceptionLogs l latitude longitude).
Proof.
  intros Hloc Htruthy Hall.
  exists l, latitude, longitude.
  split; [apply in_or_app; right; left; reflexivity|].
  repeat (split; [first [assumption|reflexivity]|]).
  apply Forall_app. split; [exact Hall|].
  apply List.Forall_cons; [|apply List.Forall_nil].
  cbn [geographic_entry GeographicData.lastSeen].
  unfold located_time. rewrite gt_irrefl. apply andb_false_r.
Qed.

(** The loop keeps, for every device, the entry of its latest log with
    coordinates among the logs seen so far. *)
Lemma geographic_step_keeps (logs : list LocatedLog.t) (l : LocatedLog.t)
    (m : OrderedMap.t GeographicData.t) :
  List.NoDup (List.map fst m) ->
  (forall k,
     match OrderedMap.get k m with
     | Some e => latest_located env ignitionLogs exceptionLogs logs k e
     | None =>
         List.Forall
           (fun l' =>
              located l'
              && String.eqb (IgnitionLog.deviceImei (LocatedLog.log l')) k
              = false) logs
     end) ->
  List.NoDup
    (List.map fst (geographic_step env ignitionLogs exceptionLogs m l))
  /\ forall k,
       match OrderedMap.get k
               (geographic_step env ignitionLogs exceptionLogs m l) with
       | Some e =>
           latest_located env ignitionLogs exceptionLogs (logs ++ [l]) k e
       | None =>
           List.Forall
             (fun l' =>
                located l'
                && String.eqb (IgnitionLog.deviceImei (LocatedLog.log l')) k
                = false) (logs ++ [l])
       end.
Proof.
  intros Hnd Hinv.
  assert (Hskip : located l = false ->
            forall k,
              match OrderedMap.get k m with
              | Some e =>
                  latest_located env ignitionLogs exceptionLogs
                    (logs ++ [l]) k e
              | None =>
                  List.Forall
                    (fun l' =>
                       located l'
                       && String.eqb
                            (IgnitionLog.deviceImei (LocatedLog.log l')) k
                       = false) (logs ++ [l])
              end).
  { intros Hl k. specialize (Hinv k).
    destruct (OrderedMap.get k m) as [e|].
    - apply latest_located_snoc; [exact Hinv|]. rewrite Hl. reflexivity.
    - apply Forall_app. split; [exact Hinv|].
      apply List.Forall_cons; [|apply List.Forall_nil].
      rewrite Hl. reflexivity. }
  unfold geographic_step.
  destruct (LocatedLog.location l) as [[latitude longitude]|] eqn:Hloc.
  2:{ split; [exact Hnd|]. apply Hskip. unfold located. rewrite Hloc.
      reflexivity. }
  destruct (Js.truthy latitude && Js.truthy longitude) eqn:Htruthy.
  2:{ split; [exact Hnd|]. apply Hskip. unfold located. rewrite Hloc.
      exact Htruthy. }
  assert (Hl : located l = true).
  { unfold located. rewrite Hloc. exact Htruthy. }
  cbv zeta.
  set (imei := IgnitionLog.deviceImei (LocatedLog.log l)).
  pose proof (Hinv imei) as Himei.
  destruct (OrderedMap.get imei m) as [e0|] eqn:Hget.
  - destruct (gt (parseTimestamp env (IgnitionLog.timestamp (LocatedLog.log l)))
                (GeographicData.lastSeen e0)) eqn:Hgt.
    + (* a later log of a device already on the map *)
      split; [apply keys_set_nodup; exact Hnd|].
      intros k. rewrite get_set.
      destruct (String.eqb_spec imei k) as [<-|Hne].
      * apply latest_located_new; [exact Hloc|exact Htruthy|].
        destruct Himei as (l0 & lat0 & lon0 & _ & _ & _ & _ & _ & Hall).
        eapply List.Forall_impl; [|exact Hall].
        intros l' Hl'. cbv beta in Hl' |- *. fold imei.
        destruct (located l' && String.eqb
                    (IgnitionLog.deviceImei (LocatedLog.log l')) imei)
          eqn:Hsame; [|reflexivity].
        rewrite andb_true_l in Hl' |- *.
        apply (gt_below _ _ _ Hgt). exact Hl'.
      * specialize (Hinv k).
        destruct (OrderedMap.get k m) as [e|].
        -- apply latest_located_snoc; [exact Hinv|].
           fold imei. apply String.eqb_neq in Hne. rewrite Hne.
           rewrite andb_false_r. reflexivity.
        -- apply Forall_app. split; [exact Hinv|].
           apply List.Forall_cons; [|apply List.Forall_nil].
           fold imei. apply String.eqb_neq in Hne. rewrite Hne.
           apply andb_false_r.
    + (* an earlier log of a device already on the map *)
      split; [exact Hnd|].
      intros k. specialize (Hinv k).
      destruct (String.eqb_spec imei k) as [<-|Hne].
      * rewrite Hget. rewrite Hget in Hinv.
        apply latest_located_snoc; [exact Hinv|].
        unfold located_time. rewrite Hgt. apply andb_false_r.
      * destruct (OrderedMap.get k m) as [e|].
        -- apply latest_located_snoc; [exact Hinv|].
           fold imei. apply String.eqb_neq in Hne. rewrite Hne.
           rewrite andb_false_r. reflexivity.
        -- apply Forall_app. split; [exact Hinv|].
           apply List.Forall_cons; [|apply List.Forall_nil].
           fold imei. apply String.eqb_neq in Hne. rewrite Hne.
           apply andb_false_r.
  - (* the first log with coordinates of its device *)
    split; [apply keys_set_nodup; exact Hnd|].
    intros k. rewrite get_set.
    destruct (String.eqb_spec imei k) as [<-|Hne].
    * apply latest_located_new; [exact Hloc|exact Htruthy|].
      eapply List.Forall_impl; [|exact Himei].
      intros l' Hl'. cbv beta in Hl'. fold imei. rewrite Hl'. reflexivity.
    * specialize (Hinv k).
      destruct (OrderedMap.get k m) as [e|].
      -- apply latest_located_snoc; [exact Hinv|].
         fold imei. apply String.eqb_neq in Hne. rewrite Hne.
         rewrite andb_false_r. reflexivity.
      -- apply Forall_app. split; [exact Hinv|].
         apply List.Forall_cons; [|apply List.Forall_nil].
         fold imei. apply String.eqb_neq in Hne. rewrite Hne.
         apply andb_false_r.
Qed.

Lemma geographic_fold_keeps (rest logs : list LocatedLog.t)
    (m : OrderedMap.t GeographicData.t) :
  List.NoDup (List.map fst m) ->
  (forall k,
     match OrderedMap.get k m with
     | Some e => latest_located env ignitionLogs exceptionLogs logs k e
     | None =>
         List.Forall
           (fun l' =>
              located l'
              && String.eqb (IgnitionLog.deviceImei (LocatedLog.log l')) k
              = false) logs
     end) ->
  List.NoDup
    (List.map fst
       (fold_left (geographic_step env ignitionLogs exceptionLogs) rest m))
  /\ forall k,
       match OrderedMap.get k
               (fold_left (geographic_step env ignitionLogs exceptionLogs)
                  rest m) with
       | Some e =>
           latest_located env ignitionLogs exceptionLogs (logs ++ rest) k e
       | None =>
           List.Forall
             (fun l' =>
                located l'
                && String.eqb (IgnitionLog.deviceImei (LocatedLog.log l')) k
                = false) (logs ++ rest)
       end.
Proof.
  revert logs m. induction rest as [|l rest IH]; intros logs m Hnd Hinv.
  - simpl. rewrite app_nil_r. split; assumption.
  - simpl.
    destruct (geographic_step_keeps logs l m Hnd Hinv) as [Hnd' Hinv'].
    specialize (IH (logs ++ [l]) _ Hnd' Hinv').
    rewrite <- app_assoc in IH. exact IH.
Qed.

End GeographicFacts.

(** X23. [generateGeographicData] returns at most one entry per device,
    and one for every device that has an ignition log with non-zero
    coordinates.  The entry of a device is built from such a log of the
    device, none of the device's logs with coordinates being later than
    it, and its health score is the score [calculateDeviceHealthScore]
    gives the device on all the logs. *)
Theorem geographic_data_shape (env : Env) (ignitionLogs : list LocatedLog.t)
    (exceptionLogs : list ExceptionLog.t) :
  let result :=
    AnalyticsService.generateGeographicData env ignitionLogs exceptionLogs in
  List.NoDup (List.map GeographicData.imei result)
  /\ List.Forall
       (fun l =>
          AnalyticsService.located l = false
          \/ In (IgnitionLog.deviceImei (LocatedLog.log l))
               (List.map GeographicData.imei result))
       ignitionLogs
  /\ List.Forall
       (fun e =>
          Shape.latest_located env ignitionLogs exceptionLogs ignitionLogs
            (GeographicData.imei e) e
          /\ GeographicData.healthScore e
             = DeviceHealthScore.score
                 (AnalyticsService.calculateDeviceHealthScore env
                    (GeographicData.imei e)
                    (List.map LocatedLog.log ignitionLogs) exceptionLogs))
       result.
Proof.
  intros result. subst result.
  unfold AnalyticsService.generateGeographicData.
  destruct (geographic_fold_keeps env ignitionLogs exceptionLogs
              ignitionLogs [] [] (List.NoDup_nil _)) as [Hnd Hinv].
  { intros k. simpl. apply List.Forall_nil. }
  simpl in Hnd, Hinv.
  set (m := fold_left
              (AnalyticsService.geographic_step env ignitionLogs exceptionLogs)
              ignitionLogs []) in *.
  assert (Hentry : forall k e, In (k, e) m ->
            Shape.latest_located env ignitionLogs exceptionLogs
              ignitionLogs k e
            /\ GeographicData.imei e = k).
  { intros k e Hin. apply (In_get _ _ _ Hnd) in Hin.
    specialize (Hinv k). rewrite Hin in Hinv. split; [exact Hinv|].
    destruct Hinv as (l & lat & lon & _ & _ & _ & Hk & -> & _).
    exact Hk. }
  assert (Hkeys : List.map GeographicData.imei (List.map snd m)
                  = List.map fst m).
  { rewrite map_map. apply map_ext_in. intros [k e] Hin.
    apply Hentry in Hin as [_ Hk]. exact Hk. }
  split; [rewrite Hkeys; exact Hnd|]. split.
  - apply List.Forall_forall. intros l Hl.
    destruct (AnalyticsService.located l) eqn:Hloc; [right|left; reflexivity].
    rewrite Hkeys.
    specialize (Hinv (IgnitionLog.deviceImei (LocatedLog.log l))).
    destruct (OrderedMap.get (IgnitionLog.deviceImei (LocatedLog.log l)) m)
      as [e|] eqn:Hget.
    + apply get_In in Hget. apply (in_map fst) in Hget. exact Hget.
    + exfalso. rewrite List.Forall_forall in Hinv.
      specialize (Hinv l Hl). rewrite Hloc, String.eqb_refl in Hinv.
      discriminate.
  - apply List.Forall_forall. intros e He.
    apply in_map_iff in He as ([k e'] & <- & Hin). simpl.
    destruct (Hentry k e' Hin) as [Hlatest Hk]. rewrite Hk.
    split; [exact Hlatest|].
    destruct Hlatest as (l & lat & lon & _ & _ & _ & Hdev & -> & _).
    rewrite geographic_entry_score, Hdev. reflexivity.
Qed.

(* ===================================================================== *)
(** * Properties of the current network status *)
(* ===================================================================== *)

Section NetworkStatusFacts.
Import NetworkIncidentService.
Variable env : Env.



End NetworkStatusFacts.


(* ===================================================================== *)
(** * Properties of the device recovery status *)
(* ===================================================================== *)

Section DeviceRecoveryFacts.
Import NetworkIncidentService Shape.
Variable env : Env.

Lemma assigned_fields (e e' : NetworkEvent.t) :
  assigned e e' ->
  NetworkEvent.deviceImei e' = NetworkEvent.deviceImei e
  /\ NetworkEvent.timestamp e' = NetworkEvent.timestamp e
  /\ NetworkEvent.eventType e' = NetworkEvent.eventType e.
Proof. intros [->|(_ & id & ->)]; repeat split; reflexivity. Qed.

Lemma Forall2_Forall {A : Type} (Q : A -> A -> Prop) (P P' : A -> Prop)
    (l l' : list A) :
  Forall2 Q l l' -> (forall a a', Q a a' -> P a -> P' a') ->
  List.Forall P l -> List.Forall P' l'.
Proof.
  intros H2 Himp. induction H2 as [|a a' l l' Hq _ IH]; intros Hl;
    [apply List.Forall_nil|].
  inversion Hl as [|? ? Ha Hl']; subst.
  apply List.Forall_cons; [exact (Himp _ _ Hq Ha)|exact (IH Hl')].
Qed.

Lemma sorted_Forall2 {A : Type} (key : A -> Z) (Q : A -> A -> Prop)
    (l l' : list A) :
  Forall2 Q l l' -> (forall a a', Q a a' -> key a' = key a) ->
  StronglySorted (fun a b => key a <= key b) l ->
  StronglySorted (fun a b => key a <= key b) l'.
Proof.
  intros H2 Hkey. induction H2 as [|a a' l l' Hq H2 IH]; intros Hs;
    [constructor|].
  inversion Hs as [|? ? Hs' Hall]; subst.
  constructor; [exact (IH Hs')|].
  apply (Forall2_Forall Q (fun b => key a <= key b) _ l l' H2); [|exact Hall].
  intros b b' Hb Hle. rewrite (Hkey _ _ Hq), (Hkey _ _ Hb). exact Hle.
Qed.

Lemma sorted_filter {A : Type} (R : A -> A -> Prop) (p : A -> bool)
    (l : list A) :
  StronglySorted R l -> StronglySorted R (List.filter p l).
Proof.
  induction 1 as [|a l Hs IH Hall]; simpl; [constructor|].
  destruct (p a); [|exact IH].
  constructor; [exact IH|].
  apply List.Forall_forall. intros b Hb. apply filter_In in Hb as [Hb _].
  rewrite List.Forall_forall in Hall. exact (Hall b Hb).
Qed.

Lemma last_Some_In {A : Type} (l : list A) (x : A) :
  List.last (List.map Some l) None = Some x -> In x l.
Proof.
  induction l as [|a l IH]; [discriminate|].
  destruct l as [|b l]; [intros [= ->]; left; reflexivity|].
  intros H. right. apply IH. exact H.
Qed.

Lemma last_None_nil {A : Type} (l : list A) :
  List.last (List.map Some l) None = None -> l = [].
Proof.
  induction l as [|a l IH]; [reflexivity|].
  destruct l as [|b l]; [discriminate|].
  intros H. specialize (IH H). discriminate.
Qed.

Lemma sorted_last {A : Type} (key : A -> Z) (l : list A) (x : A) :
  StronglySorted (fun a b => key a <= key b) l ->
  List.last (List.map Some l) None = Some x ->
  List.Forall (fun y => key y <= key x) l.
Proof.
  induction 1 as [|a l Hs IH Hall]; [discriminate|].
  destruct l as [|b l].
  - intros [= ->]. apply List.Forall_cons; [lia|apply List.Forall_nil].
  - intros Hlast. apply List.Forall_cons; [|exact (IH Hlast)].
    rewrite List.Forall_forall in Hall. apply Hall.
    apply last_Some_In. exact Hlast.
Qed.

(** The events an analysis returns are in order of time, with valid
    dates. *)
Lemma analysis_events_sorted (ignitionLogs : list IgnitionLog.t)
    (exceptionLogs : list ExceptionLog.t) :
  StronglySorted
    (fun a b =>
       time_value (NetworkEvent.timestamp a)
       <= time_value (NetworkEvent.timestamp b))
    (analysis_events (analyzeNetworkEvents env ignitionLogs exceptionLogs))
  /\ List.Forall
       (fun e => DateFns.isValid (NetworkEvent.timestamp e) = true)
       (analysis_events (analyzeNetworkEvents env ignitionLogs exceptionLogs)).
Proof.
  unfold analyzeNetworkEvents, groupEventsIntoIncidents.
  destruct (run_ids env init_state (extractNetworkEvents env exceptionLogs))
    as (_ & Hass & _ & _).
  destruct (run env init_state (extractNetworkEvents env exceptionLogs))
    as [st events'].
  cbn [snd] in Hass. cbn [analysis_events].
  rewrite extractNetworkEvents_unfold in Hass.
  set (raw := flat_map _ exceptionLogs) in Hass.
  set (cmp := fun a b : NetworkEvent.t =>
                DateFns.diff (NetworkEvent.timestamp a)
                  (NetworkEvent.timestamp b)) in Hass.
  assert (Hvalid : forall e, In e raw ->
            exists t, NetworkEvent.timestamp e = Some t).
  { intros e He. apply classified_events in He as (log & kind & _ & _ & ->).
    simpl. pose proof (parseTimestamp_valid env (ExceptionLog.timestamp log))
      as Hv.
    destruct (DateUtils.parseTimestamp env _) as [t|]; [|discriminate].
    exists t. reflexivity. }
  split.
  - apply (sorted_Forall2
             (fun e => time_value (NetworkEvent.timestamp e))
             assigned (Js.sort cmp raw) events' Hass).
    + intros a a' Ha. destruct (assigned_fields a a' Ha) as (_ & -> & _).
      reflexivity.
    + apply (sort_sorted
               (fun e => time_value (NetworkEvent.timestamp e))).
      intros a b Ha Hb. destruct (Hvalid a Ha) as [ta Hta].
      destruct (Hvalid b Hb) as [tb Htb]. unfold cmp. rewrite Hta, Htb.
      reflexivity.
  - apply (Forall2_Forall assigned
             (fun e => DateFns.isValid (NetworkEvent.timestamp e) = true)
             _ (Js.sort cmp raw) events' Hass).
    + intros a a' Ha. destruct (assigned_fields a a' Ha) as (_ & -> & _).
      auto.
    + apply List.Forall_forall. intros e He.
      apply (Permutation_in _ (sort_permutation cmp raw)) in He.
      destruct (Hvalid e He) as [t ->]. reflexivity.
Qed.

End DeviceRecoveryFacts.

(** X25. On the events an analysis returns, as the recovery dashboard
    calls it, [getDeviceRecoveryStatus] reports as last seen the latest
    time among the events of the device, as last outage the latest time
    among its outage events, and as status what its latest event says:
    offline after an outage, recovering after a timeout, online after a
    recovery.  A device without events is online, last seen now, with no
    outage, an average recovery time of 0 and a reliability of 100. *)
Theorem device_recovery_status_on_analysis (env : Env)
    (ignitionLogs : list IgnitionLog.t) (exceptionLogs : list ExceptionLog.t)
    (deviceImei : string) :
  let events :=
    NetworkIncidentService.analysis_events
      (NetworkIncidentService.analyzeNetworkEvents env
         ignitionLogs exceptionLogs) in
  let mine :=
    List.filter
      (fun e => String.eqb (NetworkEvent.deviceImei e) deviceImei) events in
  let report :=
    NetworkIncidentService.getDeviceRecoveryStatus env deviceImei events in
  DateFns.isValid (DeviceRecoveryStatus.lastSeen report) = true
  /\ List.Forall
       (fun e =>
          Shape.not_later (NetworkEvent.timestamp e)
            (DeviceRecoveryStatus.lastSeen report)) mine
  /\ match DeviceRecoveryStatus.lastOutage report with
     | None =>
         DeviceRecoveryStatus.outageCount report = 0%nat
         /\ List.Forall (fun e => NetworkEvent.eventType e <> outage) mine
     | Some t =>
         (0 < DeviceRecoveryStatus.outageCount report)%nat
         /\ (exists o,
               In o mine /\ NetworkEvent.eventType o = outage
               /\ NetworkEvent.timestamp o = t)
         /\ List.Forall
              (fun e =>
                 NetworkEvent.eventType e <> outage
                 \/ Shape.not_later (NetworkEvent.timestamp e) t) mine
     end
  /\ match mine with
     | [] =>
         report
         = {| DeviceRecoveryStatus.deviceImei := deviceImei;
              DeviceRecoveryStatus.lastSeen := Some (now env);
              DeviceRecoveryStatus.status := DeviceRecoveryStatus.online;
              DeviceRecoveryStatus.lastOutage := None;
              DeviceRecoveryStatus.outageCount := 0;
              DeviceRecoveryStatus.averageRecoveryTime := 0%float;
              DeviceRecoveryStatus.reliability := 100%float |}
     | _ :: _ =>
         exists e,
           In e mine
           /\ DeviceRecoveryStatus.lastSeen report = NetworkEvent.timestamp e
           /\ DeviceRecoveryStatus.status report
              = match NetworkEvent.eventType e with
                | outage => DeviceRecoveryStatus.offline
                | timeout => DeviceRecoveryStatus.recovering
                | recovery => DeviceRecoveryStatus.online
                end
     end.
Proof.
  intros events mine report.
  destruct (analysis_events_sorted env ignitionLogs exceptionLogs)
    as [Hsorted Hvalid].
  fold events in Hsorted, Hvalid.
  assert (Hmine : StronglySorted
            (fun a b =>
               Shape.time_value (NetworkEvent.timestamp a)
               <= Shape.time_value (NetworkEvent.timestamp b)) mine).
  { apply sorted_filter. exact Hsorted. }
  assert (Hmine_valid : forall e, In e mine ->
            DateFns.isValid (NetworkEvent.timestamp e) = true).
  { intros e He. apply filter_In in He as [He _].
    rewrite List.Forall_forall in Hvalid. exact (Hvalid e He). }
  subst report. unfold NetworkIncidentService.getDeviceRecoveryStatus.
  fold mine.
  cbn [DeviceRecoveryStatus.lastSeen DeviceRecoveryStatus.lastOutage
       DeviceRecoveryStatus.outageCount DeviceRecoveryStatus.status].
  split; [|split; [|split]].
  - destruct (List.last (List.map Some mine) None) as [e|] eqn:Hlast;
      [|reflexivity].
    apply Hmine_valid. apply last_Some_In. exact Hlast.
  - destruct (List.last (List.map Some mine) None) as [e|] eqn:Hlast.
    + exact (sorted_last _ mine e Hmine Hlast).
    + apply last_None_nil in Hlast. rewrite Hlast. apply List.Forall_nil.
  - set (outages := List.filter (NetworkIncidentService.is_type outage) mine).
    assert (Houtages : forall e, In e outages <->
              In e mine /\ NetworkEvent.eventType e = outage).
    { intros e. unfold outages. rewrite filter_In.
      unfold NetworkIncidentService.is_type.
      destruct (NetworkEvent.eventType e); split; intros [? ?];
        split; try assumption; try reflexivity; discriminate. }
    destruct (List.last (List.map Some outages) None) as [o|] eqn:Hlast;
      cbn [option_map].
    + pose proof (last_Some_In _ _ Hlast) as Ho.
      split; [destruct outages; [destruct Ho|simpl; lia]|].
      split; [exists o; apply Houtages in Ho as [? ?]; auto|].
      pose proof (sorted_last
                    (fun e => Shape.time_value (NetworkEvent.timestamp e))
                    outages o (sorted_filter _ _ _ Hmine) Hlast) as Hall.
      rewrite List.Forall_forall in Hall.
      apply List.Forall_forall. intros e He.
      destruct (NetworkEvent.eventType e) eqn:Hk;
        [right|left; discriminate..].
      apply Hall. apply Houtages. auto.
    + apply last_None_nil in Hlast. rewrite Hlast.
      split; [reflexivity|].
      apply List.Forall_forall. intros e He Hk.
      assert (Hin : In e outages) by (apply Houtages; auto).
      rewrite Hlast in Hin. destruct Hin.
  - destruct mine as [|first rest] eqn:Hm; [reflexivity|].
    destruct (List.last (List.map Some (first :: rest)) None) as [e|]
      eqn:Hlast.
    + exists e. split; [apply last_Some_In; exact Hlast|].
      split; [reflexivity|]. cbn [option_map].
      destruct (NetworkEvent.eventType e); reflexivity.
    + apply last_None_nil in Hlast. discriminate.
Qed.

(* ===================================================================== *)
(** * Properties of the alerts of the analytics dashboard *)
(* ===================================================================== *)

Section DashboardAlerts.
Import AdvancedAnalyticsDashboard.
Variable env : Env.

Lemma flat_map_warning {A : Type} (F : A -> list Draft.t) (l : list A) :
  (forall x d, In d (F x) -> Draft.type d = alert_warning) ->
  List.Forall (fun d => Draft.type d = alert_warning) (flat_map F l).
Proof.
  intros HF. apply List.Forall_forall. intros d Hd.
  apply in_flat_map in Hd as (x & _ & Hd). exact (HF x d Hd).
Qed.

Lemma anomaly_alerts_all (a : Analytics) :
  List.Forall
    (fun anomaly =>
       Anomaly.severity anomaly = critical \/ Anomaly.severity anomaly = high)
    (anomalies a) ->
  anomaly_alerts a = List.map anomaly_alert (anomalies a).
Proof.
  unfold anomaly_alerts.
  induction 1 as [|x l Hx _ IH]; simpl; [reflexivity|].
  rewrite IH. destruct Hx as [-> | ->]; reflexivity.
Qed.

End DashboardAlerts.

(** X26. One run of the alert effect of the analytics dashboard notifies
    every anomaly that [detectAnomalies] reports, none being dropped by
    the severity test, each as a warning and after all other alerts; the
    only critical notification is the server-down alert, raised exactly
    when the server status is offline; no info notification is raised;
    and nothing is raised while notifications are switched off. *)
Theorem dashboard_alerts_shape (env : Env) (devices : list string)
    (ignitionLogs : list IgnitionLog.t) (exceptionLogs : list ExceptionLog.t) :
  let a :=
    AdvancedAnalyticsDashboard.analytics env devices
      ignitionLogs exceptionLogs in
  let drafts := AdvancedAnalyticsDashboard.alerts env true a in
  AdvancedAnalyticsDashboard.alerts env false a = []
  /\ (exists others,
        drafts
        = AdvancedAnalyticsDashboard.server_down_alerts env a ++ others
          ++ List.map AdvancedAnalyticsDashboard.anomaly_alert
               (AnalyticsService.detectAnomalies env
                  ignitionLogs exceptionLogs)
        /\ List.Forall (fun d => Draft.type d = alert_warning) others)
  /\ List.filter
       (fun d =>
          match Draft.type d with alert_critical => true | _ => false end)
       drafts
     = match ServerHealth.status
               (AnalyticsService.calculateServerHealth env exceptionLogs) with
       | ServerHealth.offline =>
           [ NotificationService.createServerDownAlert env
               (ServerHealth.totalDevices
                  (AnalyticsService.calculateServerHealth env exceptionLogs)) ]
       | _ => []
       end
  /\ List.Forall (fun d => Draft.type d <> alert_info) drafts.
Proof.
  intros a drafts.
  assert (Hanomalies :
            AdvancedAnalyticsDashboard.anomaly_alerts a
            = List.map AdvancedAnalyticsDashboard.anomaly_alert
                (AnalyticsService.detectAnomalies env
                   ignitionLogs exceptionLogs)).
  { apply anomaly_alerts_all. subst a.
    cbn [AdvancedAnalyticsDashboard.anomalies
         AdvancedAnalyticsDashboard.analytics].
    apply List.Forall_forall. intros x Hx.
    unfold AnalyticsService.detectAnomalies in Hx.
    apply in_flat_map in Hx as ([k g] & _ & Hx). simpl in Hx.
    apply in_app_or in Hx as [Hx|Hx].
    - apply (proj2 (voltage_anomaly_shape env k _)) in Hx. tauto.
    - apply (proj2 (restart_anomaly_shape env k _)) in Hx.
      right. tauto. }
  assert (Hoffline : List.Forall (fun d => Draft.type d = alert_warning)
                       (AdvancedAnalyticsDashboard.device_offline_alerts env a)).
  { apply flat_map_warning. intros metric d Hd. cbv zeta in Hd.
    destruct (PrimFloat.ltb _ _); [|destruct Hd].
    destruct Hd as [<-|[]]. reflexivity. }
  assert (Hbattery : List.Forall (fun d => Draft.type d = alert_warning)
                       (AdvancedAnalyticsDashboard.battery_alerts env a)).
  { apply flat_map_warning. intros metric d Hd.
    destruct (_ && _); [|destruct Hd].
    destruct Hd as [<-|[]]. reflexivity. }
  assert (Hwarn : List.Forall (fun d => Draft.type d = alert_warning)
                    (AdvancedAnalyticsDashboard.device_offline_alerts env a
                     ++ AdvancedAnalyticsDashboard.battery_alerts env a
                     ++ AdvancedAnalyticsDashboard.anomaly_alerts a)).
  { apply Forall_app. split; [exact Hoffline|].
    apply Forall_app. split; [exact Hbattery|].
    rewrite Hanomalies. apply List.Forall_forall. intros d Hd.
    apply in_map_iff in Hd as (x & <- & _). reflexivity. }
  subst drafts. unfold AdvancedAnalyticsDashboard.alerts. simpl negb.
  cbv iota.
  split; [reflexivity|]. split; [|split].
  - exists (AdvancedAnalyticsDashboard.device_offline_alerts env a
            ++ AdvancedAnalyticsDashboard.battery_alerts env a).
    split.
    + rewrite Hanomalies, <- app_assoc. reflexivity.
    + apply Forall_app. split; assumption.
  - rewrite List.filter_app.
    rewrite (filter_none _
               (AdvancedAnalyticsDashboard.device_offline_alerts env a
                ++ AdvancedAnalyticsDashboard.battery_alerts env a
                ++ AdvancedAnalyticsDashboard.anomaly_alerts a)), app_nil_r.
    + unfold AdvancedAnalyticsDashboard.server_down_alerts. subst a.
      cbn [AdvancedAnalyticsDashboard.serverHealth
           AdvancedAnalyticsDashboard.analytics].
      destruct (ServerHealth.status _); reflexivity.
    + eapply List.Forall_impl; [|exact Hwarn].
      intros d Hd. cbv beta in Hd |- *. rewrite Hd. reflexivity.
  - apply Forall_app. split.
    + unfold AdvancedAnalyticsDashboard.server_down_alerts.
      destruct (ServerHealth.status _); repeat constructor. discriminate.
    + eapply List.Forall_impl; [|exact Hwarn].
      intros d ->. discriminate.
Qed.

(* ===================================================================== *)
(** * Timeout events and the incidents *)
(* ===================================================================== *)

Section Timeouts.
Import NetworkIncidentService Shape.
Variable env : Env.

Lemma step_eventType (st : GroupState) (e : NetworkEvent.t) :
  NetworkEvent.eventType (snd (step env st e)) = NetworkEvent.eventType e.
Proof.
  destruct (step_ids env st e) as (_ & Has & _).
  destruct (assigned_fields _ _ Has) as (_ & _ & Hk). exact Hk.
Qed.

Lemma run_without_timeouts (st : GroupState) (events : list NetworkEvent.t) :
  run env st (List.filter (fun e => negb (is_type timeout e)) events)
  = (fst (run env st events),
     List.filter (fun e => negb (is_type timeout e))
       (snd (run env st events))).
Proof.
  revert st. induction events as [|e events IH]; intros st;
    [reflexivity|].
  cbn [List.filter run].
  pose proof (step_eventType st e) as Hk.
  destruct (NetworkEvent.eventType e) eqn:Hkind.
  - (* outage *)
    assert (Hkeep : negb (is_type timeout e) = true)
      by (unfold is_type; rewrite Hkind; reflexivity).
    rewrite Hkeep. cbn [run].
    destruct (step env st e) as [st1 e1]. cbn [snd] in Hk.
    rewrite (IH st1).
    destruct (run env st1 events) as [st2 rest2]. cbn [fst snd List.filter].
    unfold is_type at 2. rewrite Hk. reflexivity.
  - (* recovery *)
    assert (Hkeep : negb (is_type timeout e) = true)
      by (unfold is_type; rewrite Hkind; reflexivity).
    rewrite Hkeep. cbn [run].
    destruct (step env st e) as [st1 e1]. cbn [snd] in Hk.
    rewrite (IH st1).
    destruct (run env st1 events) as [st2 rest2]. cbn [fst snd List.filter].
    unfold is_type at 2. rewrite Hk. reflexivity.
  - (* timeout *)
    assert (Hdrop : negb (is_type timeout e) = false)
      by (unfold is_type; rewrite Hkind; reflexivity).
    rewrite Hdrop.
    assert (Hstep : step env st e = (st, e))
      by (unfold step; rewrite Hkind; reflexivity).
    rewrite Hstep, (IH st).
    destruct (run env st events) as [st2 rest2]. cbn [fst snd List.filter].
    rewrite Hdrop. reflexivity.
Qed.

End Timeouts.

(** X27. Timeout events have no part in the incidents: grouping the
    events without the timeouts gives the same incidents, hence the same
    recovery metrics, and gives the outage and recovery events the same
    incident ids. *)
Theorem timeouts_leave_incidents_alone (env : Env)
    (events : list NetworkEvent.t) :
  let kept :=
    List.filter
      (fun e => negb (NetworkIncidentService.is_type timeout e)) events in
  NetworkIncidentService.groupEventsIntoIncidents env kept
  = (fst (NetworkIncidentService.groupEventsIntoIncidents env events),
     List.filter
       (fun e => negb (NetworkIncidentService.is_type timeout e))
       (snd (NetworkIncidentService.groupEventsIntoIncidents env events)))
  /\ NetworkIncidentService.calculateRecoveryMetrics
       (fst (NetworkIncidentService.groupEventsIntoIncidents env kept))
     = NetworkIncidentService.calculateRecoveryMetrics
         (fst (NetworkIncidentService.groupEventsIntoIncidents env events)).
Proof.
  intros kept. subst kept.
  assert (Hsame :
            NetworkIncidentService.groupEventsIntoIncidents env
              (List.filter
                 (fun e => negb (NetworkIncidentService.is_type timeout e))
                 events)
            = (fst (NetworkIncidentService.groupEventsIntoIncidents env events),
               List.filter
                 (fun e => negb (NetworkIncidentService.is_type timeout e))
                 (snd (NetworkIncidentService.groupEventsIntoIncidents env
                         events)))).
  { unfold NetworkIncidentService.groupEventsIntoIncidents.
    rewrite run_without_timeouts.
    destruct (NetworkIncidentService.run env
                NetworkIncidentService.init_state events) as [st events'].
    reflexivity. }
  split; [exact Hsame|]. rewrite Hsame. reflexivity.
Qed.
